(** * Phase-matching solver for SHG / SFG in birefringent crystals

    A shallow embedding of [configuration.py] (class [SimulationConfig]) and
    [simulation.py] (class [Solver]), and of the list of mode identifiers
    that [launcher.py] builds for temperature matching.

    Conventions of the embedding.
    - A Python [float] is a real number ([R]): the arithmetic is the exact
      one, rounding is not modelled.  The value [np.nan] appears only where
      the program uses it as a marker (critical angles, walk-off, effective
      nonlinearity); there a float is an [option R] and [None] is NaN.
    - A Python [str] that the program inspects character by character (a mode
      identifier) is the list of its code points ([pystr]); a [str] that is
      only compared for equality (crystal name, plane, symmetry group) is a
      [string].
    - Division is the total division of [R].  A zero divisor (a pole of a
      dispersion formula, a zero wavelength) and the square root of a
      negative number, which give inf, NaN or an exception in Python
      depending on the operand types, are outside the model.
    - A Python exception is the [Raise] case of the result type [exc].
    - Plotting ([matplotlib]) has no effect on the returned values and is
      left out. *)

From Stdlib Require Import Reals Lra Lia ZArith List Ascii String Bool.
From Stdlib Require Import DecimalPos DecimalN Sorted.
Import ListNotations.
Open Scope R_scope.

(* ================================================================== *)
(** ** Exceptions *)

Inductive error : Type :=
| ValueError
| KeyError
| IndexError
| UnboundLocalError
| TypeError.

Inductive exc (A : Type) : Type :=
| Ok (a : A)
| Raise (e : error).

Arguments Ok {A} a.
Arguments Raise {A} e.

Definition bind {A B : Type} (m : exc A) (k : A -> exc B) : exc B :=
  match m with
  | Ok a => k a
  | Raise e => Raise e
  end.

Notation "x <- m ;; k" := (bind m (fun x => k))
  (at level 61, m at next level, right associativity).
Notation "m ;;; k" := (bind m (fun _ => k))
  (at level 61, right associativity).

Definition raises {A : Type} (m : exc A) : Prop :=
  exists e, m = Raise e.

Definition returns {A : Type} (m : exc A) : Prop :=
  exists a, m = Ok a.

Fixpoint mapM {A B : Type} (f : A -> exc B) (l : list A) : exc (list B) :=
  match l with
  | [] => Ok []
  | a :: l' => b <- f a ;; bs <- mapM f l' ;; Ok (b :: bs)
  end.

(* ================================================================== *)
(** ** Python strings as code-point lists *)

Definition pystr := list N.

Definition ch_O : N := 0x1D40E.  (* MATHEMATICAL BOLD CAPITAL O *)
Definition ch_E : N := 0x1D404.  (* MATHEMATICAL BOLD CAPITAL E *)
Definition ch_X : N := 0x1D417.  (* MATHEMATICAL BOLD CAPITAL X *)
Definition ch_Y : N := 0x1D418.  (* MATHEMATICAL BOLD CAPITAL Y *)
Definition ch_Z : N := 0x1D419.  (* MATHEMATICAL BOLD CAPITAL Z *)
Definition ch_arrow : N := 0x2192. (* RIGHTWARDS ARROW *)
Definition ch_plus : N := 43.
Definition ch_lparen : N := 40.
Definition ch_minus : N := 45.
Definition ch_n : N := 110.
Definition ch_m : N := 109.

(** An ASCII literal as a [pystr]. *)
Fixpoint lit (s : string) : pystr :=
  match s with
  | EmptyString => []
  | String a s' => N_of_ascii a :: lit s'
  end.

(** [c in s] for a one-character [c]. *)
Definition contains (c : N) (s : pystr) : bool := existsb (N.eqb c) s.

(** [s.index(c)], used only under the guard [c in s]. *)
Fixpoint index_of (c : N) (s : pystr) : nat :=
  match s with
  | [] => O
  | d :: s' => if N.eqb c d then O else S (index_of c s')
  end.

(** [s.split(c)] for a one-character separator: never empty. *)
Fixpoint split_on (c : N) (s : pystr) : list pystr :=
  match s with
  | [] => [[]]
  | d :: s' =>
      if N.eqb c d then [] :: split_on c s'
      else match split_on c s' with
           | [] => [[d]]
           | p :: ps => (d :: p) :: ps
           end
  end.

(** The characters removed by [str.strip()]. *)
Definition is_space (c : N) : bool :=
  ((9 <=? c) && (c <=? 13) || (28 <=? c) && (c <=? 32)
   || (c =? 0x85) || (c =? 0xA0) || (c =? 0x1680)
   || (0x2000 <=? c) && (c <=? 0x200A)
   || (c =? 0x2028) || (c =? 0x2029) || (c =? 0x202F)
   || (c =? 0x205F) || (c =? 0x3000))%N.

Fixpoint lstrip (s : pystr) : pystr :=
  match s with
  | [] => []
  | c :: s' => if is_space c then lstrip s' else s
  end.

Definition strip (s : pystr) : pystr := rev (lstrip (rev (lstrip s))).

(** The decimal digits [0]..[9].  The pattern [\d] also matches the decimal
    digits of other scripts; the identifiers of the program are written in
    ASCII and six symbols ([program_identifier] below), where these ten are
    all the digits there are. *)
Definition is_digit (c : N) : bool := ((48 <=? c) && (c <=? 57))%N.



(** [re.findall(r'(\d+)nm', s)]: every maximal run of digits immediately
    followed by [nm], left to right.  [run] is the run of digits read so far,
    last digit first. *)
Fixpoint findall_nm_from (run : pystr) (s : pystr) : list pystr :=
  match s with
  | [] => []
  | c :: s' =>
      if is_digit c then findall_nm_from (c :: run) s'
      else
        match run, s' with
        | _ :: _, d :: _ =>
            if (N.eqb c ch_n && N.eqb d ch_m)%bool
            then rev run :: findall_nm_from [] s'
            else findall_nm_from [] s'
        | _, _ => findall_nm_from [] s'
        end
  end.

Definition findall_nm (s : pystr) : list pystr := findall_nm_from [] s.

(** [float(ds)] for a string of decimal digits. *)
Definition digits_value (ds : pystr) : N :=
  fold_left (fun acc c => (10 * acc + (c - 48))%N) ds 0%N.

Definition float_of_digits (ds : pystr) : R := IZR (Z.of_N (digits_value ds)).

(* ================================================================== *)
(** ** configuration.py : class SimulationConfig *)

Inductive process : Type := SHG | SFG.

Definition process_eqb (p q : process) : bool :=
  match p, q with
  | SHG, SHG | SFG, SFG => true
  | _, _ => false
  end.

(** The dictionary [{'n_x': ..., 'n_y': ..., 'n_z': ...}] returned by
    [get_indices], and its three keys. *)
Record indices : Type := mk_indices { n_x : R; n_y : R; n_z : R }.

Inductive index_key : Type := key_n_x | key_n_y | key_n_z.

Definition getitem (i : indices) (k : index_key) : R :=
  match k with
  | key_n_x => n_x i
  | key_n_y => n_y i
  | key_n_z => n_z i
  end.

(** One entry of [crystal_db]: the point group and the tensor coefficients. *)
Record crystal_info : Type := mk_crystal_info {
  group : string;
  d : list (string * R)
}.

Fixpoint assoc {A : Type} (k : string) (l : list (string * A)) : option A :=
  match l with
  | [] => None
  | (k', v) :: l' => if String.eqb k k' then Some v else assoc k l'
  end.

(** [d_tensor.get(k, 0)] *)
Definition dict_get (dt : list (string * R)) (k : string) : R :=
  match assoc k dt with
  | Some v => v
  | None => 0
  end.

Definition default_crystal_db : list (string * crystal_info) :=
  [ ("BBO"%string,  mk_crystal_info "3m"
       [("d22"%string, 2.2); ("d31"%string, 0.04); ("d15"%string, 0.04);
        ("d11"%string, 0.02)]);
    ("KDP"%string,  mk_crystal_info "4bar2m"
       [("d36"%string, 0.39); ("d14"%string, 0.39)]);
    ("DKDP"%string, mk_crystal_info "4bar2m"
       [("d36"%string, 0.37); ("d14"%string, 0.37)]);
    ("CLBO"%string, mk_crystal_info "4bar2m"
       [("d36"%string, 0.95); ("d14"%string, 0.95)]);
    ("LBO"%string,  mk_crystal_info "mm2"
       [("d31"%string, 1.05); ("d32"%string, 0.85); ("d33"%string, 0.05);
        ("d15"%string, 1.05); ("d24"%string, 0.85)]);
    ("KTP"%string,  mk_crystal_info "mm2"
       [("d31"%string, 2.20); ("d32"%string, 3.70); ("d33"%string, 14.6);
        ("d15"%string, 2.2); ("d24"%string, 3.7)]) ].

(** The attributes of a [SimulationConfig] object.  The object is mutable and
    the dashboard rewrites [temperature] and [plane] between calls, so the
    solver is given the record that is current at each call. *)
Record SimulationConfig : Type := mk_config {
  crystal_name : string;
  process_type : process;
  sellmeier_source : string;
  wavelength1_nm : R;
  wavelength2_nm : R;
  wavelength_out_nm : R;
  wavelength_out_um : R;
  wavelength_um : R;
  plane : string;
  temperature : R;
  crystal_db : list (string * crystal_info)
}.

(** The source label that selects the second set of dispersion formulas. *)
Definition fujing : string := "福晶".

(** [SimulationConfig.__init__] *)
Definition SimulationConfig_init (crystal_name : string) (wavelength : R)
    (temperature : R) (plane : string) (process_type : process)
    (wavelength2 : option R) (sellmeier_source : string) : SimulationConfig :=
  let wavelength2_nm :=
    match wavelength2, process_type with
    | None, _ => wavelength
    | _, SHG => wavelength
    | Some w2, SFG => w2
    end in
  let wavelength_out_nm :=
    match process_type with
    | SHG => wavelength / 2
    | SFG => 1 / (1 / wavelength + 1 / wavelength2_nm)
    end in
  {| crystal_name := crystal_name;
     process_type := process_type;
     sellmeier_source := sellmeier_source;
     wavelength1_nm := wavelength;
     wavelength2_nm := wavelength2_nm;
     wavelength_out_nm := wavelength_out_nm;
     wavelength_out_um := wavelength_out_nm / 1000.0;
     wavelength_um := wavelength / 1000.0;
     plane := plane;
     temperature := temperature;
     crystal_db := default_crystal_db |}.

Definition _get_indices_clbo_oxide (wavelength dtemp : R) : indices :=
  let n_x := sqrt (2.2145 + 0.00890 / (wavelength ^ 2 - 0.02051)
                   - 0.01413 * wavelength ^ 2) - 1.9e-6 * dtemp in
  let n_y := n_x in
  let n_z := sqrt (2.0588 + 0.00866 / (wavelength ^ 2 - 0.01202)
                   - 0.00607 * wavelength ^ 2) - 0.5e-6 * dtemp in
  mk_indices n_x n_y n_z.

Definition _get_indices_clbo_fujing (wavelength dtemp : R) : indices :=
  let n_o := sqrt (2.2104 + 0.01018 / (wavelength ^ 2 - 0.01424)
                   - 0.01258 * wavelength ^ 2) in
  let n_e := sqrt (2.0588 + 0.00838 / (wavelength ^ 2 - 0.01363)
                   - 0.00607 * wavelength ^ 2) in
  mk_indices (n_o - 1.9e-6 * dtemp) (n_o - 1.9e-6 * dtemp)
             (n_e - 0.5e-6 * dtemp).

Definition _get_indices_lbo_thorlabs (wavelength dtemp : R) : indices :=
  let n_x := sqrt (2.4542 + 0.01125 / (wavelength ^ 2 - 0.01135)
                   - 0.01388 * wavelength ^ 2)
             + ((dtemp + 29.13e-3 * dtemp ^ 2)
                * ((-3.76 * wavelength + 2.30) * 1e-6)) in
  let n_y := sqrt (2.5390 + 0.01277 / (wavelength ^ 2 - 0.01189)
                   - 0.01849 * wavelength ^ 2 + 4.3025e-5 * wavelength ^ 4
                   - 2.9131e-5 * wavelength ^ 6)
             + ((dtemp - 32.89e-4 * dtemp ^ 2)
                * (6.01 * wavelength - 19.40) * 1e-6) in
  let n_z := sqrt (2.5865 + 0.01310 / (wavelength ^ 2 - 0.01223)
                   - 0.01862 * wavelength ^ 2 + 4.5778e-5 * wavelength ^ 4
                   - 3.2526e-5 * wavelength ^ 6)
             + ((dtemp - 74.49e-4 * dtemp ^ 2)
                * (1.50 * wavelength - 9.70) * 1e-6) in
  mk_indices n_x n_y n_z.

Definition _get_indices_lbo_fujing (wavelength dtemp : R) : indices :=
  let n_x_sq := 2.454140 + 0.011249 / (wavelength ^ 2 - 0.011350)
                - 0.014591 * wavelength ^ 2 - 6.60e-5 * wavelength ^ 4 in
  let n_y_sq := 2.539070 + 0.012711 / (wavelength ^ 2 - 0.012523)
                - 0.018540 * wavelength ^ 2 + 2.00e-4 * wavelength ^ 4 in
  let n_z_sq := 2.586179 + 0.013099 / (wavelength ^ 2 - 0.011893)
                - 0.017968 * wavelength ^ 2 - 2.26e-4 * wavelength ^ 4 in
  mk_indices (sqrt n_x_sq - 9.3e-6 * dtemp)
             (sqrt n_y_sq - 13.6e-6 * dtemp)
             (sqrt n_z_sq - (6.3 + 2.1 * wavelength) * 1e-6 * dtemp).

(** [_get_indices_default]: a crystal name outside the four cases leaves
    [n_x] unbound, and the [return] raises [UnboundLocalError]. *)
Definition _get_indices_default (crystal_name : string) (wavelength dtemp : R)
  : exc indices :=
  if String.eqb crystal_name "BBO" then
    let n_x := sqrt ((0.90291 * wavelength ^ 2) / (wavelength ^ 2 - 0.003926)
                     + (0.83155 * wavelength ^ 2) / (wavelength ^ 2 - 0.018786)
                     + (0.76536 * wavelength ^ 2) / (wavelength ^ 2 - 60.01)
                     + 1) - 16.6e-6 * dtemp in
    let n_z := sqrt ((1.151075 * wavelength ^ 2) / (wavelength ^ 2 - 0.007142)
                     + (0.21803 * wavelength ^ 2) / (wavelength ^ 2 - 0.02259)
                     + (0.656 * wavelength ^ 2) / (wavelength ^ 2 - 263)
                     + 1) - 9.3e-6 * dtemp in
    Ok (mk_indices n_x n_x n_z)
  else if String.eqb crystal_name "KTP" then
    Ok (mk_indices
          (sqrt (3.0065 + 0.03901 / (wavelength ^ 2 - 0.04251)
                 - 0.01327 * wavelength ^ 2) + 1.1e-5 * dtemp)
          (sqrt (3.0333 + 0.04154 / (wavelength ^ 2 - 0.04547)
                 - 0.01408 * wavelength ^ 2) + 1.3e-5 * dtemp)
          (sqrt (3.3134 + 0.05694 / (wavelength ^ 2 - 0.05658)
                 - 0.01682 * wavelength ^ 2) + 1.6e-5 * dtemp))
  else if String.eqb crystal_name "KDP" then
    let n_x := sqrt (2.259276 + 0.01008956 / (wavelength ^ 2 - 0.012942625)
                     + (13.00522 * wavelength ^ 2) / (wavelength ^ 2 - 400)) in
    let n_z := sqrt (2.132668 + 0.008637494 / (wavelength ^ 2 - 0.012281043)
                     + (3.2279924 * wavelength ^ 2) / (wavelength ^ 2 - 400)) in
    Ok (mk_indices n_x n_x n_z)
  else if String.eqb crystal_name "DKDP" then
    let n_x := sqrt (1.9575544
                     + (0.2901391 * wavelength ^ 2) / (wavelength ^ 2 - 0.0281399)
                     - 0.02824391 * wavelength ^ 2
                     + 0.004977826 * wavelength ^ 4) in
    let n_z := sqrt (1.5057799
                     + (0.6276034 * wavelength ^ 2) / (wavelength ^ 2 - 0.0131558)
                     - 0.01054063 * wavelength ^ 2
                     + 0.002243821 * wavelength ^ 4) in
    Ok (mk_indices n_x n_x n_z)
  else Raise UnboundLocalError.

(** [SimulationConfig.get_indices(target_wavelength, target_temperature)];
    an absent argument is [None].  The reference temperature is 20 C. *)
Definition get_indices (cfg : SimulationConfig)
    (target_wavelength target_temperature : option R) : exc indices :=
  let wavelength :=
    match target_wavelength with
    | None => wavelength_um cfg
    | Some w => w / 1000.0
    end in
  let dtemp :=
    match target_temperature with
    | None => temperature cfg - 20.0
    | Some t => t - 20.0
    end in
  if String.eqb (crystal_name cfg) "CLBO" then
    if String.eqb (sellmeier_source cfg) fujing
    then Ok (_get_indices_clbo_fujing wavelength dtemp)
    else Ok (_get_indices_clbo_oxide wavelength dtemp)
  else if String.eqb (crystal_name cfg) "LBO" then
    if String.eqb (sellmeier_source cfg) fujing
    then Ok (_get_indices_lbo_fujing wavelength dtemp)
    else Ok (_get_indices_lbo_thorlabs wavelength dtemp)
  else _get_indices_default (crystal_name cfg) wavelength dtemp.

(** Whether [get_indices] returns depends on the crystal name alone. *)
Definition known_crystal (name : string) : bool :=
  (String.eqb name "CLBO" || String.eqb name "LBO" || String.eqb name "BBO"
   || String.eqb name "KTP" || String.eqb name "KDP"
   || String.eqb name "DKDP")%bool.

(* ================================================================== *)
(** ** simulation.py : class Solver *)

(** [Solver.ne_func(n_cos, n_sin)]: the index of the extraordinary ray as a
    function of the propagation angle. *)
Definition ne_func (n_cos n_sin : R) : R -> R :=
  fun theta =>
    sqrt ((n_cos ^ 2 * n_sin ^ 2)
          / (n_cos ^ 2 * cos theta ^ 2 + n_sin ^ 2 * sin theta ^ 2)).

(** [f"{x:.0f}"]: the nearest integer, ties to even, in decimal, with the
    sign of [x]. *)
Definition round_half_even (x : R) : Z :=
  let f := Zfloor x in
  let r := x - IZR f in
  if Rlt_dec r (1 / 2) then f
  else if Rlt_dec (1 / 2) r then (f + 1)%Z
  else if Z.even f then f else (f + 1)%Z.

Fixpoint pystr_of_uint (u : Decimal.uint) : pystr :=
  match u with
  | Decimal.Nil => []
  | Decimal.D0 u' => 48%N :: pystr_of_uint u'
  | Decimal.D1 u' => 49%N :: pystr_of_uint u'
  | Decimal.D2 u' => 50%N :: pystr_of_uint u'
  | Decimal.D3 u' => 51%N :: pystr_of_uint u'
  | Decimal.D4 u' => 52%N :: pystr_of_uint u'
  | Decimal.D5 u' => 53%N :: pystr_of_uint u'
  | Decimal.D6 u' => 54%N :: pystr_of_uint u'
  | Decimal.D7 u' => 55%N :: pystr_of_uint u'
  | Decimal.D8 u' => 56%N :: pystr_of_uint u'
  | Decimal.D9 u' => 57%N :: pystr_of_uint u'
  end.

Definition format_0f (x : R) : pystr :=
  (if Rlt_dec x 0 then [ch_minus] else [])
  ++ pystr_of_uint (N.to_uint (Z.abs_N (round_half_even x))).

(** [f"{p1} ({l1}nm) + {p2} ({l2}nm) → {po} ({lo}nm) ({ty})"] *)
Definition mode_name (p1 : N) (l1 : pystr) (p2 : N) (l2 : pystr)
    (po : N) (lo : pystr) (ty : string) : pystr :=
  [p1] ++ lit " (" ++ l1 ++ lit "nm) + "
  ++ [p2] ++ lit " (" ++ l2 ++ lit "nm) "
  ++ [ch_arrow] ++ lit " " ++ [po] ++ lit " (" ++ lo ++ lit "nm) ("
  ++ lit ty ++ lit ")".

(** The state of a [Solver] object that the methods read.  [cfg] is the
    (shared, mutable) configuration; the other fields are fixed by
    [__init__]. *)
Record Solver : Type := mk_solver {
  cfg : SimulationConfig;
  key_static : index_key;
  key_cos : index_key;
  key_sin : index_key;
  weight1 : R;
  weight2 : R;
  mode_names : list pystr
}.

(** [plane_config]: (static axis, cos^2 axis, sin^2 axis). *)
Definition plane_config (p : string)
  : exc (index_key * index_key * index_key) :=
  if String.eqb p "XZ" then Ok (key_n_y, key_n_z, key_n_x)
  else if String.eqb p "YZ" then Ok (key_n_x, key_n_z, key_n_y)
  else if String.eqb p "XY" then Ok (key_n_z, key_n_x, key_n_y)
  else Raise KeyError.

Definition build_mode_names (c : SimulationConfig) : list pystr :=
  match process_type c with
  | SHG =>
      let lw := format_0f (wavelength1_nm c) in
      let l2w := format_0f (wavelength_out_nm c) in
      [ mode_name ch_O lw ch_O lw ch_E l2w "Type I";
        mode_name ch_E lw ch_E lw ch_O l2w "Type I";
        mode_name ch_O lw ch_E lw ch_E l2w "Type II";
        mode_name ch_O lw ch_E lw ch_O l2w "Type II" ]
  | SFG =>
      let l1 := format_0f (wavelength1_nm c) in
      let l2 := format_0f (wavelength2_nm c) in
      let lout := format_0f (wavelength_out_nm c) in
      [ mode_name ch_O l1 ch_O l2 ch_E lout "Type I";
        mode_name ch_E l1 ch_E l2 ch_O lout "Type I";
        mode_name ch_O l1 ch_E l2 ch_E lout "Type II";
        mode_name ch_O l2 ch_E l1 ch_E lout "Type II";
        mode_name ch_O l1 ch_E l2 ch_O lout "Type II";
        mode_name ch_O l2 ch_E l1 ch_O lout "Type II" ]
  end.

(** [Solver.__init__(config)].  The three index look-ups and the per-beam
    attributes derived from them are read by no other method; what remains of
    them is that they can raise. *)
Definition Solver_init (config : SimulationConfig) : exc Solver :=
  _ <- get_indices config (Some (wavelength1_nm config)) None ;;
  _ <- get_indices config (Some (wavelength2_nm config)) None ;;
  _ <- get_indices config (Some (wavelength_out_nm config)) None ;;
  keys <- plane_config (plane config) ;;
  let '(k_static, k_cos, k_sin) := keys in
  let w :=
    match process_type config with
    | SHG => (0.5, 0.5)
    | SFG => (wavelength_out_nm config / wavelength1_nm config,
              wavelength_out_nm config / wavelength2_nm config)
    end in
  Ok {| cfg := config;
        key_static := k_static; key_cos := k_cos; key_sin := k_sin;
        weight1 := fst w; weight2 := snd w;
        mode_names := build_mode_names config |}.

(** *** delta_n *)

(** The quantities that enter the final sum of [delta_n]: the two weights
    and the three indices. *)
Record terms : Type := mk_terms {
  t_w1 : R; t_n1 : R; t_w2 : R; t_n2 : R; t_nout : R
}.

Definition is_xyz_notation (mode : pystr) : bool :=
  (contains ch_X mode || contains ch_Y mode || contains ch_Z mode)%bool.

Definition extract_xyz_pol (text : pystr) : option N :=
  if contains ch_X text then Some ch_X
  else if contains ch_Y text then Some ch_Y
  else if contains ch_Z text then Some ch_Z
  else None.

(** [xyz_to_key[pol]] *)
Definition xyz_to_key (pol : option N) : exc index_key :=
  match pol with
  | Some c =>
      if N.eqb c ch_X then Ok key_n_x
      else if N.eqb c ch_Y then Ok key_n_y
      else if N.eqb c ch_Z then Ok key_n_z
      else Raise KeyError
  | None => Raise KeyError
  end.

(** The list [input_pols] after the sort on the position. *)
Definition input_pols (input_part : pystr) : list (N * nat) :=
  let o := if contains ch_O input_part
           then [(ch_O, index_of ch_O input_part)] else [] in
  let e := if contains ch_E input_part
           then [(ch_E, index_of ch_E input_part)] else [] in
  match o, e with
  | [po], [pe] => if Nat.ltb (snd pe) (snd po) then [pe; po] else [po; pe]
  | _, _ => o ++ e
  end.

(** [pol1] and [pol2] from [input_pols]; an empty list is an
    [IndexError]. *)
Definition input_pol_pair (input_part : pystr) : exc (N * N) :=
  match input_pols input_part with
  | [] => Raise IndexError
  | [p] => Ok (fst p, fst p)
  | p :: q :: _ => Ok (fst p, fst q)
  end.

Definition output_pol (output_part : pystr) : N :=
  if contains ch_E (nth 0 (split_on ch_lparen output_part) [])
  then ch_E else ch_O.

(** The index of one beam in the ordinary / extraordinary notation. *)
Definition beam_index (s : Solver) (pol : N) (ib : indices)
    (theta : option R) : exc R :=
  if N.eqb pol ch_O then Ok (getitem ib (key_static s))
  else
    match theta with
    | Some t => Ok (ne_func (getitem ib (key_cos s)) (getitem ib (key_sin s)) t)
    | None => Raise TypeError
    end.

Definition delta_n_terms (s : Solver) (mode : pystr)
    (theta wavelength1 wavelength2 wavelength_out temperature_ : option R)
  : exc terms :=
  let wl1 := match wavelength1 with Some w => w
                                  | None => wavelength1_nm (cfg s) end in
  let wl2 := match wavelength2 with Some w => w
                                  | None => wavelength2_nm (cfg s) end in
  let wl_out := match wavelength_out with Some w => w
                                        | None => wavelength_out_nm (cfg s) end in
  let temp := match temperature_ with Some t => t
                                    | None => temperature (cfg s) end in
  indices_w1 <- get_indices (cfg s) (Some wl1) (Some temp) ;;
  indices_w2 <- get_indices (cfg s) (Some wl2) (Some temp) ;;
  indices_out <- get_indices (cfg s) (Some wl_out) (Some temp) ;;
  match split_on ch_arrow mode with
  | [part0; part1] =>
      let input_part := strip part0 in
      let output_part := strip part1 in
      if is_xyz_notation mode then
        let input_beams := split_on ch_plus input_part in
        let pol1 := extract_xyz_pol (nth 0 input_beams []) in
        let pol2 := match input_beams with
                    | _ :: b :: _ => extract_xyz_pol b
                    | _ => pol1
                    end in
        let pol_out := extract_xyz_pol output_part in
        k1 <- xyz_to_key pol1 ;;
        k2 <- xyz_to_key pol2 ;;
        kout <- xyz_to_key pol_out ;;
        Ok (mk_terms (weight1 s) (getitem indices_w1 k1)
                     (weight2 s) (getitem indices_w2 k2)
                     (getitem indices_out kout))
      else
        match findall_nm mode with
        | ws0 :: _ :: _ :: _ =>
            let wl_beam1_str := float_of_digits ws0 in
            let tolerance := 1.0 in
            let '(indices_beam1, indices_beam2, actual_wl1, actual_wl2) :=
              if Rlt_dec (Rabs (wl_beam1_str - wl1)) tolerance
              then (indices_w1, indices_w2, wl1, wl2)
              else (indices_w2, indices_w1, wl2, wl1) in
            pols <- input_pol_pair input_part ;;
            let '(pol1, pol2) := pols in
            let pol_out := output_pol output_part in
            match theta with
            | None =>
                if (N.eqb pol1 ch_E || N.eqb pol2 ch_E || N.eqb pol_out ch_E)%bool
                then Raise ValueError else Ok tt
            | Some _ => Ok tt
            end ;;;
            n1 <- beam_index s pol1 indices_beam1 theta ;;
            n2 <- beam_index s pol2 indices_beam2 theta ;;
            n_out <- beam_index s pol_out indices_out theta ;;
            let '(w1, w2) :=
              match process_type (cfg s) with
              | SHG => (0.5, 0.5)
              | SFG => (wl_out / actual_wl1, wl_out / actual_wl2)
              end in
            Ok (mk_terms w1 n1 w2 n2 n_out)
        | _ => Raise ValueError
        end
  | _ => Raise ValueError
  end.

(** [Solver.delta_n(mode_name, theta, wavelength1, wavelength2,
    wavelength_out, temperature)]; an absent argument is [None]. *)
Definition delta_n (s : Solver) (mode : pystr)
    (theta wavelength1 wavelength2 wavelength_out temperature_ : option R)
  : exc R :=
  t <- delta_n_terms s mode theta wavelength1 wavelength2 wavelength_out
         temperature_ ;;
  Ok (t_w1 t * t_n1 t + t_w2 t * t_n2 t - t_nout t).

(** *** Dictionaries keyed by mode identifiers *)

Definition pystr_eqb (a b : pystr) : bool :=
  if list_eq_dec N.eq_dec a b then true else false.

(** The keys of a dictionary built from a list of keys: a repeated key keeps
    its first position. *)
Fixpoint dict_keys (l : list pystr) : list pystr :=
  match l with
  | [] => []
  | k :: l' => k :: filter (fun k' => negb (pystr_eqb k k')) (dict_keys l')
  end.

Fixpoint lookup {A : Type} (k : pystr) (l : list (pystr * A)) : option A :=
  match l with
  | [] => None
  | (k', v) :: l' => if pystr_eqb k k' then Some v else lookup k l'
  end.

Definition rad2deg (x : R) : R := x * (180 / PI).
Definition deg2rad (x : R) : R := x * (PI / 180).

(** *** criticalangle *)

Section CriticalAngle.

(** [scipy.optimize.fsolve(f, guess, full_output=1)], reduced to what the
    caller reads: [root[0]] and the flag [ier].  It raises what its
    callback raises. *)
Variable fsolve : (R -> exc R) -> R -> exc (R * Z).

Definition robust_solve (equation_func : R -> exc R) (guess : R)
  : exc (option R) :=
  res <- fsolve equation_func guess ;;
  let '(theta_res, ier) := res in
  if Z.eqb ier 1 then
    if Rle_dec 0 theta_res then
      if Rle_dec theta_res (PI / 2) then
        v <- equation_func theta_res ;;
        let residual := Rabs v in
        if Rlt_dec residual 1e-4 then Ok (Some theta_res) else Ok None
      else Ok None
    else Ok None
  else Ok None.

(** [equations_deltan[mode]] *)
Definition equation_of (s : Solver) (mode : pystr) : R -> exc R :=
  fun theta => delta_n s mode (Some theta) None None None None.

(** The result maps each mode to its angle in degrees, [None] being NaN. *)
Definition criticalangle (s : Solver) : exc (list (pystr * option R)) :=
  mapM (fun mode =>
          theta_val <- robust_solve (equation_of s mode) (PI / 4) ;;
          Ok (mode, option_map rad2deg theta_val))
       (dict_keys (mode_names s)).

End CriticalAngle.

(** *** walkoff_angle *)

(** One field of the result string: [format_walkoff(pol, deg, mrad)].  The
    two numbers stand for their four-decimal rendering. *)
Inductive beam_text : Type :=
| ZeroDegrees (pol : N)
| DegMrad (pol : N) (deg mrad : R).

Inductive walkoff_entry : Type :=
| WalkoffNaN
| WalkoffFormatError
| WalkoffText (b1 b2 b_out : beam_text).

Definition format_walkoff (pol : N) (deg mrad : R) : beam_text :=
  if N.eqb pol ch_O then ZeroDegrees pol else DegMrad pol deg mrad.

Definition plane_pair (p : string) (i : indices) : R * R :=
  if String.eqb p "XY" then (n_x i, n_y i)
  else if String.eqb p "XZ" then (n_z i, n_x i)
  else (n_z i, n_y i).

Definition calc_walkoff (s : Solver) (theta_rad : R) (pol : N)
    (wavelength_nm : R) : exc (R * R) :=
  if N.eqb pol ch_O then Ok (0.0, 0.0)
  else
    i <- get_indices (cfg s) (Some wavelength_nm) None ;;
    let '(a, b) := plane_pair (plane (cfg s)) i in
    let tan_theta_normal := (a ^ 2 / b ^ 2) * tan theta_rad in
    let theta_normal_rad := atan tan_theta_normal in
    let rho_rad := theta_rad - theta_normal_rad in
    let rho_deg := rad2deg rho_rad in
    let rho_mrad := rho_rad * 1e3 in
    Ok (rho_deg, rho_mrad).

Definition walkoff_mode (s : Solver) (mode : pystr) (theta_deg : option R)
  : exc walkoff_entry :=
  match theta_deg with
  | None => Ok WalkoffNaN
  | Some deg =>
      let theta_rad := deg2rad deg in
      match split_on ch_arrow mode with
      | [part0; part1] =>
          let input_part := strip part0 in
          let output_part := strip part1 in
          pols <- input_pol_pair input_part ;;
          let '(pol1, pol2) := pols in
          let pol_out := output_pol output_part in
          let wavelength1 := wavelength1_nm (cfg s) in
          let wavelength2 :=
            match process_type (cfg s) with
            | SFG => wavelength2_nm (cfg s)
            | SHG => wavelength1
            end in
          let wavelength_out := wavelength_out_nm (cfg s) in
          r1 <- calc_walkoff s theta_rad pol1 wavelength1 ;;
          r2 <- calc_walkoff s theta_rad pol2 wavelength2 ;;
          ro <- calc_walkoff s theta_rad pol_out wavelength_out ;;
          Ok (WalkoffText (format_walkoff pol1 (fst r1) (snd r1))
                          (format_walkoff pol2 (fst r2) (snd r2))
                          (format_walkoff pol_out (fst ro) (snd ro)))
      | _ => Ok WalkoffFormatError
      end
  end.

(** [Solver.walkoff_angle(theta_critical_dict, phi)]; [phi] is not read. *)
Definition walkoff_angle (s : Solver)
    (theta_critical_dict : list (pystr * option R))
  : exc (list (pystr * walkoff_entry)) :=
  mapM (fun kv => w <- walkoff_mode s (fst kv) (snd kv) ;; Ok (fst kv, w))
       theta_critical_dict.

(** *** d_eff *)

Definition is_pol (c : N) : bool := (N.eqb c ch_O || N.eqb c ch_E)%bool.

Definition pol_letter (c : N) : string :=
  if N.eqb c ch_O then "O" else "E".

(** [get_mode_type]: ['OOE'], ['EEO'], ['OEE'], ['OEO'], ... or [None]. *)
Definition get_mode_type (mode : pystr) : option string :=
  if negb (contains ch_arrow mode) then None
  else
    let parts := split_on ch_arrow mode in
    let input_part := strip (nth 0 parts []) in
    let output_part := strip (nth 1 parts []) in
    let input_pols := filter is_pol input_part in
    let output_pol := find is_pol output_part in
    match input_pols, output_pol with
    | pol1 :: pol2 :: _, Some po =>
        if N.eqb pol1 pol2
        then Some (pol_letter pol1 ++ pol_letter pol2 ++ pol_letter po)%string
        else Some ("OE" ++ pol_letter po)%string
    | _, _ => None
    end.

(** Arithmetic on a float that may be NaN ([None]). *)
Definition nan1 (f : R -> R) (a : option R) : option R :=
  match a with
  | Some x => Some (f x)
  | None => None
  end.

Definition nan2 (f : R -> R -> R) (a b : option R) : option R :=
  match a, b with
  | Some x, Some y => Some (f x y)
  | _, _ => None
  end.

Definition d_eff_value (info : crystal_info) (pl : string)
    (mode_type : string) (theta_rad phi_rad : option R) : option R :=
  let d_tensor := d info in
  if String.eqb (group info) "4bar2m" then
    let d36 := dict_get d_tensor "d36" in
    if String.eqb mode_type "OOE" then
      nan2 (fun t p => d36 * sin t * sin (2 * p)) theta_rad phi_rad
    else if String.eqb mode_type "EEO" then
      nan2 (fun t p => d36 * sin (2 * t) * cos (2 * p)) theta_rad phi_rad
    else if String.eqb mode_type "OEE" then
      nan2 (fun t p => d36 * sin (2 * t) * cos (2 * p)) theta_rad phi_rad
    else if String.eqb mode_type "OEO" then
      nan2 (fun t p => d36 * sin t * sin (2 * p)) theta_rad phi_rad
    else Some 0.0
  else if String.eqb (group info) "3m" then
    let d31 := dict_get d_tensor "d31" in
    let d11 := dict_get d_tensor "d11" in
    let d22 := dict_get d_tensor "d22" in
    let d15 := dict_get d_tensor "d15" in
    if String.eqb mode_type "OOE" then
      nan2 (fun t p => d31 * sin t
                       + (d11 * cos (3 * p) - d22 * sin (3 * p)) * cos t)
           theta_rad phi_rad
    else if String.eqb mode_type "EEO" then
      nan2 (fun t p => d31 * sin t
                       + (d22 * sin (3 * p) - d11 * cos (3 * p)) * cos t)
           theta_rad phi_rad
    else if String.eqb mode_type "OEE" then
      nan2 (fun t p => (d11 * sin (3 * p) + d22 * cos (3 * p)) * cos t ^ 2)
           theta_rad phi_rad
    else if String.eqb mode_type "OEO" then
      nan2 (fun t p => d15 * sin t
                       + (d11 * cos (3 * p) - d22 * sin (3 * p)) * cos t)
           theta_rad phi_rad
    else Some 0.0
  else if String.eqb (group info) "mm2" then
    let d31 := dict_get d_tensor "d31" in
    let d32 := dict_get d_tensor "d32" in
    let d33 := dict_get d_tensor "d33" in
    if String.eqb pl "XY" then
      if String.eqb mode_type "OOE" then
        nan1 (fun p => d31 * cos p ^ 2 + d32 * sin p ^ 2) phi_rad
      else if String.eqb mode_type "EEO" then Some d33
      else Some 0.0
    else if String.eqb pl "YZ" then
      if String.eqb mode_type "OOE" then
        nan1 (fun t => d31 * cos t) theta_rad
      else if (String.eqb mode_type "OEE" || String.eqb mode_type "OEO")%bool
      then nan1 (fun t => d31 * sin t) theta_rad
      else Some 0.0
    else if String.eqb pl "XZ" then
      if String.eqb mode_type "OOE" then
        nan1 (fun t => d32 * cos t) theta_rad
      else if (String.eqb mode_type "OEE" || String.eqb mode_type "OEO")%bool
      then nan1 (fun t => d32 * sin t) theta_rad
      else Some 0.0
    else Some 0.0
  else Some 0.0.

(** The body of the loop of [d_eff] for one mode. *)
Definition d_eff_mode (s : Solver) (info : crystal_info)
    (selected_phi : option R) (mode : pystr) (critical_angle_deg : option R)
  : option R :=
  match get_mode_type mode with
  | None => Some 0.0
  | Some mode_type =>
      let pl := plane (cfg s) in
      let angles :=
        if String.eqb pl "XY" then
          Some (Some (deg2rad 90.0), nan1 deg2rad critical_angle_deg)
        else if String.eqb pl "XZ" then
          Some (nan1 deg2rad critical_angle_deg,
                Some (deg2rad (match selected_phi with
                               | Some p => p
                               | None => 0.0
                               end)))
        else if String.eqb pl "YZ" then
          Some (nan1 deg2rad critical_angle_deg,
                Some (deg2rad (match selected_phi with
                               | Some p => p
                               | None => 90.0
                               end)))
        else None in
      match angles with
      | None => Some 0.0
      | Some (theta_rad, phi_rad) =>
          nan1 Rabs (d_eff_value info pl mode_type theta_rad phi_rad)
      end
  end.

(** [Solver.d_eff(theta_critical_dict, selected_phi)].  An entry of
    [crystal_db] is a record here, so the test [if not crystal_info] never
    succeeds. *)
Definition d_eff (s : Solver) (theta_critical_dict : list (pystr * option R))
    (selected_phi : option R) : exc (list (pystr * option R)) :=
  match assoc (crystal_name (cfg s)) (crystal_db (cfg s)) with
  | None => Raise KeyError
  | Some crystal_info =>
      Ok (map (fun kv =>
                 (fst kv, d_eff_mode s crystal_info selected_phi
                            (fst kv) (snd kv)))
              theta_critical_dict)
  end.

(** *** Acceptance bandwidths *)

(** [np.arange(a, b)] for integers. *)
Definition arange_int (a b : Z) : list Z :=
  map (fun i => (a + Z.of_nat i)%Z) (seq 0 (Z.to_nat (b - a))).

(** [nominal + np.arange(-step, step) * unit], where [unit] is the spacing
    of the samples. *)
Definition scan_axis (nominal : R) (step : Z) (unit : R) : list R :=
  map (fun k => nominal + IZR k * unit) (arange_int (- step) step).

(** [np.sinc] *)
Definition np_sinc (x : R) : R :=
  if Req_dec_T x 0 then 1 else sin (PI * x) / (PI * x).

(** The conversion efficiency of one sample, from its mismatch. *)
Definition efficiency_of (s : Solver) (dn : R) : R :=
  let delta_k := (PI * 2 / wavelength_out_um (cfg s)) * dn in
  np_sinc (delta_k * 1e4 / (2 * PI)) ^ 2.

(** [np.where(eff >= 0.5)[0]] *)
Fixpoint indices_above_half (i : nat) (eff : list R) : list nat :=
  match eff with
  | [] => []
  | e :: eff' =>
      if Rle_dec 0.5 e then i :: indices_above_half (S i) eff'
      else indices_above_half (S i) eff'
  end.

(** The width between the first and the last sample above one half; NaN
    ([None]) when there is none. *)
Definition fwhm (axis eff : list R) : option R :=
  match indices_above_half 0 eff with
  | [] => None
  | lower_index :: rest =>
      let upper_index := last rest lower_index in
      Some (nth upper_index axis 0 - nth lower_index axis 0)
  end.

(** What an acceptance method computes: the scan axis and the efficiency
    curve (the two series of the figure), the width, and the second figure
    derived from the width when the method returns one (the width in degrees
    for the angle, the frequency bandwidth for the wavelength).  A NaN is
    [None]. *)
Record scan : Type := mk_scan {
  scan_axis_of : list R;
  scan_efficiency : list R;
  scan_width : option R;
  scan_secondary : option R
}.

(** [theta_critical_dict[target_mode]].  The dashboard offers the bandwidth
    analysis for the modes whose angle is defined; the dictionary passed to
    the acceptance methods holds those angles, in degrees. *)
Definition getitem_angle (theta_critical_dict : list (pystr * R))
    (target_mode : pystr) : exc R :=
  match lookup target_mode theta_critical_dict with
  | Some deg => Ok deg
  | None => Raise KeyError
  end.

(** [Solver.acceptance_angle(theta_critical_dict, target_mode, step, res)];
    the width is in mrad and, second, in degrees. *)
Definition acceptance_angle (s : Solver)
    (theta_critical_dict : list (pystr * R)) (target_mode : pystr)
    (step : Z) (res : R) : exc scan :=
  deg <- getitem_angle theta_critical_dict target_mode ;;
  let theta_axis := scan_axis (deg2rad deg) step (res * 1e-3) in
  delta_n_array <-
    mapM (fun t => delta_n s target_mode (Some t) None None None None)
         theta_axis ;;
  let efficiency_angle := map (efficiency_of s) delta_n_array in
  Ok (mk_scan theta_axis efficiency_angle
        (nan1 (fun w => w * 1000) (fwhm theta_axis efficiency_angle))
        (nan1 rad2deg (fwhm theta_axis efficiency_angle))).

(** [Solver.acceptance_wavelength(theta_critical_dict, target_mode, step,
    res)] *)
Definition acceptance_wavelength (s : Solver)
    (theta_critical_dict : list (pystr * R)) (target_mode : pystr)
    (step : Z) (res : R) : exc scan :=
  let wavelength1_axis := scan_axis (wavelength1_nm (cfg s)) step res in
  deg <- getitem_angle theta_critical_dict target_mode ;;
  let tem_theta := deg2rad deg in
  delta_n_array <-
    match process_type (cfg s) with
    | SHG =>
        mapM (fun wl => delta_n s target_mode (Some tem_theta)
                          (Some wl) (Some wl) (Some (wl / 2)) None)
             wavelength1_axis
    | SFG =>
        let wavelength_ratio :=
          wavelength2_nm (cfg s) / wavelength1_nm (cfg s) in
        mapM (fun wl1 =>
                let wl2 := wavelength_ratio * wl1 in
                let wl_out := 1 / (1 / wl1 + 1 / wl2) in
                delta_n s target_mode (Some tem_theta)
                  (Some wl1) (Some wl2) (Some wl_out) None)
             wavelength1_axis
    end ;;
  let efficiency_wavelength := map (efficiency_of s) delta_n_array in
  Ok (mk_scan wavelength1_axis efficiency_wavelength
        (fwhm wavelength1_axis efficiency_wavelength)
        (nan1 (fun w => 299792458 / (wavelength1_nm (cfg s) ^ 2) * w)
              (fwhm wavelength1_axis efficiency_wavelength))).

(** [Solver.acceptance_temperature(theta_critical_dict, target_mode, step,
    res)] *)
Definition acceptance_temperature (s : Solver)
    (theta_critical_dict : list (pystr * R)) (target_mode : pystr)
    (step : Z) (res : R) : exc scan :=
  let temperature_axis := scan_axis (temperature (cfg s)) step res in
  deg <- getitem_angle theta_critical_dict target_mode ;;
  let tem_theta := deg2rad deg in
  delta_n_array <-
    mapM (fun temp => delta_n s target_mode (Some tem_theta)
                        None None None (Some temp))
         temperature_axis ;;
  let efficiency_temperature := map (efficiency_of s) delta_n_array in
  Ok (mk_scan temperature_axis efficiency_temperature
        (fwhm temperature_axis efficiency_temperature) None).

(** *** temperature_phase_matching *)

(** [np.arange(start, stop, step)] on floats: [ceil((stop - start) / step)]
    samples [start + i * step]; numpy refuses a zero step. *)
Definition arange (start stop step : R) : exc (list R) :=
  if Req_dec_T step 0 then Raise ValueError
  else
    let n := Z.to_nat (Zceil ((stop - start) / step)) in
    Ok (map (fun i => start + INR i * step) (seq 0 n)).

(** The loop over the adjacent pairs of samples. *)
Fixpoint find_matching (temperature_axis phase_mismatch : list R) : list R :=
  match temperature_axis, phase_mismatch with
  | t0 :: ((t1 :: _) as ts), p0 :: ((p1 :: _) as ps) =>
      (if Rle_dec (p0 * p1) 0 then
         if Rgt_dec (Rabs (p1 - p0)) 1e-10
         then [t0 - p0 * (t1 - t0) / (p1 - p0)]
         else []
       else [])
      ++ find_matching ts ps
  | _, _ => []
  end.

(** [a.min()] and [a.max()]: an empty array is a [ValueError]. *)
Definition array_min (a : list R) : exc R :=
  match a with
  | [] => Raise ValueError
  | x :: a' => Ok (fold_left Rmin a' x)
  end.

Definition array_max (a : list R) : exc R :=
  match a with
  | [] => Raise ValueError
  | x :: a' => Ok (fold_left Rmax a' x)
  end.

(** [np.argmin(a)]: the first position of the least value. *)
Fixpoint argmin_from (best_i : nat) (best : R) (i : nat) (a : list R) : nat :=
  match a with
  | [] => best_i
  | x :: a' =>
      if Rlt_dec x best then argmin_from i x (S i) a'
      else argmin_from best_i best (S i) a'
  end.

Definition argmin (a : list R) : nat :=
  match a with
  | [] => O
  | x :: a' => argmin_from O x 1 a'
  end.

(** The entries of the result dictionary that are computed from the scan. *)
Record temperature_result : Type := mk_temperature_result {
  matching_temperatures : list R;
  temperature_axis_of : list R;
  phase_mismatch_of : list R;
  min_phase_mismatch : R;
  max_phase_mismatch : R;
  closest_temp : R;
  closest_pm : R
}.

(** [Solver.temperature_phase_matching(target_mode, (temp_min, temp_max),
    temp_step, fixed_axis)]; [fixed_axis] only labels the figure. *)
Definition temperature_phase_matching (s : Solver) (target_mode : pystr)
    (temp_min temp_max temp_step : R) : exc temperature_result :=
  temperature_axis <- arange temp_min (temp_max + temp_step) temp_step ;;
  phase_mismatch <-
    mapM (fun temp => delta_n s target_mode None None None None (Some temp))
         temperature_axis ;;
  let matching := find_matching temperature_axis phase_mismatch in
  lo <- array_min phase_mismatch ;;
  hi <- array_max phase_mismatch ;;
  let closest := argmin (map Rabs phase_mismatch) in
  Ok (mk_temperature_result matching temperature_axis phase_mismatch lo hi
        (nth closest temperature_axis 0) (nth closest phase_mismatch 0)).

(** *** Conditions on a mode identifier *)

(** The parts of a mode identifier that [delta_n] reads. *)
Definition arrow_parts (mode : pystr) : list pystr := split_on ch_arrow mode.

Definition input_part_of (mode : pystr) : pystr :=
  strip (nth 0 (arrow_parts mode) []).

Definition output_part_of (mode : pystr) : pystr :=
  strip (nth 1 (arrow_parts mode) []).

Definition is_some {A : Type} (o : option A) : bool :=
  match o with
  | Some _ => true
  | None => false
  end.

(** An axis label is missing from the first input beam, from the second
    input beam (when the input part has a [+]) or from the output part. *)
Definition xyz_label_missing (mode : pystr) : bool :=
  let input_beams := split_on ch_plus (input_part_of mode) in
  let pol1 := extract_xyz_pol (nth 0 input_beams []) in
  let pol2 := match input_beams with
              | _ :: b :: _ => extract_xyz_pol b
              | _ => pol1
              end in
  negb (is_some pol1 && is_some pol2
        && is_some (extract_xyz_pol (output_part_of mode))).

(** The input part carries neither of the two polarisation labels. *)
Definition input_label_missing (mode : pystr) : bool :=
  negb (contains ch_O (input_part_of mode)
        || contains ch_E (input_part_of mode)).

(** One of the three beams is labelled extraordinary. *)
Definition has_E_beam (mode : pystr) : bool :=
  match input_pol_pair (input_part_of mode) with
  | Ok (pol1, pol2) =>
      N.eqb pol1 ch_E || N.eqb pol2 ch_E
      || N.eqb (output_pol (output_part_of mode)) ch_E
  | Raise _ => false
  end.

(** The denominator under the root of [ne_func]. *)
Definition ne_denom (n_cos n_sin theta : R) : R :=
  n_cos ^ 2 * cos theta ^ 2 + n_sin ^ 2 * sin theta ^ 2.

(** *** Generated mode identifiers *)

(** Shape of a formatted wavelength: an optional sign, then digits. *)
Definition label_shape (l : pystr) : Prop :=
  exists sign ds, l = sign ++ ds /\ (sign = [] \/ sign = [ch_minus])
                  /\ ds <> [] /\ Forall (fun c => is_digit c = true) ds.

(** The two polarisation labels and the two matching-type tags of
    [build_mode_names]. *)
Definition is_pol_label (p : N) : Prop := p = ch_O \/ p = ch_E.
Definition is_type_tag (ty : string) : Prop := ty = "Type I"%string \/ ty = "Type II"%string.

(** The value of an optional argument of [delta_n]: the override when it
    is present, the configuration's value otherwise. *)
Definition in_effect (override : option R) (configured : R) : R :=
  match override with
  | Some w => w
  | None => configured
  end.

(** *** Example inputs *)

Definition default_source : string := "默认".

(** KDP, second harmonic of 1064 nm at 20 C in the XZ plane. *)
Definition kdp_cfg : SimulationConfig :=
  SimulationConfig_init "KDP" 1064 20 "XZ" SHG None default_source.

Definition kdp_solver : Solver :=
  {| cfg := kdp_cfg;
     key_static := key_n_y; key_cos := key_n_z; key_sin := key_n_x;
     weight1 := 0.5; weight2 := 0.5;
     mode_names :=
       [ mode_name ch_O (lit "1064") ch_O (lit "1064") ch_E (lit "532") "Type I";
         mode_name ch_E (lit "1064") ch_E (lit "1064") ch_O (lit "532") "Type I";
         mode_name ch_O (lit "1064") ch_E (lit "1064") ch_E (lit "532") "Type II";
         mode_name ch_O (lit "1064") ch_E (lit "1064") ch_O (lit "532") "Type II" ] |}.

(** A root-finder that gives back its starting point and reports that it
    did not converge. *)
Definition fsolve_no_convergence : (R -> exc R) -> R -> exc (R * Z) :=
  fun _ guess => Ok (guess, 5%Z).

(** LBO, sum of 1064 nm and 532 nm at 20 C in the XY plane. *)
Definition lbo_sfg_cfg : SimulationConfig :=
  SimulationConfig_init "LBO" 1064 20 "XY" SFG (Some 532) default_source.

Definition lbo_sfg_solver : Solver :=
  {| cfg := lbo_sfg_cfg;
     key_static := key_n_z; key_cos := key_n_x; key_sin := key_n_y;
     weight1 := 1 / (1 / 1064 + 1 / 532) / 1064;
     weight2 := 1 / (1 / 1064 + 1 / 532) / 532;
     mode_names :=
       [ mode_name ch_O (lit "1064") ch_O (lit "532") ch_E (lit "355") "Type I";
         mode_name ch_E (lit "1064") ch_E (lit "532") ch_O (lit "355") "Type I";
         mode_name ch_O (lit "1064") ch_E (lit "532") ch_E (lit "355") "Type II";
         mode_name ch_O (lit "532") ch_E (lit "1064") ch_E (lit "355") "Type II";
         mode_name ch_O (lit "1064") ch_E (lit "532") ch_O (lit "355") "Type II";
         mode_name ch_O (lit "532") ch_E (lit "1064") ch_O (lit "355") "Type II" ] |}.

(** An axis-locked mode of the temperature-matching page:
    X (1064nm) + X (532nm) -> Y (355nm) (Type I). *)
Definition mode_xxy : pystr :=
  mode_name ch_X (lit "1064") ch_X (lit "532") ch_Y (lit "355") "Type I".



(** BBO, sum of 1064 nm and 532 nm at 20 C in the XZ plane, and the fourth
    mode of its list, whose first beam is the one at 532 nm:
    O (532nm) + E (1064nm) -> E (355nm) (Type II). *)
Definition bbo_sfg_cfg : SimulationConfig :=
  SimulationConfig_init "BBO" 1064 20 "XZ" SFG (Some 532) default_source.

Definition bbo_sfg_solver : Solver :=
  {| cfg := bbo_sfg_cfg;
     key_static := key_n_y; key_cos := key_n_z; key_sin := key_n_x;
     weight1 := 1 / (1 / 1064 + 1 / 532) / 1064;
     weight2 := 1 / (1 / 1064 + 1 / 532) / 532;
     mode_names :=
       [ mode_name ch_O (lit "1064") ch_O (lit "532") ch_E (lit "355") "Type I";
         mode_name ch_E (lit "1064") ch_E (lit "532") ch_O (lit "355") "Type I";
         mode_name ch_O (lit "1064") ch_E (lit "532") ch_E (lit "355") "Type II";
         mode_name ch_O (lit "532") ch_E (lit "1064") ch_E (lit "355") "Type II";
         mode_name ch_O (lit "1064") ch_E (lit "532") ch_O (lit "355") "Type II";
         mode_name ch_O (lit "532") ch_E (lit "1064") ch_O (lit "355") "Type II" ] |}.

Definition mode_o532_e1064 : pystr :=
  mode_name ch_O (lit "532") ch_E (lit "1064") ch_E (lit "355") "Type II".

(** The walk-off of an extraordinary beam in the words of the
    specification: [rho = theta - atan((a^2 / b^2) * tan theta)]. *)
Definition walkoff_formula (a b theta : R) : R :=
  theta - atan (a ^ 2 / b ^ 2 * tan theta).

(** What the walk-off calculator is to report for a beam of label [pol],
    from the indices [i] at the wavelength of the beam: zero for an ordinary
    beam, the formula in degrees and in milliradians for an extraordinary
    one, with [a] and [b] picked by the plane. *)
Definition reported_beam (s : Solver) (deg : R) (pol : N) (i : indices)
  : beam_text :=
  if N.eqb pol ch_O then ZeroDegrees pol
  else
    let a := fst (plane_pair (plane (cfg s)) i) in
    let b := snd (plane_pair (plane (cfg s)) i) in
    DegMrad pol (rad2deg (walkoff_formula a b (deg2rad deg)))
                (walkoff_formula a b (deg2rad deg) * 1e3).

(** The symmetry classes, matching types and planes for which [d_eff] has a
    formula. *)
Definition supported_group (g : string) : bool :=
  (String.eqb g "4bar2m" || String.eqb g "3m" || String.eqb g "mm2")%bool.

Definition recognised_type (ty : string) : bool :=
  (String.eqb ty "OOE" || String.eqb ty "EEO" || String.eqb ty "OEE"
   || String.eqb ty "OEO")%bool.

Definition known_plane (pl : string) : bool :=
  (String.eqb pl "XY" || String.eqb pl "XZ" || String.eqb pl "YZ")%bool.

(** The type / plane combinations of the class mm2 without a formula. *)
Definition mm2_forbidden (pl ty : string) : bool :=
  (String.eqb pl "XY" && (String.eqb ty "OEE" || String.eqb ty "OEO")
   || (String.eqb pl "YZ" || String.eqb pl "XZ") && String.eqb ty "EEO")%bool.

(** The first mode of the KDP list: O (1064nm) + O (1064nm) -> E (532nm). *)
Definition mode_ooe_1064 : pystr :=
  mode_name ch_O (lit "1064") ch_O (lit "1064") ch_E (lit "532") "Type I".

(** The samples of a scan axis: [2 * step] of them, the one of index [i]
    at [nominal + (i - step) * unit]. *)
Definition axis_samples (axis : list R) (nominal : R) (step : Z) (unit : R)
  : Prop :=
  List.length axis = Z.to_nat (2 * step)
  /\ forall i, (i < Z.to_nat (2 * step))%nat ->
       nth i axis 0 = nominal + (IZR (Z.of_nat i) - IZR step) * unit.

(** An axis arranged symmetrically around [centre]: the mirror image of each
    sample is a sample. *)
Definition symmetric_about (centre : R) (axis : list R) : Prop :=
  forall x, In x axis -> In (2 * centre - x) axis.

(** The invariant of the configuration: the second and the output wavelength
    are derived from the first (SHG) or from the two inputs (SFG). *)
Definition wavelengths_derived (c : SimulationConfig) : Prop :=
  match process_type c with
  | SHG => wavelength2_nm c = wavelength1_nm c
           /\ wavelength_out_nm c = wavelength1_nm c / 2
  | SFG => wavelength1_nm c <> 0
           /\ wavelength_out_nm c
              = 1 / (1 / wavelength1_nm c + 1 / wavelength2_nm c)
  end.

(** LBO with the second set of dispersion formulas, second harmonic of
    1064 nm at temperature [t0], and the axis-locked mode
    Z (1064nm) + Z (1064nm) -> Y (532nm) (Type I) of the temperature-matching
    page.  The mismatch of this mode at temperature [T] is
    [lbo_offset + 5.0656e-6 * (T - 20)]; it vanishes near 240.5 C. *)
Definition lbo_ncpm_cfg (t0 : R) : SimulationConfig :=
  SimulationConfig_init "LBO" 1064 t0 "XZ" SHG None fujing.

Definition lbo_ncpm_solver (t0 : R) : Solver :=
  {| cfg := lbo_ncpm_cfg t0;
     key_static := key_n_y; key_cos := key_n_z; key_sin := key_n_x;
     weight1 := 0.5; weight2 := 0.5;
     mode_names :=
       [ mode_name ch_O (lit "1064") ch_O (lit "1064") ch_E (lit "532") "Type I";
         mode_name ch_E (lit "1064") ch_E (lit "1064") ch_O (lit "532") "Type I";
         mode_name ch_O (lit "1064") ch_E (lit "1064") ch_E (lit "532") "Type II";
         mode_name ch_O (lit "1064") ch_E (lit "1064") ch_O (lit "532") "Type II" ] |}.

Definition mode_zzy : pystr :=
  mode_name ch_Z (lit "1064") ch_Z (lit "1064") ch_Y (lit "532") "Type I".

Definition lbo_offset : R :=
  sqrt (2.586179 + 0.013099 / ((1064 / 1000.0) ^ 2 - 0.011893)
        - 0.017968 * (1064 / 1000.0) ^ 2 - 2.26e-4 * (1064 / 1000.0) ^ 4)
  - sqrt (2.539070 + 0.012711 / ((1064 / 2 / 1000.0) ^ 2 - 0.012523)
          - 0.018540 * (1064 / 2 / 1000.0) ^ 2
          + 2.00e-4 * (1064 / 2 / 1000.0) ^ 4).

(** The temperature at which that mismatch vanishes. *)
Definition lbo_matching_temperature : R := 20 - lbo_offset / 5.0656e-6.

(** The arguments of [delta_n] at one sample of the wavelength scan. *)
Definition wavelength_sample (s : Solver) (wl : R) : R * R * R :=
  match process_type (cfg s) with
  | SHG => (wl, wl, wl / 2)
  | SFG =>
      let wl2 := wavelength2_nm (cfg s) / wavelength1_nm (cfg s) * wl in
      (wl, wl2, 1 / (1 / wl + 1 / wl2))
  end.

(** The three acceptance methods, with the value around which each builds
    its axis (given the critical angle [deg] of the mode, in degrees) and the
    spacing of its samples (given [res]). *)
Definition acceptance_method : Type :=
  Solver -> list (pystr * R) -> pystr -> Z -> R -> exc scan.

Definition acceptance_variants (s : Solver) (deg res : R)
  : list (acceptance_method * R * R) :=
  [ (acceptance_angle, deg2rad deg, res * 1e-3);
    (acceptance_wavelength, wavelength1_nm (cfg s), res);
    (acceptance_temperature, temperature (cfg s), res) ].

(** The matching temperatures in the words of the specification: one
    linearly interpolated temperature for the adjacent pair of samples
    [i], [i + 1] when their mismatch values change sign (a product that is
    negative or zero); the program reports it when, moreover, the two values
    differ by more than 1e-10. *)
Definition sign_change (p0 p1 : R) : Prop := p0 * p1 <= 0.

Definition interpolate (t0 t1 p0 p1 : R) : R :=
  t0 - p0 * (t1 - t0) / (p1 - p0).

Definition pair_root (temperature_axis phase_mismatch : list R) (i : nat)
  : list R :=
  let p0 := nth i phase_mismatch 0 in
  let p1 := nth (S i) phase_mismatch 0 in
  if Rle_dec (p0 * p1) 0 then
    if Rgt_dec (Rabs (p1 - p0)) 1e-10
    then [interpolate (nth i temperature_axis 0) (nth (S i) temperature_axis 0)
            p0 p1]
    else []
  else [].

Definition bracket_roots (temperature_axis phase_mismatch : list R) : list R :=
  flat_map (pair_root temperature_axis phase_mismatch)
           (seq 0 (List.length phase_mismatch - 1)).

(** The mismatch of the mode [mode_zzy] in LBO at temperature [T]. *)
Definition lbo_mismatch_at (T : R) : R := lbo_offset + 5.0656e-6 * (T - 20).


(* ================================================================== *)
(** ** launcher.py : the identifiers of the temperature-matching page *)

(** The list [all_modes_for_axis] that the dashboard builds for the
    propagation axis chosen in the side bar and hands, one identifier after
    the other, to [temperature_phase_matching].  [wavelength2_nm] is read for
    SFG only, where it is a number. *)
Definition all_modes_for_axis (process_type_code : process)
    (fixed_axis_sidebar : string) (wavelength_nm wavelength2_nm : R)
  : list pystr :=
  match process_type_code with
  | SHG =>
      let lw := format_0f wavelength_nm in
      let l2w := format_0f (wavelength_nm / 2) in
      if String.eqb fixed_axis_sidebar "X" then
        [ mode_name ch_Y lw ch_Y lw ch_Z l2w "Type I";
          mode_name ch_Z lw ch_Z lw ch_Y l2w "Type I";
          mode_name ch_Y lw ch_Z lw ch_Z l2w "Type II";
          mode_name ch_Y lw ch_Z lw ch_Y l2w "Type II" ]
      else if String.eqb fixed_axis_sidebar "Y" then
        [ mode_name ch_X lw ch_X lw ch_Z l2w "Type I";
          mode_name ch_Z lw ch_Z lw ch_X l2w "Type I";
          mode_name ch_X lw ch_Z lw ch_Z l2w "Type II";
          mode_name ch_X lw ch_Z lw ch_X l2w "Type II" ]
      else
        [ mode_name ch_X lw ch_X lw ch_Y l2w "Type I";
          mode_name ch_Y lw ch_Y lw ch_X l2w "Type I";
          mode_name ch_X lw ch_Y lw ch_Y l2w "Type II";
          mode_name ch_X lw ch_Y lw ch_X l2w "Type II" ]
  | SFG =>
      let l1 := format_0f wavelength_nm in
      let l2 := format_0f wavelength2_nm in
      let lout := format_0f (1 / (1 / wavelength_nm + 1 / wavelength2_nm)) in
      if String.eqb fixed_axis_sidebar "X" then
        [ mode_name ch_Y l1 ch_Y l2 ch_Z lout "Type I";
          mode_name ch_Z l1 ch_Z l2 ch_Y lout "Type I";
          mode_name ch_Y l1 ch_Z l2 ch_Z lout "Type II";
          mode_name ch_Z l1 ch_Y l2 ch_Z lout "Type II";
          mode_name ch_Y l1 ch_Z l2 ch_Y lout "Type II";
          mode_name ch_Z l1 ch_Y l2 ch_Y lout "Type II" ]
      else if String.eqb fixed_axis_sidebar "Y" then
        [ mode_name ch_X l1 ch_X l2 ch_Z lout "Type I";
          mode_name ch_Z l1 ch_Z l2 ch_X lout "Type I";
          mode_name ch_X l1 ch_Z l2 ch_Z lout "Type II";
          mode_name ch_Z l1 ch_X l2 ch_Z lout "Type II";
          mode_name ch_X l1 ch_Z l2 ch_X lout "Type II";
          mode_name ch_Z l1 ch_X l2 ch_X lout "Type II" ]
      else
        [ mode_name ch_X l1 ch_X l2 ch_Y lout "Type I";
          mode_name ch_Y l1 ch_Y l2 ch_X lout "Type I";
          mode_name ch_X l1 ch_Y l2 ch_Y lout "Type II";
          mode_name ch_Y l1 ch_X l2 ch_Y lout "Type II";
          mode_name ch_X l1 ch_Y l2 ch_X lout "Type II";
          mode_name ch_Y l1 ch_X l2 ch_X lout "Type II" ]
  end.

(** The label of a propagation axis. *)
Definition axis_label (fixed_axis : string) : N :=
  if String.eqb fixed_axis "X" then ch_X
  else if String.eqb fixed_axis "Y" then ch_Y
  else ch_Z.
(* ================================================================== *)
(** * Properties *)

(** ** The effective-index mixer *)

Section Mixer.

Variables n_cos n_sin : R.
Hypothesis n_cos_pos : 0 < n_cos.
Hypothesis n_sin_pos : 0 < n_sin.

Local Abbreviation denom := (ne_denom n_cos n_sin).

Lemma denom_alt theta :
  denom theta = n_sin ^ 2 + (n_cos ^ 2 - n_sin ^ 2) * cos theta ^ 2.
Proof.
  unfold ne_denom.
  pose proof (sin2_cos2 theta) as H. unfold Rsqr in H.
  replace (sin theta ^ 2) with (1 - cos theta ^ 2) by (simpl; lra).
  ring.
Qed.

Lemma denom_pos theta : 0 < denom theta.
Proof.
  unfold ne_denom.
  pose proof (sin2_cos2 theta) as H. unfold Rsqr in H.
  assert (0 <= cos theta ^ 2) by (apply pow2_ge_0).
  assert (0 <= sin theta ^ 2) by (apply pow2_ge_0).
  assert (0 < n_cos ^ 2) by (apply pow_lt; assumption).
  assert (0 < n_sin ^ 2) by (apply pow_lt; assumption).
  assert (cos theta ^ 2 + sin theta ^ 2 = 1) by (simpl; lra).
  set (c := cos theta ^ 2) in *. set (z := sin theta ^ 2) in *.
  assert (0 <= n_cos ^ 2 * c) by (apply Rmult_le_pos; lra).
  assert (0 <= n_sin ^ 2 * z) by (apply Rmult_le_pos; lra).
  destruct (Rle_dec (1 / 2) c).
  - assert (0 < n_cos ^ 2 * c) by (apply Rmult_lt_0_compat; lra). lra.
  - assert (0 < n_sin ^ 2 * z) by (apply Rmult_lt_0_compat; lra). lra.
Qed.

Lemma ne_func_at_0 : ne_func n_cos n_sin 0 = n_sin.
Proof.
  unfold ne_func. rewrite cos_0, sin_0.
  replace (n_cos ^ 2 * n_sin ^ 2 / (n_cos ^ 2 * 1 ^ 2 + n_sin ^ 2 * 0 ^ 2))
    with (n_sin ^ 2).
  - apply sqrt_pow2; lra.
  - field. lra.
Qed.

Lemma ne_func_at_PI2 : ne_func n_cos n_sin (PI / 2) = n_cos.
Proof.
  unfold ne_func. rewrite cos_PI2, sin_PI2.
  replace (n_cos ^ 2 * n_sin ^ 2 / (n_cos ^ 2 * 0 ^ 2 + n_sin ^ 2 * 1 ^ 2))
    with (n_cos ^ 2).
  - apply sqrt_pow2; lra.
  - field. lra.
Qed.

Lemma cos_sq_antitone x y :
  0 <= x -> x <= y -> y <= PI / 2 -> cos y ^ 2 <= cos x ^ 2.
Proof.
  intros Hx Hxy Hy.
  pose proof PI_RGT_0 as HPI.
  assert (Hle : cos y <= cos x) by (apply cos_decr_1; lra).
  assert (Hy0 : 0 <= cos y) by (apply cos_ge_0; lra).
  apply pow_incr. lra.
Qed.

(** A larger denominator gives a smaller index. *)
Lemma ne_func_denom_le x y :
  denom y <= denom x -> ne_func n_cos n_sin x <= ne_func n_cos n_sin y.
Proof.
  intros Hd. unfold ne_func. fold (denom x). fold (denom y).
  apply sqrt_le_1_alt.
  pose proof (denom_pos x) as Hx. pose proof (denom_pos y) as Hy.
  assert (0 < n_cos ^ 2 * n_sin ^ 2).
  { apply Rmult_lt_0_compat; apply pow_lt; assumption. }
  unfold Rdiv. apply Rmult_le_compat_l; [lra|].
  apply Rinv_le_contravar; assumption.
Qed.

Lemma ne_func_increasing x y :
  n_sin <= n_cos -> 0 <= x -> x <= y -> y <= PI / 2 ->
  ne_func n_cos n_sin x <= ne_func n_cos n_sin y.
Proof.
  intros Hmm Hx Hxy Hy. apply ne_func_denom_le.
  rewrite !denom_alt.
  pose proof (cos_sq_antitone x y Hx Hxy Hy).
  assert (0 <= n_cos ^ 2 - n_sin ^ 2) by nra.
  nra.
Qed.

Lemma ne_func_decreasing x y :
  n_cos <= n_sin -> 0 <= x -> x <= y -> y <= PI / 2 ->
  ne_func n_cos n_sin y <= ne_func n_cos n_sin x.
Proof.
  intros Hmm Hx Hxy Hy. apply ne_func_denom_le.
  rewrite !denom_alt.
  pose proof (cos_sq_antitone x y Hx Hxy Hy).
  assert (n_cos ^ 2 - n_sin ^ 2 <= 0) by nra.
  nra.
Qed.

End Mixer.

(** C2 (as amended).  For principal indices [major > 1] (the first argument
    of [ne_func]) and [minor > 1] (the second), the mixer takes the value
    [minor] at angle 0 and [major] at angle pi/2, and is monotonic on
    [0, pi/2]: non-decreasing when [minor <= major], non-increasing when
    [major <= minor]. *)
Theorem ne_func_endpoints_monotone (major minor : R) :
  major > 1 -> minor > 1 ->
  ne_func major minor 0 = minor
  /\ ne_func major minor (PI / 2) = major
  /\ (forall x y, 0 <= x -> x <= y -> y <= PI / 2 ->
        (minor <= major -> ne_func major minor x <= ne_func major minor y)
        /\ (major <= minor -> ne_func major minor y <= ne_func major minor x)).
Proof.
  intros Hmaj Hmin.
  assert (0 < major) by lra. assert (0 < minor) by lra.
  split; [apply ne_func_at_0; assumption|].
  split; [apply ne_func_at_PI2; assumption|].
  intros x y Hx Hxy Hy. split; intro Hord.
  - apply ne_func_increasing; assumption.
  - apply ne_func_decreasing; assumption.
Qed.

Lemma ne_func_endpoints_monotone_witness :
  ne_func 2 3 0 = 3
  /\ ne_func 2 3 (PI / 2) = 2
  /\ (forall x y, 0 <= x -> x <= y -> y <= PI / 2 ->
        (3 <= 2 -> ne_func 2 3 x <= ne_func 2 3 y)
        /\ (2 <= 3 -> ne_func 2 3 y <= ne_func 2 3 x)).
Proof.
  apply (ne_func_endpoints_monotone 2 3); lra.
Defined.

(** C2, as stated, fails: with [major = 2] and [minor = 3] the mixer is 3 at
    angle 0, not [major], and 2 at pi/2, not [minor]. *)
Lemma ne_func_at_0_is_not_major :
  2 > 1 /\ 3 > 1
  /\ ne_func 2 3 0 <> 2
  /\ ne_func 2 3 (PI / 2) <> 3.
Proof.
  rewrite ne_func_at_0, ne_func_at_PI2 by lra.
  repeat split; lra.
Qed.

(** ** The phase-mismatch evaluator *)

Lemma get_indices_known (c : SimulationConfig) (w t : option R) :
  known_crystal (crystal_name c) = true ->
  exists i, get_indices c w t = Ok i.
Proof.
  unfold known_crystal, get_indices, _get_indices_default.
  intros H.
  destruct (String.eqb (crystal_name c) "CLBO").
  { destruct (String.eqb (sellmeier_source c) fujing); eexists; reflexivity. }
  destruct (String.eqb (crystal_name c) "LBO").
  { destruct (String.eqb (sellmeier_source c) fujing); eexists; reflexivity. }
  destruct (String.eqb (crystal_name c) "BBO"); [eexists; reflexivity|].
  destruct (String.eqb (crystal_name c) "KTP"); [eexists; reflexivity|].
  destruct (String.eqb (crystal_name c) "KDP"); [eexists; reflexivity|].
  destruct (String.eqb (crystal_name c) "DKDP"); [eexists; reflexivity|].
  discriminate H.
Qed.

Lemma get_indices_unknown (c : SimulationConfig) (w t : option R) :
  known_crystal (crystal_name c) = false ->
  get_indices c w t = Raise UnboundLocalError.
Proof.
  unfold known_crystal, get_indices, _get_indices_default.
  intros H.
  destruct (String.eqb (crystal_name c) "CLBO"); [discriminate|].
  destruct (String.eqb (crystal_name c) "LBO"); [discriminate|].
  destruct (String.eqb (crystal_name c) "BBO"); [discriminate|].
  destruct (String.eqb (crystal_name c) "KTP"); [discriminate|].
  destruct (String.eqb (crystal_name c) "KDP"); [discriminate|].
  destruct (String.eqb (crystal_name c) "DKDP"); [discriminate|].
  reflexivity.
Qed.

Lemma xyz_to_key_extract (text : pystr) (c : N) :
  extract_xyz_pol text = Some c -> exists k, xyz_to_key (Some c) = Ok k.
Proof.
  unfold extract_xyz_pol.
  destruct (contains ch_X text); [intros [= <-]; eexists; reflexivity|].
  destruct (contains ch_Y text); [intros [= <-]; eexists; reflexivity|].
  destruct (contains ch_Z text); [intros [= <-]; eexists; reflexivity|].
  discriminate.
Qed.

Lemma input_pols_labels (ip : pystr) :
  Forall (fun p => fst p = ch_O \/ fst p = ch_E) (input_pols ip).
Proof.
  unfold input_pols.
  destruct (contains ch_O ip), (contains ch_E ip); simpl;
    try destruct (Nat.ltb _ _);
    repeat apply Forall_cons; try apply Forall_nil; simpl; auto.
Qed.

Lemma input_pol_pair_raises (ip : pystr) :
  (exists e, input_pol_pair ip = Raise e)
  <-> (contains ch_O ip || contains ch_E ip)%bool = false.
Proof.
  unfold input_pol_pair, input_pols.
  destruct (contains ch_O ip), (contains ch_E ip); simpl;
    try destruct (Nat.ltb _ _); simpl; split;
    try (intros [e He]; discriminate);
    try discriminate; try reflexivity.
  intros _. eexists; reflexivity.
Qed.

Lemma input_pol_pair_labels (ip : pystr) (p1 p2 : N) :
  input_pol_pair ip = Ok (p1, p2) ->
  (p1 = ch_O \/ p1 = ch_E) /\ (p2 = ch_O \/ p2 = ch_E).
Proof.
  unfold input_pol_pair. pose proof (input_pols_labels ip) as H.
  destruct (input_pols ip) as [|a [|b l]]; [discriminate| |].
  - intros [= <- <-]. inversion H; subst. tauto.
  - intros [= <- <-]. inversion H as [|? ? Ha Hl]; subst.
    inversion Hl; subst. tauto.
Qed.

Lemma output_pol_label (op : pystr) :
  output_pol op = ch_O \/ output_pol op = ch_E.
Proof. unfold output_pol. destruct (contains ch_E _); auto. Qed.

Lemma beam_index_returns (s : Solver) (pol : N) (ib : indices) (t : R) :
  exists v, beam_index s pol ib (Some t) = Ok v.
Proof. unfold beam_index. destruct (N.eqb pol ch_O); eexists; reflexivity. Qed.

Lemma beam_index_ordinary (s : Solver) (ib : indices) (theta : option R) :
  beam_index s ch_O ib theta = Ok (getitem ib (key_static s)).
Proof. reflexivity. Qed.

Lemma delta_n_raises_terms s mode th w1 w2 wo T :
  raises (delta_n s mode th w1 w2 wo T) <-> raises (delta_n_terms s mode th w1 w2 wo T).
Proof.
  unfold delta_n, raises. destruct (delta_n_terms _ _ _ _ _ _ _); simpl; split; intros [e' H]; try discriminate; eauto.
Qed.

Lemma ch_O_neq_E : N.eqb ch_O ch_E = false.
Proof. reflexivity. Qed.

Lemma xyz_key_cases (text : pystr) :
  (is_some (extract_xyz_pol text) = false
   /\ xyz_to_key (extract_xyz_pol text) = Raise KeyError)
  \/ (is_some (extract_xyz_pol text) = true
      /\ exists k, xyz_to_key (extract_xyz_pol text) = Ok k).
Proof.
  destruct (extract_xyz_pol text) as [c|] eqn:E.
  - right. split; [reflexivity|]. eapply xyz_to_key_extract; eassumption.
  - left. split; reflexivity.
Qed.

(** When [delta_n] raises, for a configuration whose crystal has dispersion
    formulas. *)
Lemma delta_n_raises_characterised s mode theta w1 w2 wo T :
  known_crystal (crystal_name (cfg s)) = true ->
  (raises (delta_n s mode theta w1 w2 wo T) <->
     List.length (arrow_parts mode) <> 2%nat
     \/ (is_xyz_notation mode = true /\ xyz_label_missing mode = true)
     \/ (is_xyz_notation mode = false /\ (List.length (findall_nm mode) < 3)%nat)
     \/ (is_xyz_notation mode = false /\ input_label_missing mode = true)
     \/ (is_xyz_notation mode = false /\ theta = None /\ has_E_beam mode = true)).
Proof.
  intros Hk. rewrite delta_n_raises_terms.
  unfold delta_n_terms.
  destruct (get_indices_known (cfg s) (Some match w1 with Some w => w | None => wavelength1_nm (cfg s) end)
     (Some match T with Some t => t | None => temperature (cfg s) end) Hk) as [i1 ->].
  destruct (get_indices_known (cfg s) (Some match w2 with Some w => w | None => wavelength2_nm (cfg s) end)
     (Some match T with Some t => t | None => temperature (cfg s) end) Hk) as [i2 ->].
  destruct (get_indices_known (cfg s) (Some match wo with Some w => w | None => wavelength_out_nm (cfg s) end)
     (Some match T with Some t => t | None => temperature (cfg s) end) Hk) as [io ->].
  cbn [bind].
  unfold xyz_label_missing, input_label_missing, has_E_beam, input_part_of, output_part_of, arrow_parts.
  destruct (split_on ch_arrow mode) as [|p0 [|p1 [|p2 ps]]]; cbn [nth List.length].
  1,2,4: split; [intros _; left; lia | intros _; eexists; reflexivity].
  destruct (is_xyz_notation mode).
  - assert (Hb : exists tb, match split_on ch_plus (strip p0) with
       | _ :: b :: _ => extract_xyz_pol b
       | _ => extract_xyz_pol (nth 0 (split_on ch_plus (strip p0)) [])
       end = extract_xyz_pol tb).
    { destruct (split_on ch_plus (strip p0)) as [|x [|y l]]; eexists; reflexivity. }
    destruct Hb as [tb ->].
    destruct (xyz_key_cases (nth 0 (split_on ch_plus (strip p0)) [])) as [[-> ->]|[-> [k1 ->]]];
      cbn [bind andb negb].
    { split; [intros _; right; left; auto | intros _; eexists; reflexivity]. }
    destruct (xyz_key_cases tb) as [[-> ->]|[-> [k2 ->]]]; cbn [bind andb negb].
    { split; [intros _; right; left; auto | intros _; eexists; reflexivity]. }
    destruct (xyz_key_cases (strip p1)) as [[-> ->]|[-> [k3 ->]]]; cbn [bind andb negb].
    { split; [intros _; right; left; auto | intros _; eexists; reflexivity]. }
    split.
    + intros [e He]; discriminate.
    + intros [H|[[_ H]|[[H _]|[[H _]|[H _]]]]]; try discriminate. contradiction.
  - destruct (findall_nm mode) as [|ws0 [|ws1 [|ws2 wl]]]; cbn [List.length].
    1-3: split; [intros _; right; right; left; split; [reflexivity|lia]
                | intros _; eexists; reflexivity].
    destruct (Rlt_dec _ _);
    (destruct (input_pol_pair (strip p0)) as [[pol1 pol2]|e] eqn:Epp; cbn [bind];
     [ destruct (input_pol_pair_labels _ _ _ Epp) as [Hp1 Hp2];
       assert (Hlab : (contains ch_O (strip p0) || contains ch_E (strip p0))%bool = true)
         by (destruct (contains ch_O (strip p0) || contains ch_E (strip p0))%bool eqn:Ec;
             [reflexivity| apply input_pol_pair_raises in Ec; destruct Ec as [e' Ec]; congruence]);
       rewrite Hlab; cbn [negb];
       destruct theta as [t|]; cbn [bind];
       [ destruct (beam_index_returns s pol1 i1 t) as [v1 H1];
         destruct (beam_index_returns s pol2 i2 t) as [v2 H2];
         destruct (beam_index_returns s pol1 i2 t) as [v1' H1'];
         destruct (beam_index_returns s pol2 i1 t) as [v2' H2'];
         destruct (beam_index_returns s (output_pol (strip p1)) io t) as [v3 H3];
         rewrite ?H1, ?H2, ?H1', ?H2', ?H3; cbn [bind];
         destruct (process_type (cfg s)); cbn;
         (split; [intros [e He]; discriminate
                 | intros [H|[[H _]|[[_ H]|[[_ H]|[_ [H _]]]]]]; try discriminate; try lia; contradiction])
       | destruct (output_pol_label (strip p1)) as [Ho|Ho]; rewrite Ho;
         destruct Hp1 as [-> | ->]; destruct Hp2 as [-> | ->];
         rewrite ?N.eqb_refl, ?ch_O_neq_E; cbn [orb bind];
         first [ split; [intros _; right; right; right; right; auto | intros _; eexists; reflexivity]
               | rewrite !beam_index_ordinary; cbn [bind];
                 destruct (process_type (cfg s)); cbn;
                 (split; [intros [e He]; discriminate
                         | intros [H|[[H _]|[[_ H]|[[_ H]|[_ [_ H]]]]]]; try discriminate; try lia; contradiction]) ] ]
     | assert (Hlab : (contains ch_O (strip p0) || contains ch_E (strip p0))%bool = false)
         by (apply input_pol_pair_raises; eauto);
       rewrite Hlab; cbn [negb];
       split; [intros _; right; right; right; left; auto | intros _; eexists; reflexivity] ]).
Qed.


(** ** Generated mode identifiers never make [delta_n] raise *)

Lemma pystr_of_uint_digits u : Forall (fun c => is_digit c = true) (pystr_of_uint u).
Proof. induction u; simpl; constructor; auto. Qed.

Lemma pystr_of_uint_nonnil u : u <> Decimal.Nil -> pystr_of_uint u <> [].
Proof. destruct u; simpl; intros H; try discriminate. contradiction. Qed.

Lemma N_to_uint_nonnil n : N.to_uint n <> Decimal.Nil.
Proof.
  destruct n; simpl.
  - discriminate.
  - apply Unsigned.to_uint_nonnil.
Qed.

Lemma format_0f_shape x : label_shape (format_0f x).
Proof.
  unfold format_0f, label_shape.
  eexists; eexists; split; [reflexivity|].
  split; [destruct (Rlt_dec x 0); auto|].
  split; [apply pystr_of_uint_nonnil, N_to_uint_nonnil | apply pystr_of_uint_digits].
Qed.

Lemma contains_app c a b : contains c (a ++ b) = (contains c a || contains c b)%bool.
Proof. apply existsb_app. Qed.

Lemma contains_cons c d a : contains c (d :: a) = (N.eqb c d || contains c a)%bool.
Proof. reflexivity. Qed.

Lemma contains_digits c ds :
  is_digit c = false -> Forall (fun c => is_digit c = true) ds -> contains c ds = false.
Proof.
  intros Hc H. induction H as [|d ds Hd _ IH]; [reflexivity|].
  rewrite contains_cons, IH, orb_false_r.
  apply N.eqb_neq. intros ->. congruence.
Qed.

Lemma contains_label c l :
  label_shape l -> is_digit c = false -> N.eqb c ch_minus = false -> contains c l = false.
Proof.
  intros (sign & ds & -> & Hs & _ & Hd) Hc Hm.
  rewrite contains_app, (contains_digits c ds Hc Hd), orb_false_r.
  destruct Hs as [-> | ->]; [reflexivity|].
  simpl. rewrite Hm. reflexivity.
Qed.

Lemma split_on_no_sep c a : contains c a = false -> split_on c a = [a].
Proof.
  induction a as [|d a IH]; [reflexivity|].
  rewrite contains_cons. intros H. apply orb_false_elim in H as [H1 H2].
  simpl. rewrite H1, (IH H2). reflexivity.
Qed.

Lemma split_on_app c a b :
  contains c a = false -> split_on c (a ++ c :: b) = a :: split_on c b.
Proof.
  induction a as [|d a IH]; intros H.
  - simpl. rewrite N.eqb_refl. reflexivity.
  - rewrite contains_cons in H. apply orb_false_elim in H as [H1 H2].
    simpl. rewrite H1, (IH H2). reflexivity.
Qed.

Lemma findall_digits ds : forall run rest,
  Forall (fun c => is_digit c = true) ds ->
  findall_nm_from run (ds ++ rest) = findall_nm_from (rev ds ++ run) rest.
Proof.
  induction ds as [|d ds IH]; intros run rest H; [reflexivity|].
  inversion H as [|? ? Hd Hds]; subst.
  simpl. rewrite Hd, IH by assumption. rewrite <- app_assoc. reflexivity.
Qed.

Lemma findall_label l rest :
  label_shape l ->
  exists ds, findall_nm_from [] (l ++ ch_n :: ch_m :: rest)
             = ds :: findall_nm_from [] (ch_m :: rest).
Proof.
  intros (sign & ds & -> & Hs & Hne & Hd).
  exists ds.
  assert (E : findall_nm_from [] ((sign ++ ds) ++ ch_n :: ch_m :: rest)
              = findall_nm_from [] (ds ++ ch_n :: ch_m :: rest)).
  { destruct Hs as [-> | ->]; [reflexivity|].
    simpl. destruct (ds ++ ch_n :: ch_m :: rest); reflexivity. }
  rewrite E, findall_digits by assumption. rewrite app_nil_r.
  destruct (rev ds) as [|r rs] eqn:Er.
  { apply (f_equal (@rev N)) in Er. rewrite rev_involutive in Er. contradiction. }
  change (findall_nm_from (r :: rs) (ch_n :: ch_m :: rest))
    with (rev (r :: rs) :: findall_nm_from [] (ch_m :: rest)).
  rewrite <- Er, rev_involutive. reflexivity.
Qed.

Lemma lstrip_contains c a : is_space c = false -> contains c (lstrip a) = contains c a.
Proof.
  intros Hc. induction a as [|d a IH]; [reflexivity|].
  simpl. destruct (is_space d) eqn:Ed; [|reflexivity].
  rewrite IH. destruct (N.eqb c d) eqn:E; [|reflexivity].
  apply N.eqb_eq in E. congruence.
Qed.

Lemma contains_rev c a : contains c (rev a) = contains c a.
Proof.
  induction a as [|d a IH]; [reflexivity|].
  simpl rev. rewrite contains_app, IH. simpl. rewrite orb_false_r. apply orb_comm.
Qed.

Lemma strip_contains c a : is_space c = false -> contains c (strip a) = contains c a.
Proof.
  intros Hc. unfold strip.
  rewrite contains_rev, lstrip_contains, contains_rev, lstrip_contains by assumption.
  reflexivity.
Qed.

Lemma contains_app_false c a b :
  contains c a = false -> contains c b = false -> contains c (a ++ b) = false.
Proof. intros Ha Hb. rewrite contains_app, Ha, Hb. reflexivity. Qed.

Ltac no_char :=
  repeat (apply contains_app_false);
  first [ reflexivity
        | apply contains_label; [assumption | reflexivity | reflexivity] ].

Ltac step_label :=
  match goal with
  | |- context [findall_nm_from [] (?l ++ 110%N :: 109%N :: ?rest)] =>
      let d := fresh "d" in
      let E := fresh "E" in
      destruct (findall_label l rest ltac:(assumption)) as [d E];
      change ch_n with 110%N in E; change ch_m with 109%N in E;
      rewrite E; clear E; simpl
  end.

Lemma generated_mode_ok p1 l1 p2 l2 po lo ty :
  is_pol_label p1 -> is_pol_label p2 -> is_pol_label po ->
  label_shape l1 -> label_shape l2 -> label_shape lo -> is_type_tag ty ->
  let mode := mode_name p1 l1 p2 l2 po lo ty in
  List.length (arrow_parts mode) = 2%nat
  /\ is_xyz_notation mode = false
  /\ (3 <= List.length (findall_nm mode))%nat
  /\ input_label_missing mode = false.
Proof.
  intros H1 H2 Ho L1 L2 Lo Hty mode.
  set (pre := [p1] ++ lit " (" ++ l1 ++ lit "nm) + " ++ [p2] ++ lit " (" ++ l2 ++ lit "nm) ").
  set (post := lit " " ++ [po] ++ lit " (" ++ lo ++ lit "nm) (" ++ lit ty ++ lit ")").
  assert (Emode : mode = pre ++ ch_arrow :: post).
  { unfold mode, mode_name, pre, post. rewrite <- !app_assoc. reflexivity. }
  assert (Apre : forall c, In c [ch_arrow; ch_X; ch_Y; ch_Z] -> contains c pre = false).
  { intros c Hc. unfold pre.
    destruct H1 as [-> | ->], H2 as [-> | ->];
      simpl in Hc; decompose [or] Hc; subst; try contradiction; no_char. }
  assert (Apost : forall c, In c [ch_arrow; ch_X; ch_Y; ch_Z] -> contains c post = false).
  { intros c Hc. unfold post.
    destruct Ho as [-> | ->], Hty as [-> | ->];
      simpl in Hc; decompose [or] Hc; subst; try contradiction; no_char. }
  assert (Eparts : arrow_parts mode = [pre; post]).
  { unfold arrow_parts. rewrite Emode, split_on_app, split_on_no_sep by (first [apply Apre | apply Apost]; simpl; auto). reflexivity. }
  split; [rewrite Eparts; reflexivity|].
  split.
  { unfold is_xyz_notation. rewrite Emode, !contains_app, !contains_cons.
    rewrite !Apre, !Apost by (simpl; auto). reflexivity. }
  split.
  { unfold findall_nm, mode, mode_name.
    destruct H1 as [-> | ->], H2 as [-> | ->], Ho as [-> | ->], Hty as [-> | ->];
    simpl; do 3 step_label; simpl; lia. }
  { unfold input_label_missing, input_part_of. rewrite Eparts. cbn [nth].
    rewrite !strip_contains by reflexivity.
    unfold pre. change ([p1] ++ ?x) with (p1 :: x). rewrite !contains_cons.
    destruct H1 as [-> | ->]; rewrite N.eqb_refl; [reflexivity|].
    rewrite orb_true_r. reflexivity. }
Qed.

Lemma returns_or_raises {A : Type} (m : exc A) : returns m \/ raises m.
Proof. destruct m; [left | right]; eexists; reflexivity. Qed.

Lemma not_raises_returns {A : Type} (m : exc A) : ~ raises m -> returns m.
Proof. destruct (returns_or_raises m); tauto. Qed.

Lemma returns_not_raises {A : Type} (m : exc A) : returns m -> ~ raises m.
Proof. intros [a ->] [e H]. discriminate. Qed.

Lemma build_mode_names_generated config mode :
  In mode (build_mode_names config) ->
  exists p1 l1 p2 l2 po lo ty,
    mode = mode_name p1 l1 p2 l2 po lo ty
    /\ is_pol_label p1 /\ is_pol_label p2 /\ is_pol_label po
    /\ label_shape l1 /\ label_shape l2 /\ label_shape lo /\ is_type_tag ty.
Proof.
  unfold build_mode_names, is_pol_label, is_type_tag.
  destruct (process_type config); simpl; intros H; decompose [or] H; subst;
    try contradiction;
    do 7 eexists; (split; [reflexivity|]);
    repeat split; auto using format_0f_shape.
Qed.

Lemma Solver_init_inv config s :
  Solver_init config = Ok s ->
  known_crystal (crystal_name config) = true
  /\ cfg s = config
  /\ mode_names s = build_mode_names config
  /\ plane_config (plane config) = Ok (key_static s, key_cos s, key_sin s)
  /\ match process_type config with
     | SHG => weight1 s = 0.5 /\ weight2 s = 0.5
     | SFG => weight1 s = wavelength_out_nm config / wavelength1_nm config
              /\ weight2 s = wavelength_out_nm config / wavelength2_nm config
     end.
Proof.
  unfold Solver_init. intros H.
  destruct (known_crystal (crystal_name config)) eqn:Hk.
  2:{ rewrite (get_indices_unknown _ _ _ Hk) in H. discriminate. }
  destruct (get_indices_known config (Some (wavelength1_nm config)) None Hk) as [i1 E1].
  destruct (get_indices_known config (Some (wavelength2_nm config)) None Hk) as [i2 E2].
  destruct (get_indices_known config (Some (wavelength_out_nm config)) None Hk) as [i3 E3].
  rewrite E1, E2, E3 in H. cbn [bind] in H.
  destruct (plane_config (plane config)) as [[[ks kc] kn]|e]; [|discriminate].
  cbn [bind] in H. injection H as <-. cbn.
  repeat split; destruct (process_type config); split; reflexivity.
Qed.

Lemma mode_names_return config s mode theta :
  Solver_init config = Ok s -> In mode (mode_names s) ->
  returns (delta_n s mode (Some theta) None None None None).
Proof.
  intros Hi Hin.
  destruct (Solver_init_inv _ _ Hi) as (Hk & Hc & Hm & _).
  rewrite Hm in Hin.
  destruct (build_mode_names_generated _ _ Hin)
    as (p1 & l1 & p2 & l2 & po & lo & ty & -> & H1 & H2 & Ho & L1 & L2 & Lo & Hty).
  destruct (generated_mode_ok p1 l1 p2 l2 po lo ty H1 H2 Ho L1 L2 Lo Hty)
    as (Ha & Hx & Hw & Hl).
  apply not_raises_returns. rewrite delta_n_raises_characterised by (rewrite Hc; exact Hk).
  intros [H|[[H _]|[[_ H]|[[_ H]|[_ [H _]]]]]]; try congruence; try lia.
Qed.

Lemma dict_keys_incl l k : In k (dict_keys l) -> In k l.
Proof.
  induction l as [|a l IH]; simpl; [tauto|].
  intros [H|H]; [auto|]. apply filter_In in H as [H _]. auto.
Qed.

Lemma rad2deg_deg2rad x : deg2rad (rad2deg x) = x.
Proof. unfold deg2rad, rad2deg. pose proof PI_RGT_0. field. lra. Qed.

Lemma rad2deg_range x : 0 <= x -> x <= PI / 2 -> 0 <= rad2deg x <= 90.
Proof.
  intros H0 H1. unfold rad2deg. pose proof PI_RGT_0 as HP.
  assert (0 < 180 / PI) by (apply Rdiv_lt_0_compat; lra).
  split; [nra|].
  replace 90 with ((PI / 2) * (180 / PI)) by (field; lra).
  apply Rmult_le_compat_r; lra.
Qed.

(** ** The critical-angle solver *)

Section CriticalAngleProps.

Variable fsolve : (R -> exc R) -> R -> exc (R * Z).
Hypothesis fsolve_returns :
  forall f guess, (forall x, returns (f x)) -> returns (fsolve f guess).

(** What [robust_solve] answers, from what [fsolve] answered. *)
Lemma robust_solve_spec f guess :
  (forall x, returns (f x)) ->
  exists root ier v,
    fsolve f guess = Ok (root, ier) /\ f root = Ok v
    /\ ((ier = 1%Z /\ 0 <= root <= PI / 2 /\ Rabs v < 1e-4
         /\ robust_solve fsolve f guess = Ok (Some root))
        \/ ((ier <> 1%Z \/ ~ (0 <= root <= PI / 2) \/ ~ (Rabs v < 1e-4))
            /\ robust_solve fsolve f guess = Ok None)).
Proof.
  intros Hf. destruct (fsolve_returns f guess Hf) as [[root ier] E].
  destruct (Hf root) as [v Ev].
  exists root, ier, v. split; [exact E|]. split; [exact Ev|].
  unfold robust_solve. rewrite E. cbn [bind].
  destruct (Z.eqb_spec ier 1) as [-> | Hier].
  2:{ right. split; [left; assumption | reflexivity]. }
  destruct (Rle_dec 0 root) as [H0|H0].
  2:{ right. split; [right; left; lra | reflexivity]. }
  destruct (Rle_dec root (PI / 2)) as [H1|H1].
  2:{ right. split; [right; left; lra | reflexivity]. }
  rewrite Ev. cbn [bind].
  destruct (Rlt_dec (Rabs v) 1e-4) as [Hv|Hv].
  - left. repeat split; auto.
  - right. split; [right; right; assumption | reflexivity].
Qed.

Lemma mapM_spec {A B : Type} (f : A -> exc B) (l : list A) :
  (forall a, In a l -> returns (f a)) ->
  exists bs, mapM f l = Ok bs /\ Forall2 (fun a b => f a = Ok b) l bs.
Proof.
  induction l as [|a l IH]; intros H.
  - exists []. split; [reflexivity | constructor].
  - destruct (H a (or_introl eq_refl)) as [b Eb].
    destruct IH as [bs [Ebs Hbs]]; [intros; apply H; right; assumption|].
    exists (b :: bs). simpl. rewrite Eb, Ebs. split; [reflexivity|].
    constructor; assumption.
Qed.

(** C1.  For a solver built by [__init__], [criticalangle] returns (it
    does not raise, as long as the root-finder raises only what its
    callback raises) one entry per mode; the entry is NaN whenever the
    root-finder reports no convergence, its root is outside [0, pi/2] or
    the residual is not below 1e-4; an entry that is an angle lies in
    [0, 90] degrees, is the root in degrees, and the mismatch there is
    below 1e-4 in absolute value. *)
Theorem criticalangle_validated config s :
  Solver_init config = Ok s ->
  exists result,
    criticalangle fsolve s = Ok result
    /\ map fst result = dict_keys (mode_names s)
    /\ forall mode angle, In (mode, angle) result ->
         exists root ier v,
           fsolve (equation_of s mode) (PI / 4) = Ok (root, ier)
           /\ equation_of s mode root = Ok v
           /\ ((ier <> 1%Z \/ ~ (0 <= root <= PI / 2) \/ ~ (Rabs v < 1e-4)) ->
               angle = None)
           /\ (forall theta_c, angle = Some theta_c ->
                 0 <= theta_c <= 90
                 /\ theta_c = rad2deg root
                 /\ exists dn,
                      delta_n s mode (Some (deg2rad theta_c)) None None None None = Ok dn
                      /\ Rabs dn < 1e-4).
Proof.
  intros Hi.
  assert (Heq : forall mode, In mode (dict_keys (mode_names s)) ->
                forall x, returns (equation_of s mode x)).
  { intros mode Hin x. eapply mode_names_return; eauto using dict_keys_incl. }
  unfold criticalangle.
  destruct (mapM_spec
              (fun mode => theta_val <- robust_solve fsolve (equation_of s mode) (PI / 4) ;;
                           Ok (mode, option_map rad2deg theta_val))
              (dict_keys (mode_names s))) as [result [E HF]].
  { intros mode Hin.
    destruct (robust_solve_spec (equation_of s mode) (PI / 4) (Heq mode Hin))
      as (root & ier & v & _ & _ & [(_ & _ & _ & ->) | (_ & ->)]); eexists; reflexivity. }
  exists result. split; [exact E|].
  split.
  { clear E Heq. induction HF as [|a b l bs Hab _ IH]; [reflexivity|].
    simpl. rewrite IH. f_equal.
    destruct (robust_solve fsolve (equation_of s a) (PI / 4)); [|discriminate].
    cbn in Hab. injection Hab as <-. reflexivity. }
  intros mode angle Hin.
  assert (Hm : In mode (dict_keys (mode_names s))
               /\ (theta_val <- robust_solve fsolve (equation_of s mode) (PI / 4) ;;
                   Ok (mode, option_map rad2deg theta_val)) = Ok (mode, angle)).
  { clear E Heq. induction HF as [|a b l bs Hab _ IH]; [contradiction|].
    destruct Hin as [-> | Hin].
    - assert (a = mode).
      { destruct (robust_solve fsolve (equation_of s a) (PI / 4)); [|discriminate].
        cbn in Hab. congruence. }
      subst a. split; [left; reflexivity | exact Hab].
    - destruct (IH Hin) as [H1 H2]. split; [right; assumption | assumption]. }
  destruct Hm as [Hmode Hres].
  destruct (robust_solve_spec (equation_of s mode) (PI / 4) (Heq mode Hmode))
    as (root & ier & v & Ef & Ev & Hcase).
  exists root, ier, v. split; [exact Ef|]. split; [exact Ev|].
  destruct Hcase as [(Hier & Hr & Hv & Ers) | (Hfail & Ers)];
    rewrite Ers in Hres; cbn in Hres; injection Hres as <-.
  - split; [intros [H|[H|H]]; tauto|].
    intros theta_c [= <-].
    split; [apply rad2deg_range; tauto|]. split; [reflexivity|].
    exists v. rewrite rad2deg_deg2rad. split; [exact Ev | exact Hv].
  - split; [reflexivity | discriminate].
Qed.

End CriticalAngleProps.

Lemma format_0f_integer (z : Z) :
  (0 <= z)%Z -> format_0f (IZR z) = pystr_of_uint (N.to_uint (Z.abs_N z)).
Proof.
  intros Hz. unfold format_0f, round_half_even.
  rewrite ZfloorZ. replace (IZR z - IZR z) with 0 by ring.
  destruct (Rlt_dec 0 (1 / 2)) as [_|H]; [|exfalso; lra].
  destruct (Rlt_dec (IZR z) 0) as [H|_]; [|reflexivity].
  apply IZR_le in Hz. exfalso; lra.
Qed.

Lemma kdp_solver_init : Solver_init kdp_cfg = Ok kdp_solver.
Proof.
  unfold Solver_init, kdp_solver. cbn.
  unfold build_mode_names. cbn [process_type kdp_cfg SimulationConfig_init
    wavelength1_nm wavelength_out_nm].
  replace (1064 / 2) with 532 by lra.
  rewrite !format_0f_integer by lia. reflexivity.
Qed.

Lemma criticalangle_validated_witness :
  exists result,
    criticalangle fsolve_no_convergence kdp_solver = Ok result
    /\ map fst result = dict_keys (mode_names kdp_solver).
Proof.
  destruct (criticalangle_validated fsolve_no_convergence
              (fun f guess _ => ex_intro _ (guess, 5%Z) eq_refl)
              kdp_cfg kdp_solver kdp_solver_init) as (result & E & K & _).
  exists result. split; assumption.
Defined.

(** ** The weights of [delta_n] *)


Lemma bind_Ok_inv {A B : Type} (m : exc A) (k : A -> exc B) (b : B) :
  bind m k = Ok b -> exists a, m = Ok a /\ k a = Ok b.
Proof. destruct m; simpl; [eauto | discriminate]. Qed.







Lemma lbo_sfg_wavelength_out : 1 / (1 / 1064 + 1 / 532) = 1064 / 3.
Proof. field. Qed.

Lemma format_0f_355 : format_0f (1 / (1 / 1064 + 1 / 532)) = lit "355".
Proof.
  rewrite lbo_sfg_wavelength_out.
  unfold format_0f, round_half_even.
  assert (E : Zfloor (1064 / 3) = 354%Z) by (apply Zfloor_eq; lra).
  rewrite E.
  destruct (Rlt_dec (1064 / 3 - 354) (1 / 2)) as [H|_]; [exfalso; lra|].
  destruct (Rlt_dec (1 / 2) (1064 / 3 - 354)) as [_|H]; [|exfalso; lra].
  destruct (Rlt_dec (1064 / 3) 0) as [H|_]; [exfalso; lra|].
  reflexivity.
Qed.

Lemma lbo_sfg_solver_init : Solver_init lbo_sfg_cfg = Ok lbo_sfg_solver.
Proof.
  unfold Solver_init, lbo_sfg_solver. cbn.
  unfold build_mode_names. cbn [process_type lbo_sfg_cfg SimulationConfig_init
    wavelength1_nm wavelength2_nm wavelength_out_nm].
  rewrite format_0f_355.
  rewrite !format_0f_integer by lia. reflexivity.
Qed.



(** ** Identifiers on which [delta_n] raises *)

Ltac eval_in_goal t :=
  let x := fresh "x" in set (x := t); vm_compute in x; subst x.



(** ** Walk-off *)

Lemma bbo_sfg_solver_init : Solver_init bbo_sfg_cfg = Ok bbo_sfg_solver.
Proof.
  unfold Solver_init, bbo_sfg_solver. cbn.
  unfold build_mode_names. cbn [process_type bbo_sfg_cfg SimulationConfig_init
    wavelength1_nm wavelength2_nm wavelength_out_nm].
  rewrite format_0f_355.
  rewrite !format_0f_integer by lia. reflexivity.
Qed.

Lemma walkoff_mode_nan s mode : walkoff_mode s mode None = Ok WalkoffNaN.
Proof. reflexivity. Qed.

Lemma calc_walkoff_ordinary s theta_rad w :
  calc_walkoff s theta_rad ch_O w = Ok (0, 0).
Proof. unfold calc_walkoff. cbn. repeat f_equal; lra. Qed.

Lemma calc_walkoff_extraordinary s theta_rad pol w i :
  N.eqb pol ch_O = false ->
  get_indices (cfg s) (Some w) None = Ok i ->
  calc_walkoff s theta_rad pol w
  = Ok (rad2deg (walkoff_formula (fst (plane_pair (plane (cfg s)) i))
                                 (snd (plane_pair (plane (cfg s)) i)) theta_rad),
        walkoff_formula (fst (plane_pair (plane (cfg s)) i))
                        (snd (plane_pair (plane (cfg s)) i)) theta_rad * 1e3).
Proof.
  intros Hp Hi. unfold calc_walkoff. rewrite Hp, Hi. cbn [bind].
  destruct (plane_pair (plane (cfg s)) i) as [a b]. reflexivity.
Qed.

Lemma calc_walkoff_reported s deg pol w i :
  get_indices (cfg s) (Some w) None = Ok i ->
  exists r,
    calc_walkoff s (deg2rad deg) pol w = Ok r
    /\ format_walkoff pol (fst r) (snd r) = reported_beam s deg pol i.
Proof.
  intros Hi. unfold reported_beam, format_walkoff.
  destruct (N.eqb pol ch_O) eqn:Ep.
  - apply N.eqb_eq in Ep. subst pol.
    exists (0, 0). split; [apply calc_walkoff_ordinary | reflexivity].
  - eexists. split; [apply calc_walkoff_extraordinary; eassumption|].
    reflexivity.
Qed.

(** What [walkoff_angle] reports for a mode with a defined angle: the first
    label goes with the configured first wavelength, the second label with
    the configured second wavelength, whatever wavelengths the identifier
    names. *)
Lemma walkoff_mode_reports s mode deg p0 p1 pol1 pol2 :
  known_crystal (crystal_name (cfg s)) = true ->
  split_on ch_arrow mode = [p0; p1] ->
  input_pol_pair (strip p0) = Ok (pol1, pol2) ->
  exists i1 i2 iout,
    get_indices (cfg s) (Some (wavelength1_nm (cfg s))) None = Ok i1
    /\ get_indices (cfg s)
         (Some (match process_type (cfg s) with
                | SFG => wavelength2_nm (cfg s)
                | SHG => wavelength1_nm (cfg s)
                end)) None = Ok i2
    /\ get_indices (cfg s) (Some (wavelength_out_nm (cfg s))) None = Ok iout
    /\ walkoff_mode s mode (Some deg)
       = Ok (WalkoffText (reported_beam s deg pol1 i1)
                         (reported_beam s deg pol2 i2)
                         (reported_beam s deg (output_pol (strip p1)) iout)).
Proof.
  intros Hk Hsplit Hpols.
  destruct (get_indices_known (cfg s) (Some (wavelength1_nm (cfg s))) None Hk)
    as [i1 E1].
  destruct (get_indices_known (cfg s)
              (Some (match process_type (cfg s) with
                     | SFG => wavelength2_nm (cfg s)
                     | SHG => wavelength1_nm (cfg s)
                     end)) None Hk) as [i2 E2].
  destruct (get_indices_known (cfg s) (Some (wavelength_out_nm (cfg s))) None Hk)
    as [iout Eout].
  exists i1, i2, iout. repeat (split; [assumption|]).
  unfold walkoff_mode. rewrite Hsplit, Hpols. cbn [bind].
  destruct (calc_walkoff_reported s deg pol1 _ _ E1) as (r1 & -> & <-).
  destruct (calc_walkoff_reported s deg pol2 _ _ E2) as (r2 & -> & <-).
  destruct (calc_walkoff_reported s deg (output_pol (strip p1)) _ _ Eout)
    as (ro & -> & <-).
  reflexivity.
Qed.

(** The squared ratio of the BBO indices along Z and X at 20 C. *)
Lemma bbo_ratio_532 i :
  get_indices bbo_sfg_cfg (Some 532) None = Ok i ->
  n_z i ^ 2 / n_x i ^ 2 < 0.865.
Proof.
  unfold get_indices, _get_indices_default. cbn -[pow]. intros [= <-]. cbn [n_z n_x].
  replace (20 - 20.0) with 0 by lra. rewrite !Rmult_0_r, !Rminus_0_r.
  rewrite !pow2_sqrt; lra.
Qed.

Lemma bbo_ratio_1064 i :
  get_indices bbo_sfg_cfg (Some 1064) None = Ok i ->
  0.865 < n_z i ^ 2 / n_x i ^ 2.
Proof.
  unfold get_indices, _get_indices_default. cbn -[pow]. intros [= <-]. cbn [n_z n_x].
  replace (20 - 20.0) with 0 by lra. rewrite !Rmult_0_r, !Rminus_0_r.
  rewrite !pow2_sqrt; lra.
Qed.

Lemma deg2rad_range deg : 0 < deg < 90 -> 0 < deg2rad deg < PI / 2.
Proof.
  intros [H0 H1]. unfold deg2rad. pose proof PI_RGT_0 as HP.
  assert (0 < PI / 180) by (apply Rdiv_lt_0_compat; lra).
  split; [nra|].
  replace (PI / 2) with (90 * (PI / 180)) by field.
  apply Rmult_lt_compat_r; lra.
Qed.

(** C5, at the failing input.  For BBO, 1064 nm + 532 nm, XZ plane, and the
    mode O (532nm) + E (1064nm) -> E (355nm), at every critical angle
    strictly between 0 and 90 degrees: the first beam is reported with zero
    walk-off; the second beam, extraordinary and at 1064 nm, is reported with
    the walk-off computed from the indices at 532 nm (the configuration's
    second wavelength), and this differs from the walk-off computed from the
    indices at the beam's own wavelength. *)
Theorem walkoff_swapped_mode_wrong_wavelength deg :
  0 < deg < 90 ->
  exists i532 i1064 b_out,
    get_indices bbo_sfg_cfg (Some 532) None = Ok i532
    /\ get_indices bbo_sfg_cfg (Some 1064) None = Ok i1064
    /\ walkoff_mode bbo_sfg_solver mode_o532_e1064 (Some deg)
       = Ok (WalkoffText
               (ZeroDegrees ch_O)
               (DegMrad ch_E
                  (rad2deg (walkoff_formula (n_z i532) (n_x i532) (deg2rad deg)))
                  (walkoff_formula (n_z i532) (n_x i532) (deg2rad deg) * 1e3))
               b_out)
    /\ walkoff_formula (n_z i532) (n_x i532) (deg2rad deg)
       <> walkoff_formula (n_z i1064) (n_x i1064) (deg2rad deg).
Proof.
  intros Hdeg.
  destruct (get_indices_known bbo_sfg_cfg (Some 532) None eq_refl) as [i532 E532].
  destruct (get_indices_known bbo_sfg_cfg (Some 1064) None eq_refl) as [i1064 E1064].
  destruct (get_indices_known bbo_sfg_cfg (Some (wavelength_out_nm bbo_sfg_cfg)) None eq_refl)
    as [iout Eout].
  exists i532, i1064.
  eexists. split; [exact E532|]. split; [exact E1064|].
  split.
  - unfold walkoff_mode.
    eval_in_goal (split_on ch_arrow mode_o532_e1064). cbv iota.
    match goal with |- context [input_pol_pair ?a] => eval_in_goal (input_pol_pair a) end.
    cbn [bind].
    match goal with |- context [output_pol ?a] => eval_in_goal (output_pol a) end.
    change (process_type (cfg bbo_sfg_solver)) with SFG. cbv iota.
    change (wavelength1_nm (cfg bbo_sfg_solver)) with 1064.
    change (wavelength2_nm (cfg bbo_sfg_solver)) with 532.
    change 119822%N with ch_O. change 119812%N with ch_E.
    rewrite calc_walkoff_ordinary. cbn [bind].
    rewrite (calc_walkoff_extraordinary bbo_sfg_solver _ ch_E 532 i532 eq_refl E532).
    rewrite (calc_walkoff_extraordinary bbo_sfg_solver _ ch_E _ iout eq_refl Eout).
    cbn [bind fst snd]. unfold format_walkoff.
    change (N.eqb ch_O ch_O) with true. change (N.eqb ch_E ch_O) with false.
    cbv iota.
    change (plane_pair (plane (cfg bbo_sfg_solver)) i532) with (n_z i532, n_x i532).
    cbn [fst snd]. reflexivity.
  - unfold walkoff_formula.
    pose proof (bbo_ratio_532 _ E532) as H5.
    pose proof (bbo_ratio_1064 _ E1064) as H10.
    destruct (deg2rad_range deg Hdeg) as [Ht0 Ht1].
    pose proof (tan_gt_0 _ Ht0 Ht1) as Htan.
    assert (Hlt : n_z i532 ^ 2 / n_x i532 ^ 2 * tan (deg2rad deg)
                  < n_z i1064 ^ 2 / n_x i1064 ^ 2 * tan (deg2rad deg)).
    { apply Rmult_lt_compat_r; lra. }
    apply atan_increasing in Hlt. lra.
Qed.

Lemma walkoff_swapped_mode_wrong_wavelength_witness :
  exists i532 i1064,
    get_indices bbo_sfg_cfg (Some 532) None = Ok i532
    /\ get_indices bbo_sfg_cfg (Some 1064) None = Ok i1064
    /\ walkoff_formula (n_z i532) (n_x i532) (deg2rad 45)
       <> walkoff_formula (n_z i1064) (n_x i1064) (deg2rad 45).
Proof.
  destruct (walkoff_swapped_mode_wrong_wavelength 45 ltac:(lra))
    as (i532 & i1064 & b_out & E5 & E10 & _ & Hne).
  exists i532, i1064. repeat split; assumption.
Defined.

(** ** Effective nonlinearity *)

Lemma nan1_abs_defined (v : option R) :
  (exists x, v = Some x) -> exists y, nan1 Rabs v = Some y /\ 0 <= y.
Proof. intros [x ->]. exists (Rabs x). split; [reflexivity | apply Rabs_pos]. Qed.

Lemma d_eff_value_defined info pl ty t p :
  exists x, d_eff_value info pl ty (Some t) (Some p) = Some x.
Proof.
  unfold d_eff_value.
  repeat match goal with
         | |- context [if ?b then _ else _] => destruct b
         end; cbn [nan1 nan2]; eexists; reflexivity.
Qed.

Lemma d_eff_mode_defined s info phi mode deg :
  exists v, d_eff_mode s info phi mode (Some deg) = Some v /\ 0 <= v.
Proof.
  unfold d_eff_mode.
  destruct (get_mode_type mode) as [ty|]; [|exists 0.0; split; [reflexivity|lra]].
  destruct (String.eqb (plane (cfg s)) "XY");
    [cbn [nan1]; apply nan1_abs_defined, d_eff_value_defined|].
  destruct (String.eqb (plane (cfg s)) "XZ");
    [cbn [nan1]; apply nan1_abs_defined, d_eff_value_defined|].
  destruct (String.eqb (plane (cfg s)) "YZ");
    [cbn [nan1]; apply nan1_abs_defined, d_eff_value_defined|].
  exists 0.0; split; [reflexivity|lra].
Qed.

Lemma Rabs_zero_literal : Rabs 0.0 = 0.
Proof. replace 0.0 with 0 by lra. apply Rabs_R0. Qed.

Lemma zero_literal : Some 0.0 = Some 0.
Proof. f_equal; lra. Qed.

Lemma d_eff_value_zero info pl ty theta_rad phi_rad :
  supported_group (group info) = false
  \/ recognised_type ty = false
  \/ (group info = "mm2"%string /\ (known_plane pl = false \/ mm2_forbidden pl ty = true)) ->
  d_eff_value info pl ty theta_rad phi_rad = Some 0.0.
Proof.
  unfold supported_group, recognised_type, known_plane, mm2_forbidden, d_eff_value.
  intros [H|[H|[Hg H]]].
  - destruct (String.eqb (group info) "4bar2m"); [discriminate|].
    destruct (String.eqb (group info) "3m"); [discriminate|].
    destruct (String.eqb (group info) "mm2"); [discriminate|]. reflexivity.
  - destruct (String.eqb ty "OOE"); [discriminate|].
    destruct (String.eqb ty "EEO"); [discriminate|].
    destruct (String.eqb ty "OEE"); [discriminate|].
    destruct (String.eqb ty "OEO"); [discriminate|]. cbn [orb].
    repeat match goal with
           | |- context [if ?b then _ else _] => destruct b
           end; reflexivity.
  - rewrite Hg. cbn [String.eqb Ascii.eqb Bool.eqb].
    change (String.eqb "mm2" "4bar2m") with false.
    change (String.eqb "mm2" "3m") with false.
    change (String.eqb "mm2" "mm2") with true. cbv iota.
    destruct (String.eqb pl "XY") eqn:Exy.
    { apply String.eqb_eq in Exy. subst pl.
      destruct H as [H|H]; [discriminate|]. cbn [String.eqb Ascii.eqb Bool.eqb andb orb] in H.
      change (String.eqb "XY" "YZ") with false in H.
      change (String.eqb "XY" "XZ") with false in H. cbn [orb andb] in H.
      rewrite orb_false_r in H.
      destruct (String.eqb ty "OOE") eqn:E1.
      { apply String.eqb_eq in E1; subst ty. discriminate H. }
      destruct (String.eqb ty "EEO") eqn:E2.
      { apply String.eqb_eq in E2; subst ty. discriminate H. }
      reflexivity. }
    destruct (String.eqb pl "YZ") eqn:Eyz.
    { destruct H as [H|H]; [rewrite orb_true_r in H; discriminate|].
      cbn [andb orb] in H.
      destruct (String.eqb ty "EEO") eqn:E2; [|discriminate].
      apply String.eqb_eq in E2; subst ty. reflexivity. }
    destruct (String.eqb pl "XZ") eqn:Exz; [|reflexivity].
    destruct H as [H|H]; [discriminate|].
    cbn [andb orb] in H.
    destruct (String.eqb ty "EEO") eqn:E2; [|discriminate].
    apply String.eqb_eq in E2; subst ty. reflexivity.
Qed.

Lemma d_eff_mode_zero s info phi mode angle :
  get_mode_type mode = None
  \/ known_plane (plane (cfg s)) = false
  \/ (exists ty, get_mode_type mode = Some ty
                 /\ (supported_group (group info) = false
                     \/ recognised_type ty = false
                     \/ (group info = "mm2"%string
                         /\ mm2_forbidden (plane (cfg s)) ty = true))) ->
  d_eff_mode s info phi mode angle = Some 0.
Proof.
  unfold d_eff_mode, known_plane.
  intros [H|[H|(ty & Ety & H)]].
  - rewrite H. apply zero_literal.
  - destruct (get_mode_type mode); [|apply zero_literal].
    destruct (String.eqb (plane (cfg s)) "XY"); [discriminate|].
    destruct (String.eqb (plane (cfg s)) "XZ"); [discriminate|].
    destruct (String.eqb (plane (cfg s)) "YZ"); [discriminate|].
    apply zero_literal.
  - rewrite Ety.
    assert (Hz : forall t p, nan1 Rabs (d_eff_value info (plane (cfg s)) ty t p) = Some 0).
    { intros t p. rewrite d_eff_value_zero by tauto.
      cbn [nan1]. rewrite Rabs_zero_literal. reflexivity. }
    destruct (String.eqb (plane (cfg s)) "XY"); [apply Hz|].
    destruct (String.eqb (plane (cfg s)) "XZ"); [apply Hz|].
    destruct (String.eqb (plane (cfg s)) "YZ"); [apply Hz|].
    apply zero_literal.
Qed.

Lemma d_eff_mode_contraction s info phi mode angle ty :
  get_mode_type mode = Some ty ->
  known_plane (plane (cfg s)) = true ->
  exists theta_rad phi_rad,
    d_eff_mode s info phi mode angle
    = nan1 Rabs (d_eff_value info (plane (cfg s)) ty theta_rad phi_rad)
    /\ (plane (cfg s) = "XY"%string ->
        theta_rad = Some (deg2rad 90) /\ phi_rad = nan1 deg2rad angle)
    /\ (plane (cfg s) = "XZ"%string ->
        theta_rad = nan1 deg2rad angle
        /\ phi_rad = Some (deg2rad (in_effect phi 0)))
    /\ (plane (cfg s) = "YZ"%string ->
        theta_rad = nan1 deg2rad angle
        /\ phi_rad = Some (deg2rad (in_effect phi 90))).
Proof.
  intros Ety Hpl. unfold d_eff_mode, known_plane in *. rewrite Ety.
  destruct (String.eqb (plane (cfg s)) "XY") eqn:Exy.
  { apply String.eqb_eq in Exy.
    do 2 eexists. split; [reflexivity|].
    rewrite Exy. replace 90.0 with 90 by lra.
    repeat split; intros; discriminate. }
  destruct (String.eqb (plane (cfg s)) "XZ") eqn:Exz.
  { apply String.eqb_eq in Exz.
    do 2 eexists. split; [reflexivity|]. rewrite Exz.
    split; [discriminate|]. split; [|discriminate].
    intros _. split; [reflexivity|]. unfold in_effect.
    destruct phi; repeat f_equal; lra. }
  destruct (String.eqb (plane (cfg s)) "YZ") eqn:Eyz; [|discriminate].
  apply String.eqb_eq in Eyz.
  do 2 eexists. split; [reflexivity|]. rewrite Eyz.
  split; [discriminate|]. split; [discriminate|].
  intros _. split; [reflexivity|]. unfold in_effect.
  destruct phi; repeat f_equal; lra.
Qed.

(** C6 (as amended).  [d_eff] maps every mode of the dictionary to the
    value of [d_eff_mode].  For a mode whose critical angle is defined (not
    NaN) that value is a non-negative real; it is the absolute value of the
    point-group contraction at the angles resolved from the plane; and it is
    exactly 0, whatever the angle (NaN included), when the identifier has no
    matching type, the plane is not one of the three, the symmetry class is
    unsupported, the matching type is not one of the four, or the class mm2
    has no formula for the type in the plane. *)
Theorem d_eff_nonnegative s theta_critical_dict selected_phi info :
  assoc (crystal_name (cfg s)) (crystal_db (cfg s)) = Some info ->
  d_eff s theta_critical_dict selected_phi
  = Ok (map (fun kv => (fst kv, d_eff_mode s info selected_phi (fst kv) (snd kv)))
            theta_critical_dict)
  /\ forall mode angle,
       (forall deg, angle = Some deg ->
          exists v, d_eff_mode s info selected_phi mode angle = Some v /\ 0 <= v)
       /\ (forall ty, get_mode_type mode = Some ty ->
           known_plane (plane (cfg s)) = true ->
           exists theta_rad phi_rad,
             d_eff_mode s info selected_phi mode angle
             = nan1 Rabs (d_eff_value info (plane (cfg s)) ty theta_rad phi_rad)
             /\ (plane (cfg s) = "XY"%string ->
                 theta_rad = Some (deg2rad 90) /\ phi_rad = nan1 deg2rad angle)
             /\ (plane (cfg s) = "XZ"%string ->
                 theta_rad = nan1 deg2rad angle
                 /\ phi_rad = Some (deg2rad (in_effect selected_phi 0)))
             /\ (plane (cfg s) = "YZ"%string ->
                 theta_rad = nan1 deg2rad angle
                 /\ phi_rad = Some (deg2rad (in_effect selected_phi 90))))
       /\ (get_mode_type mode = None
           \/ known_plane (plane (cfg s)) = false
           \/ (exists ty, get_mode_type mode = Some ty
                          /\ (supported_group (group info) = false
                              \/ recognised_type ty = false
                              \/ (group info = "mm2"%string
                                  /\ mm2_forbidden (plane (cfg s)) ty = true))) ->
           d_eff_mode s info selected_phi mode angle = Some 0).
Proof.
  intros Hinfo. split.
  - unfold d_eff. rewrite Hinfo. reflexivity.
  - intros mode angle. split; [|split].
    + intros deg ->. apply d_eff_mode_defined.
    + intros ty Ety Hpl. apply d_eff_mode_contraction; assumption.
    + apply d_eff_mode_zero.
Qed.

Lemma kdp_crystal_info :
  assoc (crystal_name (cfg kdp_solver)) (crystal_db (cfg kdp_solver))
  = Some (mk_crystal_info "4bar2m" [("d36"%string, 0.39); ("d14"%string, 0.39)]).
Proof. reflexivity. Qed.

Lemma d_eff_nonnegative_witness :
  exists v,
    d_eff_mode kdp_solver
      (mk_crystal_info "4bar2m" [("d36"%string, 0.39); ("d14"%string, 0.39)])
      None mode_ooe_1064 (Some 41) = Some v
    /\ 0 <= v.
Proof.
  destruct (d_eff_nonnegative kdp_solver [(mode_ooe_1064, Some 41)] None _
              kdp_crystal_info) as [_ H].
  destruct (H mode_ooe_1064 (Some 41)) as [Hdef _].
  exact (Hdef 41 eq_refl).
Defined.

(** C6, as stated, fails for a mode without solution: for KDP in the XZ
    plane, the mode O + O -> E with a NaN critical angle gets a NaN
    coefficient, not a non-negative number. *)
Lemma d_eff_nan_for_nan_angle :
  d_eff kdp_solver [(mode_ooe_1064, None)] None
  = Ok [(mode_ooe_1064, None)].
Proof.
  unfold d_eff. rewrite kdp_crystal_info. cbn [map fst snd].
  unfold d_eff_mode.
  eval_in_goal (get_mode_type mode_ooe_1064). cbv iota.
  reflexivity.
Qed.

(** ** Acceptance bandwidths *)

(** *** The scan axis *)

Lemma arange_int_length a b : List.length (arange_int a b) = Z.to_nat (b - a).
Proof. unfold arange_int. rewrite length_map, length_seq. reflexivity. Qed.

Lemma nth_map_inside {A B : Type} (f : A -> B) (l : list A) (i : nat)
    (d : A) (d' : B) :
  (i < List.length l)%nat -> nth i (map f l) d' = f (nth i l d).
Proof.
  revert i. induction l as [|a l IH]; intros i Hi; simpl in *; [lia|].
  destruct i; [reflexivity|]. apply IH. lia.
Qed.

Lemma arange_int_nth a b i :
  (i < Z.to_nat (b - a))%nat -> nth i (arange_int a b) 0%Z = (a + Z.of_nat i)%Z.
Proof.
  intros Hi. unfold arange_int.
  rewrite (nth_map_inside _ _ _ O) by (rewrite length_seq; exact Hi).
  rewrite seq_nth by exact Hi. reflexivity.
Qed.

Lemma scan_axis_samples nominal step unit :
  axis_samples (scan_axis nominal step unit) nominal step unit.
Proof.
  unfold axis_samples, scan_axis.
  assert (E : (step - - step = 2 * step)%Z) by lia.
  split.
  - rewrite length_map, arange_int_length, E. reflexivity.
  - intros i Hi.
    rewrite (nth_map_inside _ _ _ 0%Z)
      by (rewrite arange_int_length, E; exact Hi).
    rewrite arange_int_nth by (rewrite E; exact Hi).
    rewrite plus_IZR, opp_IZR. ring.
Qed.

Lemma axis_samples_nominal axis nominal step unit :
  axis_samples axis nominal step unit -> (0 < step)%Z ->
  nth (Z.to_nat step) axis 0 = nominal.
Proof.
  intros [_ H] Hs. rewrite H by lia. rewrite Z2Nat.id by lia. ring.
Qed.

Lemma axis_samples_spacing axis nominal step unit i :
  axis_samples axis nominal step unit -> (S i < Z.to_nat (2 * step))%nat ->
  nth (S i) axis 0 - nth i axis 0 = unit.
Proof.
  intros [_ H] Hi. rewrite !H by lia. rewrite Nat2Z.inj_succ, succ_IZR. ring.
Qed.

(** *** The efficiency *)

Lemma sin_abs_le x : Rabs (sin x) <= Rabs x.
Proof.
  assert (Hpos : forall y, 0 < y -> Rabs (sin y) <= y).
  { intros y Hy. apply Rabs_le. split.
    - destruct (Rle_dec y 1) as [H1|H1].
      + assert (0 < sin y).
        { apply sin_gt_0; [lra|]. pose proof PI_4 as Hp.
          assert (3 < PI) by (pose proof PI2_3_2; unfold PI2 in *; lra). lra. }
        lra.
      + pose proof (SIN_bound y). lra.
    - left. apply sin_lt_x. exact Hy. }
  destruct (Rtotal_order x 0) as [H|[->|H]].
  - rewrite <- (Rabs_Ropp (sin x)), <- sin_neg, (Rabs_left x H).
    apply Hpos. lra.
  - rewrite sin_0. lra.
  - rewrite (Rabs_right x) by lra. apply Hpos. exact H.
Qed.

Lemma np_sinc_sq_le_1 x : np_sinc x ^ 2 <= 1.
Proof.
  unfold np_sinc. destruct (Req_dec_T x 0) as [_|Hx]; [lra|].
  pose proof PI_RGT_0 as HP.
  assert (Hy : PI * x <> 0) by (apply Rmult_integral_contrapositive; split; lra).
  set (y := PI * x) in *.
  rewrite <- Rsqr_pow2, Rsqr_abs.
  assert (Hle : 0 <= Rabs (sin y / y) <= 1).
  { split; [apply Rabs_pos|].
    unfold Rdiv. rewrite Rabs_mult, Rabs_inv.
    pose proof (sin_abs_le y) as Hs.
    assert (0 < Rabs y) by (apply Rabs_pos_lt; exact Hy).
    apply (Rmult_le_reg_r (Rabs y)); [assumption|].
    rewrite Rmult_assoc, Rinv_l by lra. lra. }
  unfold Rsqr. nra.
Qed.

Lemma efficiency_of_le_1 s dn : efficiency_of s dn <= 1.
Proof. unfold efficiency_of. apply np_sinc_sq_le_1. Qed.

Lemma efficiency_of_matched s : efficiency_of s 0 = 1.
Proof.
  unfold efficiency_of, np_sinc.
  destruct (Req_dec_T _ 0) as [_|H]; [lra|].
  exfalso. apply H. unfold Rdiv. ring.
Qed.

Lemma sin_abs_lt x : x <> 0 -> Rabs (sin x) < Rabs x.
Proof.
  assert (Hpos : forall y, 0 < y -> Rabs (sin y) < y).
  { intros y Hy. apply Rabs_def1.
    - apply sin_lt_x. exact Hy.
    - destruct (Rle_dec y 1) as [H1|H1].
      + assert (0 < sin y).
        { apply sin_gt_0; [lra|].
          assert (3 < PI) by (pose proof PI2_3_2; unfold PI2 in *; lra). lra. }
        lra.
      + pose proof (SIN_bound y). lra. }
  intros Hx. destruct (Rtotal_order x 0) as [H|[H|H]]; [|contradiction|].
  - rewrite <- (Rabs_Ropp (sin x)), <- sin_neg, (Rabs_left x H).
    apply Hpos. lra.
  - rewrite (Rabs_right x) by lra. apply Hpos. exact H.
Qed.

(** The efficiency is 1 only at a vanishing mismatch. *)
Lemma efficiency_of_one_iff s dn :
  wavelength_out_um (cfg s) <> 0 ->
  efficiency_of s dn = 1 <-> dn = 0.
Proof.
  intros Hw. split; [|intros ->; apply efficiency_of_matched].
  unfold efficiency_of, np_sinc. pose proof PI_RGT_0 as HP.
  set (x := PI * 2 / wavelength_out_um (cfg s) * dn * 1e4 / (2 * PI)).
  assert (Ex : x = dn * (1e4 / wavelength_out_um (cfg s)))
    by (unfold x; field; split; lra).
  destruct (Req_dec_T x 0) as [E|Hx].
  - intros _. rewrite Ex in E.
    apply Rmult_integral in E as [E|E]; [exact E|].
    exfalso. unfold Rdiv in E.
    apply Rmult_integral in E as [E|E]; [lra|].
    apply (Rinv_neq_0_compat _ Hw). exact E.
  - intros H. exfalso.
    assert (Hy : PI * x <> 0)
      by (apply Rmult_integral_contrapositive; split; lra).
    pose proof (sin_abs_lt (PI * x) Hy) as Hlt.
    assert (Hq : Rabs (sin (PI * x) / (PI * x)) < 1).
    { unfold Rdiv. rewrite Rabs_mult, Rabs_inv.
      assert (0 < Rabs (PI * x)) by (apply Rabs_pos_lt; exact Hy).
      apply (Rmult_lt_reg_r (Rabs (PI * x))); [assumption|].
      rewrite Rmult_assoc, Rinv_l by lra. lra. }
    rewrite <- Rsqr_pow2, Rsqr_abs in H.
    pose proof (Rabs_pos (sin (PI * x) / (PI * x))).
    unfold Rsqr in H. nra.
Qed.

Lemma mapM_inv {A B : Type} (f : A -> exc B) (l : list A) (bs : list B) :
  mapM f l = Ok bs -> Forall2 (fun a b => f a = Ok b) l bs.
Proof.
  revert bs. induction l as [|a l IH]; intros bs H; simpl in H.
  - injection H as <-. constructor.
  - apply bind_Ok_inv in H as (b & Eb & H).
    apply bind_Ok_inv in H as (bs' & Ebs & H).
    injection H as <-. constructor; auto.
Qed.

Lemma Forall2_nth {A B : Type} (P : A -> B -> Prop) l l' (i : nat) d d' :
  Forall2 P l l' -> (i < List.length l)%nat -> P (nth i l d) (nth i l' d').
Proof.
  intros H. revert i. induction H as [|a b l l' Hab _ IH]; intros i Hi; simpl in *.
  - lia.
  - destruct i; [exact Hab | apply IH; lia].
Qed.

Lemma Forall2_length_eq {A B : Type} (P : A -> B -> Prop) l l' :
  Forall2 P l l' -> List.length l = List.length l'.
Proof. induction 1; simpl; congruence. Qed.


(** Whether [delta_n] returns does not depend on the numbers it is given,
    as long as an angle is given. *)
Lemma delta_n_returns_any_numbers s mode th w1 w2 wo T th' w1' w2' wo' T' :
  returns (delta_n s mode (Some th) w1 w2 wo T) ->
  returns (delta_n s mode (Some th') w1' w2' wo' T').
Proof.
  intros Hr.
  destruct (known_crystal (crystal_name (cfg s))) eqn:Hk.
  - apply not_raises_returns. apply returns_not_raises in Hr.
    rewrite delta_n_raises_characterised in * by exact Hk.
    intros [H|[H|[H|[H|[_ [H _]]]]]]; [| | | |discriminate];
      apply Hr; tauto.
  - exfalso. destruct Hr as [v Hv].
    unfold delta_n, delta_n_terms in Hv.
    rewrite (get_indices_unknown _ _ _ Hk) in Hv. discriminate.
Qed.

Lemma mapM_returns {A B : Type} (f : A -> exc B) (l : list A) :
  (forall a, returns (f a)) -> exists bs, mapM f l = Ok bs.
Proof.
  intros H. destruct (mapM_spec f l) as [bs [E _]]; [intros; apply H|].
  exists bs. exact E.
Qed.

(** What the three acceptance methods return. *)
Lemma acceptance_angle_inv s d m step res sc :
  acceptance_angle s d m step res = Ok sc ->
  exists deg dn,
    lookup m d = Some deg
    /\ scan_axis_of sc = scan_axis (deg2rad deg) step (res * 1e-3)
    /\ mapM (fun t => delta_n s m (Some t) None None None None)
            (scan_axis (deg2rad deg) step (res * 1e-3)) = Ok dn
    /\ scan_efficiency sc = map (efficiency_of s) dn.
Proof.
  unfold acceptance_angle, getitem_angle. intros H.
  destruct (lookup m d) as [deg|]; [|discriminate]. cbn [bind] in H.
  apply bind_Ok_inv in H as (dn & Edn & H). injection H as <-.
  exists deg, dn. repeat split; auto.
Qed.

Lemma acceptance_temperature_inv s d m step res sc :
  acceptance_temperature s d m step res = Ok sc ->
  exists deg dn,
    lookup m d = Some deg
    /\ scan_axis_of sc = scan_axis (temperature (cfg s)) step res
    /\ mapM (fun temp => delta_n s m (Some (deg2rad deg)) None None None (Some temp))
            (scan_axis (temperature (cfg s)) step res) = Ok dn
    /\ scan_efficiency sc = map (efficiency_of s) dn.
Proof.
  unfold acceptance_temperature, getitem_angle. intros H.
  destruct (lookup m d) as [deg|]; [|discriminate]. cbn [bind] in H.
  apply bind_Ok_inv in H as (dn & Edn & H). injection H as <-.
  exists deg, dn. repeat split; auto.
Qed.

Lemma acceptance_wavelength_inv s d m step res sc :
  acceptance_wavelength s d m step res = Ok sc ->
  exists deg dn,
    lookup m d = Some deg
    /\ scan_axis_of sc = scan_axis (wavelength1_nm (cfg s)) step res
    /\ mapM (fun wl =>
               let '(wl1, wl2, wl_out) := wavelength_sample s wl in
               delta_n s m (Some (deg2rad deg)) (Some wl1) (Some wl2) (Some wl_out) None)
            (scan_axis (wavelength1_nm (cfg s)) step res) = Ok dn
    /\ scan_efficiency sc = map (efficiency_of s) dn.
Proof.
  unfold acceptance_wavelength, getitem_angle, wavelength_sample. intros H.
  destruct (lookup m d) as [deg|]; [|discriminate]. cbn [bind] in H.
  apply bind_Ok_inv in H as (dn & Edn & H). injection H as <-.
  exists deg, dn. split; [reflexivity|]. split; [reflexivity|].
  split; [|reflexivity].
  destruct (process_type (cfg s)); exact Edn.
Qed.

Lemma acceptance_axis s d m step res deg acc nominal unit sc :
  In (acc, nominal, unit) (acceptance_variants s deg res) ->
  lookup m d = Some deg ->
  acc s d m step res = Ok sc ->
  scan_axis_of sc = scan_axis nominal step unit
  /\ exists dn,
       scan_efficiency sc = map (efficiency_of s) dn
       /\ List.length dn = List.length (scan_axis nominal step unit)
       /\ ((0 < step)%Z -> wavelengths_derived (cfg s) ->
           forall v, delta_n s m (Some (deg2rad deg)) None None None None = Ok v ->
                     nth (Z.to_nat step) dn 0 = v).
Proof.
  intros Hin Hdeg Hacc.
  simpl in Hin. destruct Hin as [H|[H|[H|[]]]]; injection H as <- <- <-.
  - apply acceptance_angle_inv in Hacc as (deg' & dn & Hl & Hax & Hm & He).
    assert (deg' = deg) by congruence. subst deg'.
    split; [exact Hax|]. exists dn. split; [exact He|].
    apply mapM_inv in Hm. split; [symmetry; eapply Forall2_length_eq; exact Hm|].
    intros Hs _ v Hv.
    pose proof (scan_axis_samples (deg2rad deg) step (res * 1e-3)) as Hsam.
    assert (Hi : (Z.to_nat step < List.length (scan_axis (deg2rad deg) step (res * 1e-3)))%nat)
      by (destruct Hsam as [-> _]; lia).
    pose proof (Forall2_nth _ _ _ _ 0 0 Hm Hi) as Hn. cbv beta in Hn.
    rewrite (axis_samples_nominal _ _ _ _ Hsam Hs) in Hn. congruence.
  - apply acceptance_wavelength_inv in Hacc as (deg' & dn & Hl & Hax & Hm & He).
    assert (deg' = deg) by congruence. subst deg'.
    split; [exact Hax|]. exists dn. split; [exact He|].
    apply mapM_inv in Hm. split; [symmetry; eapply Forall2_length_eq; exact Hm|].
    intros Hs Hder v Hv.
    pose proof (scan_axis_samples (wavelength1_nm (cfg s)) step res) as Hsam.
    assert (Hi : (Z.to_nat step < List.length (scan_axis (wavelength1_nm (cfg s)) step res))%nat)
      by (destruct Hsam as [-> _]; lia).
    pose proof (Forall2_nth _ _ _ _ 0 0 Hm Hi) as Hn. cbv beta in Hn.
    rewrite (axis_samples_nominal _ _ _ _ Hsam Hs) in Hn.
    unfold wavelength_sample, wavelengths_derived in *.
    destruct (process_type (cfg s)).
    + destruct Hder as [H2 Ho].
      rewrite <- Ho in Hn. rewrite <- H2 in Hn at 2.
      change (delta_n s m (Some (deg2rad deg)) None None None None
              = Ok (nth (Z.to_nat step) dn 0)) in Hn.
      congruence.
    + destruct Hder as [H1 Ho].
      replace (wavelength2_nm (cfg s) / wavelength1_nm (cfg s) * wavelength1_nm (cfg s))
        with (wavelength2_nm (cfg s)) in Hn by (field; exact H1).
      rewrite <- Ho in Hn.
      change (delta_n s m (Some (deg2rad deg)) None None None None
              = Ok (nth (Z.to_nat step) dn 0)) in Hn.
      congruence.
  - apply acceptance_temperature_inv in Hacc as (deg' & dn & Hl & Hax & Hm & He).
    assert (deg' = deg) by congruence. subst deg'.
    split; [exact Hax|]. exists dn. split; [exact He|].
    apply mapM_inv in Hm. split; [symmetry; eapply Forall2_length_eq; exact Hm|].
    intros Hs _ v Hv.
    pose proof (scan_axis_samples (temperature (cfg s)) step res) as Hsam.
    assert (Hi : (Z.to_nat step < List.length (scan_axis (temperature (cfg s)) step res))%nat)
      by (destruct Hsam as [-> _]; lia).
    pose proof (Forall2_nth _ _ _ _ 0 0 Hm Hi) as Hn. cbv beta in Hn.
    rewrite (axis_samples_nominal _ _ _ _ Hsam Hs) in Hn.
    change (delta_n s m (Some (deg2rad deg)) None None None None
            = Ok (nth (Z.to_nat step) dn 0)) in Hn.
    congruence.
Qed.

Lemma acceptance_returns s d m step res deg acc nominal unit th w1 w2 wo T :
  In (acc, nominal, unit) (acceptance_variants s deg res) ->
  lookup m d = Some deg ->
  returns (delta_n s m (Some th) w1 w2 wo T) ->
  returns (acc s d m step res).
Proof.
  intros Hin Hdeg Hr.
  simpl in Hin. destruct Hin as [H|[H|[H|[]]]]; injection H as <- <- <-.
  - unfold acceptance_angle, getitem_angle. rewrite Hdeg. cbn [bind].
    destruct (mapM_returns (fun t => delta_n s m (Some t) None None None None)
                (scan_axis (deg2rad deg) step (res * 1e-3))) as [dn ->].
    { intros a. eapply delta_n_returns_any_numbers; exact Hr. }
    eexists; reflexivity.
  - unfold acceptance_wavelength, getitem_angle. rewrite Hdeg. cbn [bind].
    destruct (process_type (cfg s)).
    + destruct (mapM_returns
                  (fun wl => delta_n s m (Some (deg2rad deg)) (Some wl) (Some wl)
                               (Some (wl / 2)) None)
                  (scan_axis (wavelength1_nm (cfg s)) step res)) as [dn ->].
      { intros a. eapply delta_n_returns_any_numbers; exact Hr. }
      eexists; reflexivity.
    + match goal with |- returns (bind (mapM ?f ?l) _) =>
        destruct (mapM_returns f l) as [dn ->] end.
      { intros a. eapply delta_n_returns_any_numbers; exact Hr. }
      eexists; reflexivity.
  - unfold acceptance_temperature, getitem_angle. rewrite Hdeg. cbn [bind].
    match goal with |- returns (bind (mapM ?f ?l) _) =>
      destruct (mapM_returns f l) as [dn ->] end.
    { intros a. eapply delta_n_returns_any_numbers; exact Hr. }
    eexists; reflexivity.
Qed.

Lemma scan_axis_In nominal step unit x :
  In x (scan_axis nominal step unit) ->
  exists i, (i < Z.to_nat (2 * step))%nat
            /\ x = nominal + (IZR (Z.of_nat i) - IZR step) * unit.
Proof.
  intros Hin. destruct (scan_axis_samples nominal step unit) as [Hlen Hnth].
  apply (In_nth _ _ 0) in Hin as (i & Hi & <-).
  exists i. rewrite Hlen in Hi. split; [exact Hi | apply Hnth; exact Hi].
Qed.

Lemma scan_axis_not_symmetric nominal step unit :
  (0 < step)%Z -> unit <> 0 ->
  ~ symmetric_about nominal (scan_axis nominal step unit).
Proof.
  intros Hs Hu Hsym.
  destruct (scan_axis_samples nominal step unit) as [Hlen Hnth].
  assert (H0 : In (nth 0 (scan_axis nominal step unit) 0) (scan_axis nominal step unit))
    by (apply nth_In; rewrite Hlen; lia).
  apply Hsym, scan_axis_In in H0 as (i & Hi & E).
  rewrite Hnth in E by lia. simpl (IZR (Z.of_nat 0)) in E.
  assert (E' : (IZR (Z.of_nat i) - 2 * IZR step) * unit = 0) by lra.
  apply Rmult_integral in E' as [E'|E']; [|contradiction].
  assert (IZR (Z.of_nat i) = IZR (2 * step)) by (rewrite mult_IZR; lra).
  apply eq_IZR in H. lia.
Qed.

(** C9 (as amended).  Each acceptance method (angle, wavelength,
    temperature) builds its axis as the samples [nominal + (i - step) * unit]
    for [i = 0 .. 2 * step - 1]: exactly [2 * step] samples with uniform
    spacing [unit] ([res] mrad for the angle, [res] for the two others);
    the first sample is [step] spacings below the nominal value (the critical
    angle, the configured first wavelength, the configured temperature), the
    sample of index [step] is the nominal value, and the last one is
    [step - 1] spacings above it. *)
Theorem acceptance_scan_axis s d m step res deg acc nominal unit sc :
  In (acc, nominal, unit) (acceptance_variants s deg res) ->
  lookup m d = Some deg ->
  acc s d m step res = Ok sc ->
  axis_samples (scan_axis_of sc) nominal step unit
  /\ ((0 <= step)%Z -> Z.of_nat (List.length (scan_axis_of sc)) = (2 * step)%Z)
  /\ (forall i, (S i < List.length (scan_axis_of sc))%nat ->
        nth (S i) (scan_axis_of sc) 0 - nth i (scan_axis_of sc) 0 = unit)
  /\ ((0 < step)%Z ->
      nth 0 (scan_axis_of sc) 0 = nominal - IZR step * unit
      /\ nth (Z.to_nat step) (scan_axis_of sc) 0 = nominal
      /\ last (scan_axis_of sc) 0 = nominal + (IZR step - 1) * unit).
Proof.
  intros Hin Hdeg Hacc.
  destruct (acceptance_axis _ _ _ _ _ _ _ _ _ _ Hin Hdeg Hacc) as [-> _].
  pose proof (scan_axis_samples nominal step unit) as Hsam.
  split; [exact Hsam|].
  destruct Hsam as [Hlen Hnth].
  split; [intros Hs; rewrite Hlen; lia|].
  split.
  { intros i Hi. apply (axis_samples_spacing _ nominal step).
    - split; assumption.
    - rewrite <- Hlen. exact Hi. }
  intros Hs. split; [|split].
  - rewrite Hnth by lia. simpl (IZR (Z.of_nat 0)). ring.
  - apply (axis_samples_nominal _ _ _ unit); [split; assumption | exact Hs].
  - assert (Hne : scan_axis nominal step unit <> []).
    { intros E. rewrite E in Hlen. cbn [List.length] in Hlen. lia. }
    destruct (exists_last Hne) as (l' & a & E).
    rewrite E, last_last.
    assert (Hl' : List.length l' = (Z.to_nat (2 * step) - 1)%nat).
    { rewrite E, length_app in Hlen. cbn [List.length] in Hlen. lia. }
    assert (Ha : nth (Z.to_nat (2 * step) - 1) (scan_axis nominal step unit) 0 = a).
    { rewrite E, app_nth2 by lia. rewrite Hl', Nat.sub_diag. reflexivity. }
    rewrite <- Ha, Hnth by lia.
    replace (IZR (Z.of_nat (Z.to_nat (2 * step) - 1))) with (2 * IZR step - 1).
    + ring.
    + rewrite Nat2Z.inj_sub by lia. rewrite Z2Nat.id by lia.
      rewrite minus_IZR, mult_IZR. simpl. ring.
Qed.


Lemma lbo_mismatch t0 theta T :
  delta_n (lbo_ncpm_solver t0) mode_zzy theta None None None T
  = Ok (lbo_offset + 5.0656e-6 * (in_effect T t0 - 20)).
Proof.
  unfold delta_n, delta_n_terms.
  change (get_indices (cfg (lbo_ncpm_solver t0)))
    with (fun w T' : option R =>
            Ok (_get_indices_lbo_fujing
                  (match w with
                   | None => wavelength_um (lbo_ncpm_cfg t0)
                   | Some w => w / 1000.0
                   end)
                  (match T' with
                   | None => temperature (lbo_ncpm_cfg t0) - 20.0
                   | Some t => t - 20.0
                   end))).
  cbv beta iota. cbn [bind].
  eval_in_goal (split_on ch_arrow mode_zzy). cbv iota.
  eval_in_goal (is_xyz_notation mode_zzy). cbv iota.
  repeat match goal with
         | |- context [extract_xyz_pol ?a] => eval_in_goal (extract_xyz_pol a)
         end.
  match goal with
  | |- context [split_on ch_plus ?a] => eval_in_goal (split_on ch_plus a)
  end.
  cbv iota.
  repeat match goal with
         | |- context [extract_xyz_pol ?a] => eval_in_goal (extract_xyz_pol a)
         end.
  repeat match goal with
         | |- context [xyz_to_key ?a] => eval_in_goal (xyz_to_key a)
         end.
  cbn [bind t_w1 t_w2 t_n1 t_n2 t_nout getitem].
  unfold _get_indices_lbo_fujing. cbn [n_y n_z].
  change (wavelength1_nm (cfg (lbo_ncpm_solver t0))) with 1064.
  change (wavelength2_nm (cfg (lbo_ncpm_solver t0))) with 1064.
  change (wavelength_out_nm (cfg (lbo_ncpm_solver t0))) with (1064 / 2).
  change (weight1 (lbo_ncpm_solver t0)) with 0.5.
  change (weight2 (lbo_ncpm_solver t0)) with 0.5.
  change (temperature (cfg (lbo_ncpm_solver t0))) with t0.
  unfold lbo_offset, in_effect. f_equal. destruct T; lra.
Qed.


Lemma sqrt_between (a lo hi : R) :
  0 <= lo -> lo * lo < a < hi * hi -> 0 <= hi -> lo < sqrt a < hi.
Proof.
  intros Hlo [H1 H2] Hhi.
  assert (0 <= lo * lo) by nra.
  split.
  - rewrite <- (sqrt_square lo Hlo). apply sqrt_lt_1_alt. lra.
  - rewrite <- (sqrt_square hi Hhi). apply sqrt_lt_1_alt. lra.
Qed.

(** The matching temperature of the example lies between 240 C and 241 C. *)
Lemma lbo_matching_temperature_bounds :
  240 < lbo_matching_temperature < 241.
Proof.
  unfold lbo_matching_temperature, lbo_offset.
  match goal with
  | |- context [sqrt ?a - sqrt ?b] =>
      assert (Ha : 1.6053788 < sqrt a < 1.6053789)
        by (apply sqrt_between; lra);
      assert (Hb : 1.6064959 < sqrt b < 1.6064960)
        by (apply sqrt_between; lra);
      set (x := sqrt a) in *; set (y := sqrt b) in *
  end.
  lra.
Qed.


Lemma kdp_acceptance_returns acc nominal unit :
  In (acc, nominal, unit) (acceptance_variants kdp_solver 41 0.1) ->
  exists sc,
    acc kdp_solver [(mode_ooe_1064, 41)] mode_ooe_1064 1000%Z 0.1 = Ok sc
    /\ scan_axis_of sc = scan_axis nominal 1000 unit.
Proof.
  intros Hin.
  destruct (acceptance_returns kdp_solver [(mode_ooe_1064, 41)] mode_ooe_1064
              1000%Z 0.1 41 acc nominal unit (PI / 4) None None None None Hin eq_refl)
    as [sc Hsc].
  { apply (mode_names_return kdp_cfg kdp_solver _ _ kdp_solver_init).
    left. reflexivity. }
  exists sc. split; [exact Hsc|].
  apply (acceptance_axis kdp_solver [(mode_ooe_1064, 41)] mode_ooe_1064
           1000%Z 0.1 41 acc nominal unit sc Hin eq_refl Hsc).
Qed.

Lemma acceptance_scan_axis_witness :
  exists sc,
    acceptance_temperature kdp_solver [(mode_ooe_1064, 41)] mode_ooe_1064
      1000 0.1 = Ok sc
    /\ axis_samples (scan_axis_of sc) 20 1000 0.1.
Proof.
  destruct (kdp_acceptance_returns acceptance_temperature 20 0.1
              (or_intror (or_intror (or_introl eq_refl)))) as (sc & Hsc & _).
  exists sc. split; [exact Hsc|].
  apply (acceptance_scan_axis kdp_solver [(mode_ooe_1064, 41)] mode_ooe_1064
           1000%Z 0.1 41 acceptance_temperature 20 0.1 sc
           (or_intror (or_intror (or_introl eq_refl))) eq_refl Hsc).
Defined.

(** C9, as stated, fails: with the default [step = 1000] and [res = 0.1] no
    axis of the three is symmetric around its nominal value (the lowest
    sample has no mirror image). *)
Lemma acceptance_axes_not_symmetric :
  (exists sc,
     acceptance_angle kdp_solver [(mode_ooe_1064, 41)] mode_ooe_1064
       1000 0.1 = Ok sc
     /\ ~ symmetric_about (deg2rad 41) (scan_axis_of sc))
  /\ (exists sc,
        acceptance_wavelength kdp_solver [(mode_ooe_1064, 41)] mode_ooe_1064
          1000 0.1 = Ok sc
        /\ ~ symmetric_about (wavelength1_nm (cfg kdp_solver)) (scan_axis_of sc))
  /\ (exists sc,
        acceptance_temperature kdp_solver [(mode_ooe_1064, 41)] mode_ooe_1064
          1000 0.1 = Ok sc
        /\ ~ symmetric_about (temperature (cfg kdp_solver)) (scan_axis_of sc)).
Proof.
  assert (Hv : forall acc nominal unit,
             In (acc, nominal, unit) (acceptance_variants kdp_solver 41 0.1) ->
             exists sc,
               acc kdp_solver [(mode_ooe_1064, 41)] mode_ooe_1064 1000%Z 0.1 = Ok sc
               /\ ~ symmetric_about nominal (scan_axis_of sc)).
  { intros acc nominal unit Hin.
    destruct (kdp_acceptance_returns acc nominal unit Hin) as (sc & Hsc & Hax).
    exists sc. split; [exact Hsc|]. rewrite Hax.
    apply scan_axis_not_symmetric; [lia|].
    simpl in Hin. destruct Hin as [H|[H|[H|[]]]]; injection H as _ _ <-; lra. }
  split; [|split].
  - apply (Hv _ _ _ (or_introl eq_refl)).
  - apply (Hv _ _ _ (or_intror (or_introl eq_refl))).
  - apply (Hv _ _ _ (or_intror (or_intror (or_introl eq_refl)))).
Qed.

(** ** The temperature scanner *)

(** *** The temperature grid *)

Lemma Zceil_lt x : IZR (Zceil x) < x + 1.
Proof.
  unfold Zceil. rewrite opp_IZR.
  pose proof (Zfloor_bound (- x)). lra.
Qed.

Lemma Zceil_eq z x : IZR z - 1 < x <= IZR z -> Zceil x = z.
Proof.
  intros H. unfold Zceil.
  rewrite (Zfloor_eq (- z)%Z); [lia|].
  rewrite opp_IZR. lra.
Qed.

Lemma arange_inv start stop step axis :
  arange start stop step = Ok axis ->
  step <> 0
  /\ axis = map (fun i => start + INR i * step)
                (seq 0 (Z.to_nat (Zceil ((stop - start) / step)))).
Proof.
  unfold arange. destruct (Req_dec_T step 0); [discriminate|].
  intros [= <-]. split; [assumption | reflexivity].
Qed.

Lemma arange_nth start stop step axis i :
  arange start stop step = Ok axis -> (i < List.length axis)%nat ->
  nth i axis 0 = start + INR i * step.
Proof.
  intros H Hi. apply arange_inv in H as [_ ->].
  rewrite length_map, length_seq in Hi.
  rewrite (nth_map_inside _ _ _ O) by (rewrite length_seq; exact Hi).
  rewrite seq_nth by exact Hi. reflexivity.
Qed.

Lemma arange_bounds start stop step axis i :
  arange start stop step = Ok axis -> 0 < step -> (i < List.length axis)%nat ->
  start <= nth i axis 0 < stop.
Proof.
  intros H Hs Hi. rewrite (arange_nth _ _ _ _ _ H Hi).
  apply arange_inv in H as [_ ->].
  rewrite length_map, length_seq in Hi.
  pose proof (pos_INR i) as H0.
  split; [nra|].
  set (q := (stop - start) / step) in *.
  assert (Hq : INR i < q).
  { pose proof (Zceil_lt q) as Hc.
    assert (Hle : (Z.of_nat i <= Zceil q - 1)%Z) by lia.
    apply IZR_le in Hle. rewrite minus_IZR, <- INR_IZR_INZ in Hle. lra. }
  assert (INR i * step < q * step) by (apply Rmult_lt_compat_r; assumption).
  unfold q in *. replace ((stop - start) / step * step) with (stop - start) in *
    by (field; lra).
  lra.
Qed.

(** *** The loop over the adjacent pairs *)

Lemma find_matching_pairs T pm t :
  In t (find_matching T pm) ->
  exists i,
    (S i < List.length T)%nat /\ (S i < List.length pm)%nat
    /\ sign_change (nth i pm 0) (nth (S i) pm 0)
    /\ Rabs (nth (S i) pm 0 - nth i pm 0) > 1e-10
    /\ t = interpolate (nth i T 0) (nth (S i) T 0) (nth i pm 0) (nth (S i) pm 0).
Proof.
  revert pm. induction T as [|t0 T IH]; intros pm Hin; [contradiction|].
  destruct T as [|t1 T]; [destruct pm; contradiction|].
  destruct pm as [|p0 [|p1 pm]]; try contradiction.
  change (In t ((if Rle_dec (p0 * p1) 0
                 then if Rgt_dec (Rabs (p1 - p0)) 1e-10
                      then [t0 - p0 * (t1 - t0) / (p1 - p0)] else []
                 else []) ++ find_matching (t1 :: T) (p1 :: pm))) in Hin.
  apply in_app_or in Hin as [Hin|Hin].
  - destruct (Rle_dec (p0 * p1) 0) as [Hs|]; [|contradiction].
    destruct (Rgt_dec (Rabs (p1 - p0)) 1e-10) as [Hg|]; [|contradiction].
    destruct Hin as [<-|[]].
    exists O. simpl. repeat split; auto; lia.
  - destruct (IH _ Hin) as (i & H1 & H2 & H3 & H4 & H5).
    exists (S i). simpl in *. repeat split; auto; lia.
Qed.

Lemma flat_map_seq_shift {A : Type} (f : nat -> list A) (a n : nat) :
  flat_map f (seq (S a) n) = flat_map (fun i => f (S i)) (seq a n).
Proof.
  revert a. induction n as [|n IH]; intros a; [reflexivity|].
  simpl. rewrite IH. reflexivity.
Qed.

Lemma find_matching_bracket_roots T pm :
  List.length T = List.length pm ->
  find_matching T pm = bracket_roots T pm.
Proof.
  revert pm. induction T as [|t0 T IH]; intros pm Hlen.
  - destruct pm; [reflexivity | discriminate].
  - destruct pm as [|p0 pm]; [discriminate|].
    injection Hlen as Hlen.
    destruct T as [|t1 T].
    + destruct pm; [reflexivity | discriminate].
    + destruct pm as [|p1 pm]; [discriminate|].
      change (find_matching (t0 :: t1 :: T) (p0 :: p1 :: pm))
        with ((if Rle_dec (p0 * p1) 0
               then if Rgt_dec (Rabs (p1 - p0)) 1e-10
                    then [t0 - p0 * (t1 - t0) / (p1 - p0)] else []
               else []) ++ find_matching (t1 :: T) (p1 :: pm)).
      rewrite (IH (p1 :: pm) Hlen).
      unfold bracket_roots.
      cbn [List.length]. rewrite !Nat.sub_succ, !Nat.sub_0_r.
      change (seq 0 (S (List.length pm))) with (0%nat :: seq 1 (List.length pm)).
      cbn [flat_map]. f_equal.
      rewrite flat_map_seq_shift. reflexivity.
Qed.

Lemma interpolate_between t0 t1 p0 p1 :
  sign_change p0 p1 -> p1 <> p0 ->
  Rmin t0 t1 <= interpolate t0 t1 p0 p1 <= Rmax t0 t1.
Proof.
  unfold sign_change, interpolate. intros Hs Hne.
  set (lam := - p0 / (p1 - p0)).
  assert (Hlam : 0 <= lam <= 1).
  { unfold lam. destruct (Rtotal_order p0 p1) as [H|[H|H]]; [|congruence|].
    - assert (p0 <= 0) by nra. assert (0 <= p1) by nra.
      split.
      + apply Rmult_le_pos; [lra|]. left. apply Rinv_0_lt_compat. lra.
      + apply (Rmult_le_reg_r (p1 - p0)); [lra|].
        unfold Rdiv. rewrite Rmult_assoc, Rinv_l by lra. lra.
    - assert (0 <= p0) by nra. assert (p1 <= 0) by nra.
      replace (- p0 / (p1 - p0)) with (p0 / (p0 - p1)) by (field; lra).
      split.
      + apply Rmult_le_pos; [lra|]. left. apply Rinv_0_lt_compat. lra.
      + apply (Rmult_le_reg_r (p0 - p1)); [lra|].
        unfold Rdiv. rewrite Rmult_assoc, Rinv_l by lra. lra. }
  replace (t0 - p0 * (t1 - t0) / (p1 - p0)) with (t0 + lam * (t1 - t0))
    by (unfold lam; field; lra).
  unfold Rmin, Rmax. destruct (Rle_dec t0 t1); nra.
Qed.

Lemma temperature_phase_matching_inv s mode tmin tmax step res :
  temperature_phase_matching s mode tmin tmax step = Ok res ->
  arange tmin (tmax + step) step = Ok (temperature_axis_of res)
  /\ mapM (fun temp => delta_n s mode None None None None (Some temp))
          (temperature_axis_of res) = Ok (phase_mismatch_of res)
  /\ matching_temperatures res
     = find_matching (temperature_axis_of res) (phase_mismatch_of res).
Proof.
  unfold temperature_phase_matching. intros H.
  apply bind_Ok_inv in H as (axis & Ha & H).
  apply bind_Ok_inv in H as (pm & Hp & H).
  apply bind_Ok_inv in H as (lo & _ & H).
  apply bind_Ok_inv in H as (hi & _ & H).
  injection H as <-. cbn. repeat split; assumption.
Qed.

Lemma pair_root_reported T pm i :
  sign_change (nth i pm 0) (nth (S i) pm 0) ->
  Rabs (nth (S i) pm 0 - nth i pm 0) > 1e-10 ->
  pair_root T pm i
  = [interpolate (nth i T 0) (nth (S i) T 0) (nth i pm 0) (nth (S i) pm 0)].
Proof.
  unfold pair_root, sign_change. intros Hs Hg.
  destruct (Rle_dec _ 0); [|contradiction].
  destruct (Rgt_dec _ 1e-10); [reflexivity | contradiction].
Qed.

(** C8 (as amended).  The result of the scanner carries the full
    temperature grid and the mismatch of the mode at each of its samples.
    Its list of matching temperatures holds, in the order of the grid, one
    linearly interpolated temperature for every adjacent pair of samples
    whose mismatch values change sign (a zero value included) and differ by
    more than 1e-10, and nothing else; it is empty when the mismatch is
    strictly positive over the whole grid. *)
Theorem temperature_scan_reports s mode tmin tmax step res :
  temperature_phase_matching s mode tmin tmax step = Ok res ->
  let axis := temperature_axis_of res in
  let pm := phase_mismatch_of res in
  arange tmin (tmax + step) step = Ok axis
  /\ Forall2 (fun T p => delta_n s mode None None None None (Some T) = Ok p)
             axis pm
  /\ matching_temperatures res = bracket_roots axis pm
  /\ (forall i, (S i < List.length pm)%nat ->
        sign_change (nth i pm 0) (nth (S i) pm 0) ->
        Rabs (nth (S i) pm 0 - nth i pm 0) > 1e-10 ->
        In (interpolate (nth i axis 0) (nth (S i) axis 0)
                        (nth i pm 0) (nth (S i) pm 0))
           (matching_temperatures res))
  /\ (forall t, In t (matching_temperatures res) ->
        exists i, (S i < List.length pm)%nat
                  /\ sign_change (nth i pm 0) (nth (S i) pm 0)
                  /\ t = interpolate (nth i axis 0) (nth (S i) axis 0)
                                     (nth i pm 0) (nth (S i) pm 0))
  /\ ((forall p, In p pm -> 0 < p) -> matching_temperatures res = []).
Proof.
  intros H axis pm.
  destruct (temperature_phase_matching_inv _ _ _ _ _ _ H) as (Ha & Hp & Hm).
  fold axis pm in Ha, Hp, Hm.
  apply mapM_inv in Hp.
  assert (Hlen : List.length axis = List.length pm)
    by (eapply Forall2_length_eq; exact Hp).
  split; [exact Ha|]. split; [exact Hp|].
  split; [rewrite Hm; apply find_matching_bracket_roots; exact Hlen|].
  split; [|split].
  - intros i Hi Hs Hg.
    rewrite Hm, (find_matching_bracket_roots _ _ Hlen).
    unfold bracket_roots. apply in_flat_map.
    exists i. split; [apply in_seq; lia|].
    rewrite (pair_root_reported _ _ _ Hs Hg). left. reflexivity.
  - intros t Ht. rewrite Hm in Ht.
    apply find_matching_pairs in Ht as (i & _ & Hi & Hs & _ & Et).
    exists i. repeat split; assumption.
  - intros Hpos.
    destruct (matching_temperatures res) as [|t l] eqn:E; [reflexivity|].
    exfalso.
    assert (Ht : In t (find_matching axis pm)) by (rewrite <- Hm; left; reflexivity).
    apply find_matching_pairs in Ht as (i & _ & Hi & Hs & _).
    assert (0 < nth i pm 0) by (apply Hpos, nth_In; lia).
    assert (0 < nth (S i) pm 0) by (apply Hpos, nth_In; lia).
    unfold sign_change in Hs. nra.
Qed.

(** C10.  Every matching temperature returned by the scanner lies between
    the two temperatures of an adjacent pair of the grid; for a positive
    step it is at least the lower and at most the upper sample of the pair,
    hence at least [temp_min] and below [temp_max + temp_step]. *)
Theorem matching_temperature_in_bracket s mode tmin tmax step res t :
  temperature_phase_matching s mode tmin tmax step = Ok res ->
  In t (matching_temperatures res) ->
  let axis := temperature_axis_of res in
  exists i,
    (S i < List.length axis)%nat
    /\ Rmin (nth i axis 0) (nth (S i) axis 0) <= t
       <= Rmax (nth i axis 0) (nth (S i) axis 0)
    /\ (0 < step ->
        nth i axis 0 <= t <= nth (S i) axis 0
        /\ tmin <= t < tmax + step).
Proof.
  intros H Ht axis.
  destruct (temperature_phase_matching_inv _ _ _ _ _ _ H) as (Ha & Hp & Hm).
  fold axis in Ha, Hp, Hm.
  rewrite Hm in Ht.
  apply find_matching_pairs in Ht as (i & Hi & _ & Hs & Hg & ->).
  exists i. split; [exact Hi|].
  assert (Hne : nth (S i) (phase_mismatch_of res) 0 <> nth i (phase_mismatch_of res) 0).
  { intros E. rewrite E, Rminus_diag, Rabs_R0 in Hg. lra. }
  pose proof (interpolate_between (nth i axis 0) (nth (S i) axis 0) _ _ Hs Hne) as Hb.
  split; [exact Hb|].
  intros Hstep.
  assert (Hi0 : (i < List.length axis)%nat) by lia.
  pose proof (arange_bounds _ _ _ _ _ Ha Hstep Hi0) as B0.
  pose proof (arange_bounds _ _ _ _ _ Ha Hstep Hi) as B1.
  assert (Hord : nth i axis 0 <= nth (S i) axis 0).
  { rewrite (arange_nth _ _ _ _ _ Ha Hi0), (arange_nth _ _ _ _ _ Ha Hi), S_INR. nra. }
  rewrite Rmin_left, Rmax_right in Hb by exact Hord.
  split; [exact Hb | lra].
Qed.

(** *** The scan of the LBO mode *)

Lemma mapM_Ok_map {A B : Type} (f : A -> exc B) (g : A -> B) (l : list A) :
  (forall a, f a = Ok (g a)) -> mapM f l = Ok (map g l).
Proof.
  intros H. induction l as [|a l IH]; [reflexivity|].
  simpl. rewrite H, IH. reflexivity.
Qed.

Lemma lbo_scan t0 tmin tmax step axis :
  arange tmin (tmax + step) step = Ok axis -> axis <> [] ->
  exists res,
    temperature_phase_matching (lbo_ncpm_solver t0) mode_zzy tmin tmax step = Ok res
    /\ temperature_axis_of res = axis
    /\ phase_mismatch_of res = map lbo_mismatch_at axis
    /\ matching_temperatures res
       = find_matching axis (map lbo_mismatch_at axis).
Proof.
  intros Ha Hne. unfold temperature_phase_matching. rewrite Ha. cbn [bind].
  rewrite (mapM_Ok_map _ lbo_mismatch_at)
    by (intros T; rewrite lbo_mismatch; reflexivity).
  cbn [bind].
  destruct axis as [|a axis]; [contradiction|].
  cbn [map array_min array_max bind].
  eexists. split; [reflexivity|]. cbn. repeat split; reflexivity.
Qed.

Lemma arange_two_samples start stop step :
  0 < step -> start + step < stop <= start + 2 * step ->
  arange start stop step = Ok [start + INR 0 * step; start + INR 1 * step].
Proof.
  intros Hs Hr. unfold arange.
  destruct (Req_dec_T step 0) as [E|_]; [lra|].
  rewrite (Zceil_eq 2); [reflexivity|].
  split.
  - apply (Rmult_lt_reg_r step); [assumption|].
    unfold Rdiv. rewrite Rmult_assoc, Rinv_l by lra. lra.
  - apply (Rmult_le_reg_r step); [assumption|].
    unfold Rdiv. rewrite Rmult_assoc, Rinv_l by lra. lra.
Qed.

Lemma lbo_mismatch_near_root (dT : R) :
  lbo_mismatch_at (lbo_matching_temperature + dT) = 5.0656e-6 * dT.
Proof. unfold lbo_mismatch_at, lbo_matching_temperature. lra. Qed.

(** C8, as stated, fails: for LBO and the mode Z + Z -> Y, the scan from
    5e-6 below the matching temperature with step 1e-5 has two samples whose
    mismatch values, -2.5328e-11 and 2.5328e-11, change sign, and reports no
    matching temperature. *)
Lemma flat_pair_not_reported :
  exists res,
    temperature_phase_matching (lbo_ncpm_solver 20) mode_zzy
      (lbo_matching_temperature - 5e-6) lbo_matching_temperature 1e-5
    = Ok res
    /\ temperature_axis_of res
       = [lbo_matching_temperature - 5e-6; lbo_matching_temperature + 5e-6]
    /\ phase_mismatch_of res = [- 2.5328e-11; 2.5328e-11]
    /\ sign_change (nth 0 (phase_mismatch_of res) 0)
                   (nth 1 (phase_mismatch_of res) 0)
    /\ matching_temperatures res = [].
Proof.
  set (T := lbo_matching_temperature).
  assert (Ha : arange (T - 5e-6) (T + 1e-5) 1e-5 = Ok [T - 5e-6; T + 5e-6]).
  { rewrite arange_two_samples by lra. simpl INR.
    f_equal. f_equal; [lra | f_equal; lra]. }
  destruct (lbo_scan 20 (T - 5e-6) T 1e-5 _ Ha ltac:(discriminate))
    as (res & Hres & Hax & Hpm & Hm).
  assert (E0 : lbo_mismatch_at (T - 5e-6) = - 2.5328e-11).
  { replace (T - 5e-6) with (T + - 5e-6) by lra.
    unfold T. rewrite lbo_mismatch_near_root. lra. }
  assert (E1 : lbo_mismatch_at (T + 5e-6) = 2.5328e-11).
  { unfold T. rewrite lbo_mismatch_near_root. lra. }
  cbn [map] in Hpm, Hm. rewrite E0, E1 in Hpm, Hm.
  exists res. split; [exact Hres|]. split; [exact Hax|]. split; [exact Hpm|].
  split.
  - rewrite Hpm. unfold sign_change. cbn [nth]. lra.
  - rewrite Hm. unfold find_matching.
    destruct (Rle_dec (- 2.5328e-11 * 2.5328e-11) 0) as [_|H];
      [|exfalso; lra].
    destruct (Rgt_dec (Rabs (2.5328e-11 - - 2.5328e-11)) 1e-10) as [H|_];
      [|reflexivity].
    exfalso. rewrite Rabs_right in H by lra. lra.
Qed.

(** The scan of one degree around the matching temperature finds it. *)
Lemma lbo_unit_scan :
  exists res,
    temperature_phase_matching (lbo_ncpm_solver 20) mode_zzy
      (lbo_matching_temperature - 0.5) (lbo_matching_temperature + 0.5) 1
    = Ok res
    /\ temperature_axis_of res
       = [lbo_matching_temperature - 0.5; lbo_matching_temperature + 0.5]
    /\ matching_temperatures res = [lbo_matching_temperature].
Proof.
  set (T := lbo_matching_temperature).
  assert (Ha : arange (T - 0.5) (T + 0.5 + 1) 1 = Ok [T - 0.5; T + 0.5]).
  { rewrite arange_two_samples by lra. simpl INR.
    f_equal. f_equal; [lra | f_equal; lra]. }
  destruct (lbo_scan 20 (T - 0.5) (T + 0.5) 1 _ Ha ltac:(discriminate))
    as (res & Hres & Hax & Hpm & Hm).
  assert (E0 : lbo_mismatch_at (T - 0.5) = - 2.5328e-6).
  { replace (T - 0.5) with (T + - 0.5) by lra.
    unfold T. rewrite lbo_mismatch_near_root. lra. }
  assert (E1 : lbo_mismatch_at (T + 0.5) = 2.5328e-6).
  { unfold T. rewrite lbo_mismatch_near_root. lra. }
  cbn [map] in Hm. rewrite E0, E1 in Hm.
  exists res. split; [exact Hres|]. split; [exact Hax|].
  rewrite Hm. unfold find_matching.
  destruct (Rle_dec (- 2.5328e-6 * 2.5328e-6) 0) as [_|H]; [|exfalso; lra].
  destruct (Rgt_dec (Rabs (2.5328e-6 - - 2.5328e-6)) 1e-10) as [_|H].
  - cbn [app]. f_equal. lra.
  - exfalso. apply H. rewrite Rabs_right by lra. lra.
Qed.

Lemma temperature_scan_reports_witness :
  exists res,
    temperature_phase_matching (lbo_ncpm_solver 20) mode_zzy
      (lbo_matching_temperature - 0.5) (lbo_matching_temperature + 0.5) 1
    = Ok res
    /\ matching_temperatures res
       = bracket_roots (temperature_axis_of res) (phase_mismatch_of res).
Proof.
  destruct lbo_unit_scan as (res & Hres & _).
  exists res. split; [exact Hres|].
  destruct (temperature_scan_reports _ _ _ _ _ _ Hres) as (_ & _ & H & _).
  exact H.
Defined.

Lemma matching_temperature_in_bracket_witness :
  exists res,
    temperature_phase_matching (lbo_ncpm_solver 20) mode_zzy
      (lbo_matching_temperature - 0.5) (lbo_matching_temperature + 0.5) 1
    = Ok res
    /\ In lbo_matching_temperature (matching_temperatures res)
    /\ lbo_matching_temperature - 0.5 <= lbo_matching_temperature
       < lbo_matching_temperature + 0.5 + 1.
Proof.
  destruct lbo_unit_scan as (res & Hres & _ & Hm).
  assert (Hin : In lbo_matching_temperature (matching_temperatures res))
    by (rewrite Hm; left; reflexivity).
  exists res. split; [exact Hres|]. split; [exact Hin|].
  destruct (matching_temperature_in_bracket _ _ _ _ _ _ _ Hres Hin)
    as (i & _ & _ & Hb).
  destruct (Hb ltac:(lra)) as [_ Hrange]. exact Hrange.
Defined.

(* ================================================================== *)
(** * Further properties of the program *)

(** ** The configuration *)

Lemma known_crystal_names (name : string) :
  known_crystal name = true
  <-> In name ["BBO"; "KDP"; "DKDP"; "CLBO"; "LBO"; "KTP"]%string.
Proof.
  unfold known_crystal. rewrite !orb_true_iff, !String.eqb_eq. simpl.
  intuition congruence.
Qed.


(** X1.  The constructor derives the second and the output wavelength from
    its arguments.  For positive wavelengths: the second wavelength is the
    first one for SHG (whatever [wavelength2] is given) and when no
    [wavelength2] is given, and the output is then half the first; for SFG it
    is the given [wavelength2].  In every case the three wavelengths satisfy
    1/out = 1/w1 + 1/w2, and the output wavelength is positive and shorter
    than both inputs. *)
Theorem SimulationConfig_init_wavelengths (name : string) (w T : R)
    (pl : string) (proc : process) (w2 : option R) (src : string) :
  0 < w -> (forall x, w2 = Some x -> 0 < x) ->
  let c := SimulationConfig_init name w T pl proc w2 src in
  wavelength1_nm c = w
  /\ (proc = SHG \/ w2 = None ->
      wavelength2_nm c = w /\ wavelength_out_nm c = w / 2)
  /\ (forall x, proc = SFG -> w2 = Some x -> wavelength2_nm c = x)
  /\ 1 / wavelength_out_nm c = 1 / wavelength1_nm c + 1 / wavelength2_nm c
  /\ 0 < wavelength_out_nm c < Rmin (wavelength1_nm c) (wavelength2_nm c)
  /\ wavelength_out_um c = wavelength_out_nm c / 1000.
Proof.
  intros Hw Hw2 c.
  assert (Hsum : forall a b, 0 < a -> 0 < b ->
            1 / (1 / a + 1 / b) = a * b / (a + b)) by (intros; field; lra).
  assert (Hlt : forall a b, 0 < a -> 0 < b ->
            0 < a * b / (a + b) < Rmin a b).
  { intros a b Ha Hb.
    assert (0 < a * b) by nra.
    assert (0 < a + b) by lra.
    split; [apply Rdiv_lt_0_compat; assumption|].
    apply Rmin_glb_lt; apply Rmult_lt_reg_r with (a + b); try assumption;
      unfold Rdiv; rewrite Rmult_assoc, Rinv_l by lra; nra. }
  split; [reflexivity|].
  split.
  { intros [-> | ->]; subst c; cbn.
    - destruct w2; split; reflexivity.
    - split; [reflexivity|]. destruct proc; [reflexivity|].
      rewrite Hsum by assumption. field; lra. }
  split; [intros x -> ->; reflexivity|].
  split.
  { assert (Hinv : forall a b, 0 < a -> 0 < b ->
              1 / (1 / (1 / a + 1 / b)) = 1 / a + 1 / b).
    { intros a b Ha Hb. rewrite Hsum by assumption. field. repeat split; lra. }
    subst c; cbn. destruct proc.
    - assert (E : match w2 with Some _ => w | None => w end = w) by (destruct w2; reflexivity).
      rewrite E. field; lra.
    - destruct w2 as [x|].
      + pose proof (Hw2 x eq_refl). apply Hinv; assumption.
      + apply Hinv; assumption. }
  split; [|subst c; cbn; lra].
  subst c; cbn. destruct proc.
  - assert (E : match w2 with Some _ => w | None => w end = w) by (destruct w2; reflexivity).
    rewrite E. rewrite Rmin_left by lra. lra.
  - destruct w2 as [x|].
    + pose proof (Hw2 x eq_refl). rewrite Hsum by assumption. auto.
    + rewrite Hsum by assumption. auto.
Qed.

Lemma SimulationConfig_init_wavelengths_witness :
  let c := SimulationConfig_init "LBO" 1064 20 "XY" SFG (Some 532) default_source in
  wavelength1_nm c = 1064
  /\ 1 / wavelength_out_nm c = 1 / wavelength1_nm c + 1 / wavelength2_nm c
  /\ 0 < wavelength_out_nm c < Rmin (wavelength1_nm c) (wavelength2_nm c).
Proof.
  assert (H1 : 0 < 1064) by lra.
  assert (H2 : forall x, Some 532 = Some x -> 0 < x) by (intros x [= <-]; lra).
  destruct (SimulationConfig_init_wavelengths "LBO" 1064 20 "XY" SFG (Some 532)
              default_source H1 H2) as (A & _ & _ & B & C & _).
  exact (conj A (conj B C)).
Defined.


(** X3.  The four uniaxial crystals have equal indices along x and y at
    every wavelength and temperature, with either set of formulas. *)
Theorem get_indices_uniaxial (c : SimulationConfig) (w t : option R) (i : indices) :
  In (crystal_name c) ["BBO"; "KDP"; "DKDP"; "CLBO"]%string ->
  get_indices c w t = Ok i -> n_x i = n_y i.
Proof.
  simpl. unfold get_indices, _get_indices_default.
  intros [H|[H|[H|[H|[]]]]]; rewrite <- H; cbn [String.eqb Ascii.eqb Bool.eqb];
    try (destruct (String.eqb (sellmeier_source c) fujing));
    intros [= <-]; reflexivity.
Qed.

Lemma get_indices_uniaxial_witness :
  exists i, get_indices kdp_cfg None None = Ok i /\ n_x i = n_y i.
Proof.
  eexists. split; [reflexivity|].
  apply (get_indices_uniaxial kdp_cfg None None); [simpl; auto | reflexivity].
Defined.

Lemma get_indices_kdp_any_temperature (c : SimulationConfig) (w T T' : option R) :
  In (crystal_name c) ["KDP"; "DKDP"]%string ->
  get_indices c w T = get_indices c w T'.
Proof.
  simpl. unfold get_indices, _get_indices_default.
  intros [H|[H|[]]]; rewrite <- H; reflexivity.
Qed.

Lemma get_indices_kdp_delta_n (s : Solver) (mode : pystr)
    (theta w1 w2 wo T T' : option R) :
  In (crystal_name (cfg s)) ["KDP"; "DKDP"]%string ->
  delta_n s mode theta w1 w2 wo T = delta_n s mode theta w1 w2 wo T'.
Proof.
  intros H. unfold delta_n, delta_n_terms.
  rewrite !(get_indices_kdp_any_temperature (cfg s) _
              (Some match T with Some t => t | None => temperature (cfg s) end)
              (Some match T' with Some t => t | None => temperature (cfg s) end) H).
  reflexivity.
Qed.

(** X4.  The formulas of KDP and DKDP have no thermal term: the indices, and
    with them the phase mismatch of every mode, are the same at every
    temperature. *)
Theorem kdp_temperature_independent (s : Solver) (mode : pystr)
    (theta w1 w2 wo T T' : option R) :
  In (crystal_name (cfg s)) ["KDP"; "DKDP"]%string ->
  (forall w, get_indices (cfg s) w T = get_indices (cfg s) w T')
  /\ delta_n s mode theta w1 w2 wo T = delta_n s mode theta w1 w2 wo T'.
Proof.
  intros H. split; [intros w; apply get_indices_kdp_any_temperature; exact H|].
  apply get_indices_kdp_delta_n. exact H.
Qed.

Lemma kdp_temperature_independent_witness :
  delta_n kdp_solver mode_ooe_1064 (Some 0) None None None (Some 20)
  = delta_n kdp_solver mode_ooe_1064 (Some 0) None None None (Some 150).
Proof.
  apply (kdp_temperature_independent kdp_solver mode_ooe_1064 (Some 0) None None None
           (Some 20) (Some 150)).
  simpl. auto.
Defined.

(** X5.  The label of the formula source is read for CLBO and LBO only, and
    only as equal to the one label that selects the second set of formulas or
    not: two configurations that differ in the source alone give the same
    indices when the crystal is another one, or when neither label is that
    one. *)
Theorem sellmeier_source_fallback (c c' : SimulationConfig) (w t : option R) :
  crystal_name c' = crystal_name c ->
  wavelength_um c' = wavelength_um c ->
  temperature c' = temperature c ->
  ~ In (crystal_name c) ["CLBO"; "LBO"]%string
  \/ (sellmeier_source c <> fujing /\ sellmeier_source c' <> fujing) ->
  get_indices c' w t = get_indices c w t.
Proof.
  intros Hn Hw Ht H. unfold get_indices. rewrite Hn, Hw, Ht.
  destruct (String.eqb_spec (crystal_name c) "CLBO") as [E1|E1].
  { destruct H as [H|[H H']]; [exfalso; apply H; simpl; auto|].
    apply String.eqb_neq in H, H'. rewrite H, H'. reflexivity. }
  destruct (String.eqb_spec (crystal_name c) "LBO") as [E2|E2].
  { destruct H as [H|[H H']]; [exfalso; apply H; simpl; auto|].
    apply String.eqb_neq in H, H'. rewrite H, H'. reflexivity. }
  reflexivity.
Qed.

Lemma sellmeier_source_fallback_witness :
  get_indices (SimulationConfig_init "LBO" 1064 20 "XY" SHG None "Thorlabs") None None
  = get_indices (SimulationConfig_init "LBO" 1064 20 "XY" SHG None default_source) None None.
Proof.
  apply sellmeier_source_fallback; try reflexivity.
  right. split; intros H; vm_compute in H; discriminate H.
Defined.

(** ** The constructor of the solver *)




(** X7.  For a configuration built from positive wavelengths, the two
    weights set by the constructor of the solver lie strictly between zero
    and one and add up to one; for SFG, each weight times the wavelength of
    its input beam is the output wavelength. *)
Theorem Solver_init_weights (name : string) (w T : R) (pl : string)
    (proc : process) (w2 : option R) (src : string) (s : Solver) :
  0 < w -> (forall x, w2 = Some x -> 0 < x) ->
  Solver_init (SimulationConfig_init name w T pl proc w2 src) = Ok s ->
  weight1 s + weight2 s = 1
  /\ 0 < weight1 s < 1 /\ 0 < weight2 s < 1
  /\ (proc = SFG ->
      weight1 s * wavelength1_nm (cfg s) = wavelength_out_nm (cfg s)
      /\ weight2 s * wavelength2_nm (cfg s) = wavelength_out_nm (cfg s)).
Proof.
  intros Hw Hw2 Hs.
  destruct (Solver_init_inv _ _ Hs) as (_ & Hc & _ & _ & Hwt).
  rewrite Hc.
  set (a := wavelength1_nm (SimulationConfig_init name w T pl proc w2 src)) in *.
  set (b := wavelength2_nm (SimulationConfig_init name w T pl proc w2 src)) in *.
  set (o := wavelength_out_nm (SimulationConfig_init name w T pl proc w2 src)) in *.
  assert (Ha : 0 < a) by exact Hw.
  assert (Hb : 0 < b).
  { subst b. cbn. destruct w2 as [x|]; [destruct proc|]; auto. }
  destruct proc; cbn [process_type SimulationConfig_init] in Hwt.
  - destruct Hwt as [-> ->]. repeat split; try lra; discriminate.
  - destruct Hwt as [-> ->].
    assert (Ho : o = a * b / (a + b)).
    { subst o a b. cbn. destruct w2 as [x|]; cbn in *; field; repeat split; lra. }
    assert (E1 : o / a = b / (a + b)) by (rewrite Ho; field; lra).
    assert (E2 : o / b = a / (a + b)) by (rewrite Ho; field; lra).
    assert (Hab : 0 < / (a + b)) by (apply Rinv_0_lt_compat; lra).
    assert (F1 : b / (a + b) + a / (a + b) = 1) by (field; lra).
    assert (P1 : 0 < b / (a + b)) by (apply Rdiv_lt_0_compat; lra).
    assert (P2 : 0 < a / (a + b)) by (apply Rdiv_lt_0_compat; lra).
    rewrite E1, E2.
    repeat split; try lra; intros _; rewrite <- ?E1, <- ?E2; field; lra.
Qed.

Lemma Solver_init_weights_witness :
  weight1 lbo_sfg_solver + weight2 lbo_sfg_solver = 1
  /\ 0 < weight1 lbo_sfg_solver < 1 /\ 0 < weight2 lbo_sfg_solver < 1.
Proof.
  assert (H1 : 0 < 1064) by lra.
  assert (H2 : forall x, Some 532 = Some x -> 0 < x) by (intros x [= <-]; lra).
  destruct (Solver_init_weights "LBO" 1064 20 "XY" SFG (Some 532) default_source
              lbo_sfg_solver H1 H2 lbo_sfg_solver_init) as (A & B & C & _).
  exact (conj A (conj B C)).
Defined.

(** ** The index of the extraordinary ray *)

Lemma ne_func_sq (n_cos n_sin theta : R) :
  0 < n_cos -> 0 < n_sin ->
  0 < ne_func n_cos n_sin theta
  /\ ne_func n_cos n_sin theta ^ 2
     = n_cos ^ 2 * n_sin ^ 2 / ne_denom n_cos n_sin theta.
Proof.
  intros Hc Hs.
  pose proof (denom_pos n_cos n_sin Hc Hs theta) as HD.
  assert (Hq : 0 < n_cos ^ 2 * n_sin ^ 2 / ne_denom n_cos n_sin theta).
  { apply Rdiv_lt_0_compat; [|exact HD].
    apply Rmult_lt_0_compat; apply pow_lt; assumption. }
  unfold ne_func. fold (ne_denom n_cos n_sin theta).
  split; [apply sqrt_lt_R0; exact Hq|].
  rewrite pow2_sqrt by lra. reflexivity.
Qed.

(** X8.  For positive principal indices the value of [ne_func] satisfies the
    equation of the index ellipse with [n_sin] under the cosine and [n_cos]
    under the sine, and at every angle it lies between the two principal
    indices. *)
Theorem ne_func_ellipse (n_cos n_sin theta : R) :
  0 < n_cos -> 0 < n_sin ->
  1 / ne_func n_cos n_sin theta ^ 2
  = cos theta ^ 2 / n_sin ^ 2 + sin theta ^ 2 / n_cos ^ 2
  /\ Rmin n_cos n_sin <= ne_func n_cos n_sin theta <= Rmax n_cos n_sin.
Proof.
  intros Hc Hs.
  destruct (ne_func_sq n_cos n_sin theta Hc Hs) as [Hpos Hsq].
  pose proof (denom_pos n_cos n_sin Hc Hs theta) as HD.
  set (v := ne_func n_cos n_sin theta) in *.
  set (D := ne_denom n_cos n_sin theta) in *.
  assert (HDe : D = n_cos ^ 2 * cos theta ^ 2 + n_sin ^ 2 * sin theta ^ 2)
    by reflexivity.
  pose proof (sin2_cos2 theta) as Hsc. unfold Rsqr in Hsc.
  assert (Hs2 : 0 <= sin theta ^ 2) by (apply pow2_ge_0).
  assert (Hc2 : 0 <= cos theta ^ 2) by (apply pow2_ge_0).
  split.
  { rewrite Hsq, HDe. field. repeat split; try lra; rewrite <- HDe; lra. }
  assert (Hv : v ^ 2 * D = n_cos ^ 2 * n_sin ^ 2).
  { rewrite Hsq. field. lra. }
  assert (Hlo : forall m, 0 < m -> m <= n_cos -> m <= n_sin -> m <= v).
  { intros m Hm H1 H2.
    destruct (Rle_dec m v) as [|Hn]; [assumption|exfalso].
    assert (Hvm : v < m) by lra.
    assert (v ^ 2 < m ^ 2) by nra.
    assert (D <= Rmax (n_cos ^ 2) (n_sin ^ 2)).
    { rewrite HDe. destruct (Rle_dec (n_cos ^ 2) (n_sin ^ 2)).
      - rewrite Rmax_right by assumption. nra.
      - rewrite Rmax_left by lra. nra. }
    assert (m ^ 2 * Rmax (n_cos ^ 2) (n_sin ^ 2) <= n_cos ^ 2 * n_sin ^ 2).
    { destruct (Rle_dec (n_cos ^ 2) (n_sin ^ 2)).
      - rewrite Rmax_right by assumption.
        apply Rmult_le_compat_r; [nra|]. nra.
      - rewrite Rmax_left by lra. rewrite (Rmult_comm (n_cos ^ 2)).
        apply Rmult_le_compat_r; [nra|]. nra. }
    assert (v ^ 2 * D < m ^ 2 * Rmax (n_cos ^ 2) (n_sin ^ 2)).
    { apply Rle_lt_trans with (v ^ 2 * Rmax (n_cos ^ 2) (n_sin ^ 2)).
      - apply Rmult_le_compat_l; [nra | assumption].
      - apply Rmult_lt_compat_r; [|assumption].
        apply Rlt_le_trans with D; assumption. }
    lra. }
  assert (Hhi : forall m, n_cos <= m -> n_sin <= m -> v <= m).
  { intros m H1 H2.
    destruct (Rle_dec v m) as [|Hn]; [assumption|exfalso].
    assert (Hvm : m < v) by lra.
    assert (0 < m) by lra.
    assert (m ^ 2 < v ^ 2) by nra.
    assert (Rmin (n_cos ^ 2) (n_sin ^ 2) <= D).
    { rewrite HDe. destruct (Rle_dec (n_cos ^ 2) (n_sin ^ 2)).
      - rewrite Rmin_left by assumption. nra.
      - rewrite Rmin_right by lra. nra. }
    assert (0 < Rmin (n_cos ^ 2) (n_sin ^ 2)).
    { apply Rmin_glb_lt; nra. }
    assert (n_cos ^ 2 * n_sin ^ 2 <= m ^ 2 * Rmin (n_cos ^ 2) (n_sin ^ 2)).
    { destruct (Rle_dec (n_cos ^ 2) (n_sin ^ 2)).
      - rewrite Rmin_left by assumption. rewrite (Rmult_comm (n_cos ^ 2)).
        apply Rmult_le_compat_r; [nra|]. nra.
      - rewrite Rmin_right by lra.
        apply Rmult_le_compat_r; [nra|]. nra. }
    assert (m ^ 2 * Rmin (n_cos ^ 2) (n_sin ^ 2) < v ^ 2 * D).
    { apply Rlt_le_trans with (v ^ 2 * Rmin (n_cos ^ 2) (n_sin ^ 2)).
      - apply Rmult_lt_compat_r; assumption.
      - apply Rmult_le_compat_l; [nra | assumption]. }
    lra. }
  split.
  - apply Hlo; [apply Rmin_glb_lt; assumption | apply Rmin_l | apply Rmin_r].
  - apply Hhi; [apply Rmax_l | apply Rmax_r].
Qed.

Lemma ne_func_ellipse_witness :
  1 / ne_func 2 3 (PI / 3) ^ 2
  = cos (PI / 3) ^ 2 / 3 ^ 2 + sin (PI / 3) ^ 2 / 2 ^ 2
  /\ Rmin 2 3 <= ne_func 2 3 (PI / 3) <= Rmax 2 3.
Proof. apply (ne_func_ellipse 2 3 (PI / 3)); lra. Defined.

(** [ne_func] is even and has period pi in the angle, takes the same
    value at an angle and at its supplement, and exchanging the two indices
    amounts to measuring the angle from the other axis. *)
Lemma ne_func_symmetries (n_cos n_sin theta : R) :
  ne_func n_cos n_sin (- theta) = ne_func n_cos n_sin theta
  /\ ne_func n_cos n_sin (theta + PI) = ne_func n_cos n_sin theta
  /\ ne_func n_cos n_sin (PI - theta) = ne_func n_cos n_sin theta
  /\ ne_func n_sin n_cos (PI / 2 - theta) = ne_func n_cos n_sin theta.
Proof.
  unfold ne_func.
  repeat split; f_equal.
  - rewrite cos_neg, sin_neg. f_equal. ring.
  - rewrite neg_cos, neg_sin. f_equal. ring.
  - unfold Rminus. rewrite (Rplus_comm PI), neg_cos, neg_sin, cos_neg, sin_neg.
    f_equal. ring.
  - rewrite cos_shift, sin_shift. f_equal; ring.
Qed.

(** ** Which exception [delta_n] raises *)



Lemma delta_n_returns_terms s mode th w1 w2 wo T :
  returns (delta_n_terms s mode th w1 w2 wo T) ->
  returns (delta_n s mode th w1 w2 wo T).
Proof. unfold delta_n. intros [t ->]. eexists; reflexivity. Qed.



(** ** Generated identifiers are read back as they were written *)

Lemma lstrip_spaces pre s :
  Forall (fun c => is_space c = true) pre -> lstrip (pre ++ s) = lstrip s.
Proof.
  induction 1 as [|c pre Hc _ IH]; [reflexivity|].
  simpl. rewrite Hc. exact IH.
Qed.

Lemma lstrip_nonspace c s : is_space c = false -> lstrip (c :: s) = c :: s.
Proof. intros H. simpl. rewrite H. reflexivity. Qed.

Lemma Forall_space_rev l :
  Forall (fun c => is_space c = true) l -> Forall (fun c => is_space c = true) (rev l).
Proof. intros H. apply Forall_rev. exact H. Qed.

Lemma strip_trim pre c m z post :
  Forall (fun c => is_space c = true) pre ->
  Forall (fun c => is_space c = true) post ->
  is_space c = false -> is_space z = false ->
  strip (pre ++ c :: m ++ z :: post) = c :: m ++ [z].
Proof.
  intros Hpre Hpost Hc Hz. unfold strip.
  rewrite lstrip_spaces, lstrip_nonspace by assumption.
  replace (rev (c :: m ++ z :: post)) with (rev post ++ z :: rev m ++ [c]).
  2:{ simpl. rewrite rev_app_distr. simpl. rewrite <- !app_assoc. reflexivity. }
  rewrite lstrip_spaces, lstrip_nonspace by (try apply Forall_space_rev; assumption).
  simpl. rewrite rev_app_distr, rev_involutive. reflexivity.
Qed.

(** The five beam labels of the two notations. *)
Lemma beam_label_cases (p : N) :
  In p [ch_O; ch_E; ch_X; ch_Y; ch_Z] ->
  p = ch_O \/ p = ch_E \/ p = ch_X \/ p = ch_Y \/ p = ch_Z.
Proof. simpl. intuition auto. Qed.

Ltac label_cases H := apply beam_label_cases in H; decompose [or] H; clear H; subst.

Lemma mode_name_parts p1 l1 p2 l2 po lo ty :
  In p1 [ch_O; ch_E; ch_X; ch_Y; ch_Z] -> In p2 [ch_O; ch_E; ch_X; ch_Y; ch_Z] ->
  In po [ch_O; ch_E; ch_X; ch_Y; ch_Z] ->
  label_shape l1 -> label_shape l2 -> label_shape lo -> is_type_tag ty ->
  let mode := mode_name p1 l1 p2 l2 po lo ty in
  List.length (arrow_parts mode) = 2%nat
  /\ input_part_of mode
     = p1 :: (lit " (" ++ l1 ++ lit "nm) + " ++ [p2] ++ lit " (" ++ l2 ++ lit "nm")
       ++ lit ")"
  /\ output_part_of mode
     = po :: (lit " (" ++ lo ++ lit "nm) (" ++ lit ty) ++ lit ")".
Proof.
  intros H1 H2 Ho L1 L2 Lo Hty mode.
  set (pre := [p1] ++ lit " (" ++ l1 ++ lit "nm) + " ++ [p2] ++ lit " (" ++ l2 ++ lit "nm) ").
  set (post := lit " " ++ [po] ++ lit " (" ++ lo ++ lit "nm) (" ++ lit ty ++ lit ")").
  assert (Emode : mode = pre ++ ch_arrow :: post).
  { unfold mode, mode_name, pre, post. rewrite <- !app_assoc. reflexivity. }
  assert (Apre : contains ch_arrow pre = false).
  { unfold pre. label_cases H1; label_cases H2; no_char. }
  assert (Apost : contains ch_arrow post = false).
  { unfold post. label_cases Ho; destruct Hty as [-> | ->]; no_char. }
  assert (Eparts : arrow_parts mode = [pre; post]).
  { unfold arrow_parts. rewrite Emode, split_on_app, split_on_no_sep by assumption.
    reflexivity. }
  split; [rewrite Eparts; reflexivity|].
  unfold input_part_of, output_part_of. rewrite Eparts. cbn [nth].
  split.
  - replace pre
      with ([] ++ p1 :: (lit " (" ++ l1 ++ lit "nm) + " ++ [p2] ++ lit " (" ++ l2 ++ lit "nm")
               ++ 41%N :: [32%N]).
    2:{ unfold pre. simpl. repeat (rewrite <- app_assoc; simpl). reflexivity. }
    apply strip_trim; try reflexivity.
    + constructor.
    + repeat constructor.
    + label_cases H1; reflexivity.
  - replace post
      with ([32%N] ++ po :: (lit " (" ++ lo ++ lit "nm) (" ++ lit ty) ++ 41%N :: []).
    2:{ unfold post. simpl. repeat (rewrite <- app_assoc; simpl). reflexivity. }
    apply strip_trim; try reflexivity.
    + repeat constructor.
    + constructor.
    + label_cases Ho; reflexivity.
Qed.

Ltac eval_contains L1 L2 :=
  repeat first [ rewrite contains_app | rewrite contains_cons ];
  rewrite ?(contains_label _ _ L1), ?(contains_label _ _ L2) by reflexivity;
  reflexivity.

Lemma generated_mode_read_back_parts p1 l1 p2 l2 po lo ty :
  is_pol_label p1 -> is_pol_label p2 -> is_pol_label po ->
  label_shape l1 -> label_shape l2 -> label_shape lo -> is_type_tag ty ->
  let mode := mode_name p1 l1 p2 l2 po lo ty in
  input_pol_pair (input_part_of mode) = Ok (p1, p2)
  /\ output_pol (output_part_of mode) = po
  /\ has_E_beam mode
     = (N.eqb p1 ch_E || N.eqb p2 ch_E || N.eqb po ch_E)%bool.
Proof.
  intros H1 H2 Ho L1 L2 Lo Hty mode.
  assert (B : forall p, is_pol_label p -> In p [ch_O; ch_E; ch_X; ch_Y; ch_Z])
    by (intros p [-> | ->]; simpl; auto).
  destruct (mode_name_parts p1 l1 p2 l2 po lo ty (B _ H1) (B _ H2) (B _ Ho)
              L1 L2 Lo Hty) as (_ & Hin & Hout).
  fold mode in Hin, Hout.
  assert (Epair : input_pol_pair (input_part_of mode) = Ok (p1, p2)).
  { rewrite Hin. unfold input_pol_pair, input_pols.
    destruct H1 as [-> | ->], H2 as [-> | ->].
    - assert (E : contains ch_E
                (ch_O :: (lit " (" ++ l1 ++ lit "nm) + " ++ [ch_O] ++ lit " (" ++ l2 ++ lit "nm")
                   ++ lit ")") = false) by eval_contains L1 L2.
      rewrite E. reflexivity.
    - assert (E : contains ch_E
                (ch_O :: (lit " (" ++ l1 ++ lit "nm) + " ++ [ch_E] ++ lit " (" ++ l2 ++ lit "nm")
                   ++ lit ")") = true) by eval_contains L1 L2.
      rewrite E. reflexivity.
    - assert (E : contains ch_O
                (ch_E :: (lit " (" ++ l1 ++ lit "nm) + " ++ [ch_O] ++ lit " (" ++ l2 ++ lit "nm")
                   ++ lit ")") = true) by eval_contains L1 L2.
      rewrite E. reflexivity.
    - assert (E : contains ch_O
                (ch_E :: (lit " (" ++ l1 ++ lit "nm) + " ++ [ch_E] ++ lit " (" ++ l2 ++ lit "nm")
                   ++ lit ")") = false) by eval_contains L1 L2.
      rewrite E. reflexivity. }
  assert (Eout : output_pol (output_part_of mode) = po).
  { rewrite Hout. unfold output_pol.
    destruct Ho as [-> | ->]; reflexivity. }
  split; [exact Epair|]. split; [exact Eout|].
  unfold has_E_beam. rewrite Epair, Eout. reflexivity.
Qed.

(** X10.  An identifier in the ordinary / extraordinary notation, written as
    the constructor writes it from two input labels, an output label and
    three formatted wavelengths, is read back by [delta_n] with the same
    three labels, in the same order. *)
Theorem generated_mode_read_back p1 l1 p2 l2 po lo ty :
  is_pol_label p1 -> is_pol_label p2 -> is_pol_label po ->
  label_shape l1 -> label_shape l2 -> label_shape lo -> is_type_tag ty ->
  let mode := mode_name p1 l1 p2 l2 po lo ty in
  input_pol_pair (input_part_of mode) = Ok (p1, p2)
  /\ output_pol (output_part_of mode) = po
  /\ has_E_beam mode
     = (N.eqb p1 ch_E || N.eqb p2 ch_E || N.eqb po ch_E)%bool.
Proof. apply generated_mode_read_back_parts. Qed.

Lemma label_shape_digits ds :
  ds <> [] -> forallb is_digit ds = true -> label_shape ds.
Proof.
  intros Hne Hd. exists [], ds. split; [reflexivity|]. split; [auto|].
  split; [exact Hne|]. apply Forall_forall. intros c Hc.
  rewrite forallb_forall in Hd. auto.
Qed.

Lemma generated_mode_read_back_witness :
  input_pol_pair (input_part_of mode_ooe_1064) = Ok (ch_O, ch_O)
  /\ output_pol (output_part_of mode_ooe_1064) = ch_E
  /\ has_E_beam mode_ooe_1064 = true.
Proof.
  apply (generated_mode_read_back ch_O (lit "1064") ch_O (lit "1064") ch_E
           (lit "532") "Type I").
  - left; reflexivity.
  - left; reflexivity.
  - right; reflexivity.
  - apply label_shape_digits; [discriminate | reflexivity].
  - apply label_shape_digits; [discriminate | reflexivity].
  - apply label_shape_digits; [discriminate | reflexivity].
  - left; reflexivity.
Defined.




(** ** The matching types of the generated identifiers *)

Lemma filter_is_pol_label l : label_shape l -> filter is_pol l = [].
Proof.
  intros (sign & ds & -> & Hs & _ & Hd).
  rewrite filter_app.
  assert (E : filter is_pol ds = []).
  { induction Hd as [|c ds Hc _ IH]; [reflexivity|].
    simpl. rewrite IH.
    assert (Hp : is_pol c = false).
    { unfold is_pol, is_digit in *. apply andb_true_iff in Hc as [_ Hc].
      apply N.leb_le in Hc.
      apply orb_false_iff; split; apply N.eqb_neq; intros ->; vm_compute in Hc;
        apply Hc; reflexivity. }
    rewrite Hp. reflexivity. }
  rewrite E. destruct Hs as [-> | ->]; reflexivity.
Qed.

Lemma get_mode_type_generated p1 l1 p2 l2 po lo ty :
  is_pol_label p1 -> is_pol_label p2 -> is_pol_label po ->
  label_shape l1 -> label_shape l2 -> label_shape lo -> is_type_tag ty ->
  get_mode_type (mode_name p1 l1 p2 l2 po lo ty)
  = Some (if N.eqb p1 p2
          then (pol_letter p1 ++ pol_letter p2 ++ pol_letter po)%string
          else ("OE" ++ pol_letter po)%string).
Proof.
  intros H1 H2 Ho L1 L2 Lo Hty.
  assert (B : forall p, is_pol_label p -> In p [ch_O; ch_E; ch_X; ch_Y; ch_Z])
    by (intros p [-> | ->]; simpl; auto).
  destruct (mode_name_parts p1 l1 p2 l2 po lo ty (B _ H1) (B _ H2) (B _ Ho)
              L1 L2 Lo Hty) as (_ & Hin & Hout).
  unfold get_mode_type.
  change (strip (nth 0 (split_on ch_arrow (mode_name p1 l1 p2 l2 po lo ty)) []))
    with (input_part_of (mode_name p1 l1 p2 l2 po lo ty)).
  change (strip (nth 1 (split_on ch_arrow (mode_name p1 l1 p2 l2 po lo ty)) []))
    with (output_part_of (mode_name p1 l1 p2 l2 po lo ty)).
  rewrite Hin, Hout.
  assert (Ea : contains ch_arrow (mode_name p1 l1 p2 l2 po lo ty) = true).
  { unfold mode_name. rewrite !contains_app.
    replace (contains ch_arrow [ch_arrow]) with true by reflexivity.
    rewrite ?orb_true_r. reflexivity. }
  rewrite Ea. cbn [negb].
  assert (Ef : filter is_pol
                 (p1 :: (lit " (" ++ l1 ++ lit "nm) + " ++ [p2] ++ lit " (" ++ l2 ++ lit "nm")
                    ++ lit ")") = [p1; p2]).
  { change (p1 :: ?x ++ ?y) with (([p1] ++ x) ++ y).
    rewrite !filter_app, (filter_is_pol_label l1 L1), (filter_is_pol_label l2 L2).
    destruct H1 as [-> | ->], H2 as [-> | ->]; reflexivity. }
  rewrite Ef.
  assert (Eo : find is_pol (po :: (lit " (" ++ lo ++ lit "nm) (" ++ lit ty) ++ lit ")")
               = Some po).
  { destruct Ho as [-> | ->]; reflexivity. }
  rewrite Eo. destruct (N.eqb p1 p2); reflexivity.
Qed.

(** X12.  The matching types that [get_mode_type] reads from the identifiers
    generated by the constructor, in the order of the list: OOE, EEO, OEE, OEO
    for SHG and OOE, EEO, OEE, OEE, OEO, OEO for SFG (the two identifiers of
    each Type II pair, which differ in the order of the two wavelengths, have
    the same type). *)
Theorem generated_mode_types (config : SimulationConfig) :
  map get_mode_type (build_mode_names config)
  = match process_type config with
    | SHG => [Some "OOE"; Some "EEO"; Some "OEE"; Some "OEO"]%string
    | SFG => [Some "OOE"; Some "EEO"; Some "OEE"; Some "OEE";
              Some "OEO"; Some "OEO"]%string
    end.
Proof.
  unfold build_mode_names.
  destruct (process_type config); cbn [map];
    rewrite !get_mode_type_generated
      by (first [ apply format_0f_shape | left; reflexivity | right; reflexivity ]);
    reflexivity.
Qed.

(** ** The keys of the dictionary of modes *)

Lemma app_sep_inj (c : N) (a b r r' : pystr) :
  contains c a = false -> contains c b = false ->
  a ++ c :: r = b ++ c :: r' -> a = b /\ r = r'.
Proof.
  revert b. induction a as [|x a IH]; intros [|y b] Ha Hb H; simpl in H.
  - injection H as H. auto.
  - injection H as H1 H2. subst y. rewrite contains_cons, N.eqb_refl in Hb. discriminate.
  - injection H as H1 H2. subst x. rewrite contains_cons, N.eqb_refl in Ha. discriminate.
  - injection H as H1 H2. subst y.
    rewrite contains_cons in Ha, Hb.
    apply orb_false_elim in Ha as [_ Ha]. apply orb_false_elim in Hb as [_ Hb].
    destruct (IH b Ha Hb H2) as [-> ->]. auto.
Qed.

Lemma mode_name_inj p1 l1 p2 l2 po lo ty p1' l1' p2' l2' po' lo' ty' :
  label_shape l1 -> label_shape l2 -> label_shape l1' -> label_shape l2' ->
  mode_name p1 l1 p2 l2 po lo ty = mode_name p1' l1' p2' l2' po' lo' ty' ->
  p1 = p1' /\ l1 = l1' /\ p2 = p2' /\ l2 = l2' /\ po = po'.
Proof.
  intros L1 L2 L1' L2' H. unfold mode_name in H. simpl in H.
  injection H as Hp1 H.
  apply (app_sep_inj ch_n) in H as [Hl1 H];
    [|apply contains_label; [assumption | reflexivity | reflexivity]..].
  injection H as Hp2 H.
  apply (app_sep_inj ch_n) in H as [Hl2 H];
    [|apply contains_label; [assumption | reflexivity | reflexivity]..].
  injection H as Hpo H.
  auto.
Qed.

Lemma pystr_eqb_true (a b : pystr) : pystr_eqb a b = true <-> a = b.
Proof.
  unfold pystr_eqb. destruct (list_eq_dec N.eq_dec a b); split; congruence.
Qed.

Lemma pystr_eqb_refl (a : pystr) : pystr_eqb a a = true.
Proof. apply pystr_eqb_true. reflexivity. Qed.

Lemma pystr_eqb_false (a b : pystr) : a <> b -> pystr_eqb a b = false.
Proof.
  intros H. destruct (pystr_eqb a b) eqn:E; [|reflexivity].
  apply pystr_eqb_true in E. contradiction.
Qed.

Lemma dict_keys_NoDup (l : list pystr) : NoDup l -> dict_keys l = l.
Proof.
  induction 1 as [|k l Hk _ IH]; [reflexivity|].
  simpl. rewrite IH. f_equal.
  apply forallb_filter_id. apply forallb_forall. intros k' Hk'.
  rewrite pystr_eqb_false; [reflexivity|]. intros ->. contradiction.
Qed.

Ltac distinct_modes :=
  let H := fresh "H" in
  intros H; apply mode_name_inj in H; try apply format_0f_shape;
  decompose [and] H; try discriminate; try contradiction; auto.

(** X13.  The dictionary of callbacks that the constructor builds, over which
    [criticalangle] iterates, has one key per distinct identifier.  For SHG
    the four identifiers are distinct.  For SFG the six identifiers are
    distinct when the two input wavelengths are formatted differently; when
    they are formatted alike, the two identifiers of each Type II pair
    coincide and the dictionary has four keys: the first, second, third and
    fifth identifier of the list. *)
Theorem mode_dictionary_keys (config : SimulationConfig) :
  let names := build_mode_names config in
  match process_type config with
  | SHG => dict_keys names = names /\ List.length names = 4%nat
  | SFG =>
      List.length names = 6%nat
      /\ (format_0f (wavelength1_nm config) <> format_0f (wavelength2_nm config) ->
          dict_keys names = names)
      /\ (format_0f (wavelength1_nm config) = format_0f (wavelength2_nm config) ->
          dict_keys names
          = [nth 0 names []; nth 1 names []; nth 2 names []; nth 4 names []])
  end.
Proof.
  unfold build_mode_names. destruct (process_type config); cbn zeta.
  - split; [|reflexivity].
    apply dict_keys_NoDup.
    repeat (apply NoDup_cons; [simpl; intros HIn; decompose [or] HIn;
                               try contradiction;
                               match goal with
                               | H : mode_name _ _ _ _ _ _ _ = mode_name _ _ _ _ _ _ _ |- _ =>
                                   revert H; distinct_modes
                               end|]).
    apply NoDup_nil.
  - split; [reflexivity|]. split.
    + intros Hne. apply dict_keys_NoDup.
      repeat (apply NoDup_cons; [simpl; intros HIn; decompose [or] HIn;
                                 try contradiction;
                                 match goal with
                                 | H : mode_name _ _ _ _ _ _ _ = mode_name _ _ _ _ _ _ _ |- _ =>
                                     revert H; distinct_modes
                                 end|]).
      apply NoDup_nil.
    + intros ->. cbn [nth].
      set (l := format_0f (wavelength2_nm config)).
      set (lo := format_0f (wavelength_out_nm config)).
      assert (N12 : pystr_eqb (mode_name ch_O l ch_O l ch_E lo "Type I")
                      (mode_name ch_E l ch_E l ch_O lo "Type I") = false)
        by (apply pystr_eqb_false; subst l; distinct_modes).
      assert (N13 : pystr_eqb (mode_name ch_O l ch_O l ch_E lo "Type I")
                      (mode_name ch_O l ch_E l ch_E lo "Type II") = false)
        by (apply pystr_eqb_false; subst l; distinct_modes).
      assert (N14 : pystr_eqb (mode_name ch_O l ch_O l ch_E lo "Type I")
                      (mode_name ch_O l ch_E l ch_O lo "Type II") = false)
        by (apply pystr_eqb_false; subst l; distinct_modes).
      assert (N23 : pystr_eqb (mode_name ch_E l ch_E l ch_O lo "Type I")
                      (mode_name ch_O l ch_E l ch_E lo "Type II") = false)
        by (apply pystr_eqb_false; subst l; distinct_modes).
      assert (N24 : pystr_eqb (mode_name ch_E l ch_E l ch_O lo "Type I")
                      (mode_name ch_O l ch_E l ch_O lo "Type II") = false)
        by (apply pystr_eqb_false; subst l; distinct_modes).
      assert (N34 : pystr_eqb (mode_name ch_O l ch_E l ch_E lo "Type II")
                      (mode_name ch_O l ch_E l ch_O lo "Type II") = false)
        by (apply pystr_eqb_false; subst l; distinct_modes).
      cbn [dict_keys filter].
      rewrite ?pystr_eqb_refl, ?N12, ?N13, ?N14, ?N23, ?N24, ?N34; cbn [negb filter].
      rewrite ?pystr_eqb_refl, ?N12, ?N13, ?N14, ?N23, ?N24, ?N34; cbn [negb filter].
      rewrite ?pystr_eqb_refl, ?N12, ?N13, ?N14, ?N23, ?N24, ?N34; cbn [negb filter].
      rewrite ?pystr_eqb_refl, ?N12, ?N13, ?N14, ?N23, ?N24, ?N34; cbn [negb filter].
      reflexivity.
Qed.

(** ** The axis notation *)

Lemma extract_xyz_pol_single (a : N) (u v : pystr) :
  In a [ch_X; ch_Y; ch_Z] ->
  (forall c, In c [ch_X; ch_Y; ch_Z] -> contains c u = false /\ contains c v = false) ->
  extract_xyz_pol (u ++ a :: v) = Some a.
Proof.
  intros Ha H. unfold extract_xyz_pol.
  rewrite !contains_app, !contains_cons.
  destruct (H ch_X) as [-> ->]; [simpl; auto|].
  destruct (H ch_Y) as [-> ->]; [simpl; auto|].
  destruct (H ch_Z) as [-> ->]; [simpl; auto|].
  simpl in Ha. decompose [or] Ha; subst; try contradiction; reflexivity.
Qed.

Lemma xyz_to_key_axis (a : N) :
  In a [ch_X; ch_Y; ch_Z] -> exists k, xyz_to_key (Some a) = Ok k.
Proof.
  simpl. intros H. decompose [or] H; subst; try contradiction; eexists; reflexivity.
Qed.

Lemma delta_n_terms_axis_notation s a l1 b l2 c lo ty theta w1 w2 wo T i1 i2 io k1 k2 kout :
  In a [ch_X; ch_Y; ch_Z] -> In b [ch_X; ch_Y; ch_Z] -> In c [ch_X; ch_Y; ch_Z] ->
  label_shape l1 -> label_shape l2 -> label_shape lo -> is_type_tag ty ->
  get_indices (cfg s) (Some (in_effect w1 (wavelength1_nm (cfg s))))
    (Some (in_effect T (temperature (cfg s)))) = Ok i1 ->
  get_indices (cfg s) (Some (in_effect w2 (wavelength2_nm (cfg s))))
    (Some (in_effect T (temperature (cfg s)))) = Ok i2 ->
  get_indices (cfg s) (Some (in_effect wo (wavelength_out_nm (cfg s))))
    (Some (in_effect T (temperature (cfg s)))) = Ok io ->
  xyz_to_key (Some a) = Ok k1 -> xyz_to_key (Some b) = Ok k2 ->
  xyz_to_key (Some c) = Ok kout ->
  delta_n_terms s (mode_name a l1 b l2 c lo ty) theta w1 w2 wo T
  = Ok (mk_terms (weight1 s) (getitem i1 k1) (weight2 s) (getitem i2 k2)
                 (getitem io kout)).
Proof.
  intros Ha Hb Hc L1 L2 Lo Hty E1 E2 Eo K1 K2 Kout.
  assert (B : forall p, In p [ch_X; ch_Y; ch_Z] -> In p [ch_O; ch_E; ch_X; ch_Y; ch_Z])
    by (simpl; intuition auto).
  destruct (mode_name_parts a l1 b l2 c lo ty (B _ Ha) (B _ Hb) (B _ Hc)
              L1 L2 Lo Hty) as (Hlen & Hin & Hout).
  assert (Hx : is_xyz_notation (mode_name a l1 b l2 c lo ty) = true).
  { unfold is_xyz_notation, mode_name. rewrite !contains_app.
    simpl in Ha. decompose [or] Ha; subst; try contradiction;
      cbn [contains existsb N.eqb Pos.eqb ch_X ch_Y ch_Z orb];
      rewrite ?orb_true_r; reflexivity. }
  unfold delta_n_terms. unfold in_effect in E1, E2, Eo.
  rewrite E1, E2, Eo. cbn [bind].
  unfold input_part_of, output_part_of, arrow_parts in *.
  destruct (split_on ch_arrow (mode_name a l1 b l2 c lo ty)) as [|p0 [|p1 [|p2 ps]]];
    try discriminate Hlen.
  cbn [nth] in Hin, Hout. rewrite Hx, Hin, Hout.
  assert (Es : split_on ch_plus
                 (a :: (lit " (" ++ l1 ++ lit "nm) + " ++ [b] ++ lit " (" ++ l2 ++ lit "nm")
                    ++ lit ")")
               = [ [] ++ a :: (lit " (" ++ l1 ++ lit "nm) ");
                   lit " " ++ b :: (lit " (" ++ l2 ++ lit "nm)") ]).
  { replace (a :: (lit " (" ++ l1 ++ lit "nm) + " ++ [b] ++ lit " (" ++ l2 ++ lit "nm")
                ++ lit ")")
      with (([] ++ a :: (lit " (" ++ l1 ++ lit "nm) "))
            ++ ch_plus :: (lit " " ++ b :: (lit " (" ++ l2 ++ lit "nm)"))).
    2:{ simpl. repeat (rewrite <- app_assoc; simpl). reflexivity. }
    rewrite split_on_app, split_on_no_sep; [reflexivity| |].
    - simpl in Hb. decompose [or] Hb; subst; try contradiction; no_char.
    - simpl in Ha. decompose [or] Ha; subst; try contradiction; no_char. }
  rewrite Es. cbn [nth].
  rewrite (extract_xyz_pol_single a [] (lit " (" ++ l1 ++ lit "nm) ") Ha).
  2:{ intros x Hxx. simpl in Hxx. decompose [or] Hxx; subst; try contradiction;
        split; no_char. }
  rewrite (extract_xyz_pol_single b (lit " ") (lit " (" ++ l2 ++ lit "nm)") Hb).
  2:{ intros x Hxx. simpl in Hxx. decompose [or] Hxx; subst; try contradiction;
        split; no_char. }
  change (c :: (lit " (" ++ lo ++ lit "nm) (" ++ lit ty) ++ lit ")")
    with ([] ++ c :: ((lit " (" ++ lo ++ lit "nm) (" ++ lit ty) ++ lit ")")).
  rewrite (extract_xyz_pol_single c [] _ Hc).
  2:{ intros x Hxx. destruct Hty as [-> | ->];
        simpl in Hxx; decompose [or] Hxx; subst; try contradiction;
        split; no_char. }
  rewrite K1, K2, Kout. reflexivity.
Qed.

Lemma delta_n_axis_notation_value s a l1 b l2 c lo ty theta w1 w2 wo T :
  known_crystal (crystal_name (cfg s)) = true ->
  In a [ch_X; ch_Y; ch_Z] -> In b [ch_X; ch_Y; ch_Z] -> In c [ch_X; ch_Y; ch_Z] ->
  label_shape l1 -> label_shape l2 -> label_shape lo -> is_type_tag ty ->
  exists i1 i2 io k1 k2 kout,
    get_indices (cfg s) (Some (in_effect w1 (wavelength1_nm (cfg s))))
      (Some (in_effect T (temperature (cfg s)))) = Ok i1
    /\ get_indices (cfg s) (Some (in_effect w2 (wavelength2_nm (cfg s))))
         (Some (in_effect T (temperature (cfg s)))) = Ok i2
    /\ get_indices (cfg s) (Some (in_effect wo (wavelength_out_nm (cfg s))))
         (Some (in_effect T (temperature (cfg s)))) = Ok io
    /\ xyz_to_key (Some a) = Ok k1 /\ xyz_to_key (Some b) = Ok k2
    /\ xyz_to_key (Some c) = Ok kout
    /\ delta_n s (mode_name a l1 b l2 c lo ty) theta w1 w2 wo T
       = Ok (weight1 s * getitem i1 k1 + weight2 s * getitem i2 k2
             - getitem io kout).
Proof.
  intros Hk Ha Hb Hc L1 L2 Lo Hty.
  destruct (get_indices_known (cfg s) (Some (in_effect w1 (wavelength1_nm (cfg s))))
              (Some (in_effect T (temperature (cfg s)))) Hk) as [i1 E1].
  destruct (get_indices_known (cfg s) (Some (in_effect w2 (wavelength2_nm (cfg s))))
              (Some (in_effect T (temperature (cfg s)))) Hk) as [i2 E2].
  destruct (get_indices_known (cfg s) (Some (in_effect wo (wavelength_out_nm (cfg s))))
              (Some (in_effect T (temperature (cfg s)))) Hk) as [io Eo].
  destruct (xyz_to_key_axis a Ha) as [k1 K1].
  destruct (xyz_to_key_axis b Hb) as [k2 K2].
  destruct (xyz_to_key_axis c Hc) as [kout Kout].
  exists i1, i2, io, k1, k2, kout.
  repeat (split; [assumption|]).
  unfold delta_n.
  rewrite (delta_n_terms_axis_notation s a l1 b l2 c lo ty theta w1 w2 wo T
             i1 i2 io k1 k2 kout) by assumption.
  reflexivity.
Qed.



(** ** Which beam is read at which wavelength *)

Lemma digits_value_acc (u : Decimal.uint) : forall acc : positive,
  fold_left (fun acc c => (10 * acc + (c - 48))%N) (pystr_of_uint u) (N.pos acc)
  = N.pos (Pos.of_uint_acc u acc).
Proof.
  induction u; intros acc; cbn [pystr_of_uint fold_left Pos.of_uint_acc];
    [reflexivity | ..]; rewrite <- IHu; f_equal; lia.
Qed.

Lemma digits_value_uint (u : Decimal.uint) :
  digits_value (pystr_of_uint u) = N.of_uint u.
Proof.
  unfold digits_value, N.of_uint.
  induction u; cbn [pystr_of_uint fold_left Pos.of_uint];
    [reflexivity | exact IHu | ..];
    rewrite <- digits_value_acc; f_equal.
Qed.

Lemma round_half_even_bounds (x : R) :
  Rabs (IZR (round_half_even x) - x) <= 1 / 2
  /\ (0 <= x -> (0 <= round_half_even x)%Z).
Proof.
  unfold round_half_even.
  pose proof (Zfloor_bound x) as [Hf1 Hf2].
  assert (Hnn : 0 <= x -> (0 <= Zfloor x)%Z).
  { intros Hx. apply Zfloor_lub. exact Hx. }
  destruct (Rlt_dec (x - IZR (Zfloor x)) (1 / 2)) as [H|H].
  - split; [apply Rabs_le; lra | exact Hnn].
  - destruct (Rlt_dec (1 / 2) (x - IZR (Zfloor x))) as [H'|H'].
    + split; [rewrite plus_IZR; apply Rabs_le; lra | intros Hx; specialize (Hnn Hx); lia].
    + destruct (Z.even (Zfloor x)).
      * split; [apply Rabs_le; lra | exact Hnn].
      * split; [rewrite plus_IZR; apply Rabs_le; lra
               | intros Hx; specialize (Hnn Hx); lia].
Qed.

Lemma format_0f_positive (x : R) :
  0 < x ->
  format_0f x <> []
  /\ Forall (fun c => is_digit c = true) (format_0f x)
  /\ float_of_digits (format_0f x) = IZR (round_half_even x).
Proof.
  intros Hx. unfold format_0f.
  destruct (Rlt_dec x 0) as [H|_]; [lra|]. cbn [app].
  split; [apply pystr_of_uint_nonnil, N_to_uint_nonnil|].
  split; [apply pystr_of_uint_digits|].
  unfold float_of_digits. rewrite digits_value_uint, Unsigned.of_to.
  destruct (round_half_even_bounds x) as [_ Hnn].
  f_equal. rewrite N2Z.inj_abs_N. apply Z.abs_eq. apply Hnn. lra.
Qed.

Lemma findall_digit_label ds rest :
  ds <> [] -> Forall (fun c => is_digit c = true) ds ->
  findall_nm_from [] (ds ++ ch_n :: ch_m :: rest)
  = ds :: findall_nm_from [] (ch_m :: rest).
Proof.
  intros Hne Hd.
  rewrite findall_digits by assumption. rewrite app_nil_r.
  destruct (rev ds) as [|r rs] eqn:Er.
  { apply (f_equal (@rev N)) in Er. rewrite rev_involutive in Er. contradiction. }
  change (findall_nm_from (r :: rs) (ch_n :: ch_m :: rest))
    with (rev (r :: rs) :: findall_nm_from [] (ch_m :: rest)).
  rewrite <- Er, rev_involutive. reflexivity.
Qed.

Lemma findall_nm_first p1 la p2 lb po lo ty :
  is_pol_label p1 -> la <> [] -> Forall (fun c => is_digit c = true) la ->
  exists rest, findall_nm (mode_name p1 la p2 lb po lo ty) = la :: rest.
Proof.
  intros H1 Hne Hd. unfold findall_nm, mode_name.
  destruct H1 as [-> | ->]; simpl;
    change 110%N with ch_n; change 109%N with ch_m;
    rewrite (findall_digit_label la _ Hne Hd); eexists; reflexivity.
Qed.

(** Which beam [delta_n] reads at which wavelength, for SFG and an
    identifier in the ordinary / extraordinary notation whose first label is
    a positive wavelength [w], formatted.  [delta_n] compares the number in
    that label with the first wavelength in effect, that is, with the
    argument [wavelength1] when one is given. *)
Lemma delta_n_beam_order s p1 w p2 lb po lo ty theta wl wl2 wlo T :
  known_crystal (crystal_name (cfg s)) = true ->
  process_type (cfg s) = SFG ->
  is_pol_label p1 -> is_pol_label p2 -> is_pol_label po ->
  0 < w -> label_shape lb -> label_shape lo -> is_type_tag ty ->
  let mode := mode_name p1 (format_0f w) p2 lb po lo ty in
  let temp := in_effect T (temperature (cfg s)) in
  exists i1 i2 io n_out,
    get_indices (cfg s) (Some wl) (Some temp) = Ok i1
    /\ get_indices (cfg s) (Some wl2) (Some temp) = Ok i2
    /\ get_indices (cfg s) (Some wlo) (Some temp) = Ok io
    /\ beam_index s po io (Some theta) = Ok n_out
    /\ (Rabs (wl - w) < 1 / 2 ->
        exists n1 n2,
          beam_index s p1 i1 (Some theta) = Ok n1
          /\ beam_index s p2 i2 (Some theta) = Ok n2
          /\ delta_n s mode (Some theta) (Some wl) (Some wl2) (Some wlo) T
             = Ok (wlo / wl * n1 + wlo / wl2 * n2 - n_out))
    /\ (3 / 2 <= Rabs (wl - w) ->
        exists n1 n2,
          beam_index s p1 i2 (Some theta) = Ok n1
          /\ beam_index s p2 i1 (Some theta) = Ok n2
          /\ delta_n s mode (Some theta) (Some wl) (Some wl2) (Some wlo) T
             = Ok (wlo / wl2 * n1 + wlo / wl * n2 - n_out)).
Proof.
  intros Hk Hp H1 H2 Ho Hw Lb Lo Hty mode temp.
  destruct (format_0f_positive w Hw) as (Hne & Hd & Hval).
  assert (La : label_shape (format_0f w)) by apply format_0f_shape.
  destruct (get_indices_known (cfg s) (Some wl) (Some temp) Hk) as [i1 E1].
  destruct (get_indices_known (cfg s) (Some wl2) (Some temp) Hk) as [i2 E2].
  destruct (get_indices_known (cfg s) (Some wlo) (Some temp) Hk) as [io Eo].
  destruct (beam_index_returns s po io theta) as [n_out En].
  exists i1, i2, io, n_out. repeat (split; [assumption|]).
  assert (B : forall p, is_pol_label p -> In p [ch_O; ch_E; ch_X; ch_Y; ch_Z])
    by (intros p [-> | ->]; simpl; auto).
  destruct (mode_name_parts p1 (format_0f w) p2 lb po lo ty (B _ H1) (B _ H2) (B _ Ho)
              La Lb Lo Hty) as (Hlen & _ & _).
  destruct (generated_mode_ok p1 (format_0f w) p2 lb po lo ty H1 H2 Ho La Lb Lo Hty)
    as (_ & Hx & Hn & _).
  destruct (generated_mode_read_back_parts p1 (format_0f w) p2 lb po lo ty
              H1 H2 Ho La Lb Lo Hty) as (Hpair & Hout & _).
  destruct (findall_nm_first p1 (format_0f w) p2 lb po lo ty H1 Hne Hd) as [rest Hf].
  fold mode in Hlen, Hx, Hn, Hpair, Hout, Hf.
  destruct (round_half_even_bounds w) as [Hr _]. rewrite <- Hval in Hr.
  assert (Hterms :
    exists n1 n2 n1' n2',
      beam_index s p1 i1 (Some theta) = Ok n1 /\ beam_index s p2 i2 (Some theta) = Ok n2
      /\ beam_index s p1 i2 (Some theta) = Ok n1'
      /\ beam_index s p2 i1 (Some theta) = Ok n2'
      /\ delta_n s mode (Some theta) (Some wl) (Some wl2) (Some wlo) T
         = if Rlt_dec (Rabs (float_of_digits (format_0f w) - wl)) 1
           then Ok (wlo / wl * n1 + wlo / wl2 * n2 - n_out)
           else Ok (wlo / wl2 * n1' + wlo / wl * n2' - n_out)).
  { destruct (beam_index_returns s p1 i1 theta) as [n1 N1].
    destruct (beam_index_returns s p2 i2 theta) as [n2 N2].
    destruct (beam_index_returns s p1 i2 theta) as [n1' N1'].
    destruct (beam_index_returns s p2 i1 theta) as [n2' N2'].
    exists n1, n2, n1', n2'. repeat (split; [assumption|]).
    unfold delta_n, delta_n_terms.
    unfold temp, in_effect in E1, E2, Eo. rewrite E1, E2, Eo. cbn [bind].
    unfold input_part_of, output_part_of, arrow_parts in *.
    destruct (split_on ch_arrow mode) as [|q0 [|q1 [|q2 qs]]]; try discriminate Hlen.
    cbn [nth] in Hpair, Hout. rewrite Hx, Hf.
    rewrite Hf in Hn. cbn [List.length] in Hn.
    destruct rest as [|r1 [|r2 rest]]; [simpl in Hn; lia | simpl in Hn; lia|].
    rewrite Hp.
    destruct (Rlt_dec (Rabs (float_of_digits (format_0f w) - wl)) 1.0) as [Hc|Hc];
      destruct (Rlt_dec (Rabs (float_of_digits (format_0f w) - wl)) 1) as [Hc'|Hc'];
      try (exfalso; lra);
      rewrite Hpair; cbn [bind]; rewrite Hout, ?N1, ?N2, ?N1', ?N2', En; cbn [bind];
      reflexivity. }
  destruct Hterms as (n1 & n2 & n1' & n2' & N1 & N2 & N1' & N2' & Hdn).
  split.
  - intros Hnear. exists n1, n2. repeat (split; [assumption|]).
    rewrite Hdn. destruct (Rlt_dec _ 1) as [_|Hc]; [reflexivity|exfalso].
    apply Hc.
    replace (float_of_digits (format_0f w) - wl)
      with ((float_of_digits (format_0f w) - w) + - (wl - w)) by ring.
    eapply Rle_lt_trans; [apply Rabs_triang|]. rewrite Rabs_Ropp. lra.
  - intros Hfar. exists n1', n2'. repeat (split; [assumption|]).
    rewrite Hdn. destruct (Rlt_dec _ 1) as [Hc|_]; [exfalso|reflexivity].
    assert (Rabs (wl - w)
            <= Rabs (float_of_digits (format_0f w) - wl)
               + Rabs (float_of_digits (format_0f w) - w)).
    { replace (wl - w)
        with (- (float_of_digits (format_0f w) - wl)
              + (float_of_digits (format_0f w) - w)) by ring.
      eapply Rle_trans; [apply Rabs_triang|]. rewrite Rabs_Ropp. lra. }
    lra.
Qed.

(** X15.  The order of the beams in the wavelength scan of an SFG mode.  For
    an identifier in the ordinary / extraordinary notation whose first label
    is the configured first wavelength, formatted: at a sample less than half
    a nanometre from the configured first wavelength, the efficiency is that
    of the mismatch with the first beam read at the scanned first wavelength
    and the second beam at the scanned second wavelength; at a sample at
    least one and a half nanometres away, it is that of the mismatch with the
    two beams exchanged, the first beam read at the scanned second wavelength
    and the second beam at the scanned first wavelength. *)
Theorem wavelength_scan_beam_order s d deg step res sc p1 p2 po lb lo ty i :
  known_crystal (crystal_name (cfg s)) = true ->
  process_type (cfg s) = SFG ->
  is_pol_label p1 -> is_pol_label p2 -> is_pol_label po ->
  0 < wavelength1_nm (cfg s) ->
  label_shape lb -> label_shape lo -> is_type_tag ty ->
  let mode := mode_name p1 (format_0f (wavelength1_nm (cfg s))) p2 lb po lo ty in
  lookup mode d = Some deg ->
  acceptance_wavelength s d mode step res = Ok sc ->
  (i < List.length (scan_axis_of sc))%nat ->
  let theta := deg2rad deg in
  let wl := nth i (scan_axis_of sc) 0 in
  let wl2 := wavelength2_nm (cfg s) / wavelength1_nm (cfg s) * wl in
  let wlo := 1 / (1 / wl + 1 / wl2) in
  exists i1 i2 io n_out,
    get_indices (cfg s) (Some wl) (Some (temperature (cfg s))) = Ok i1
    /\ get_indices (cfg s) (Some wl2) (Some (temperature (cfg s))) = Ok i2
    /\ get_indices (cfg s) (Some wlo) (Some (temperature (cfg s))) = Ok io
    /\ beam_index s po io (Some theta) = Ok n_out
    /\ (Rabs (wl - wavelength1_nm (cfg s)) < 1 / 2 ->
        exists n1 n2,
          beam_index s p1 i1 (Some theta) = Ok n1
          /\ beam_index s p2 i2 (Some theta) = Ok n2
          /\ nth i (scan_efficiency sc) 0
             = efficiency_of s (wlo / wl * n1 + wlo / wl2 * n2 - n_out))
    /\ (3 / 2 <= Rabs (wl - wavelength1_nm (cfg s)) ->
        exists n1 n2,
          beam_index s p1 i2 (Some theta) = Ok n1
          /\ beam_index s p2 i1 (Some theta) = Ok n2
          /\ nth i (scan_efficiency sc) 0
             = efficiency_of s (wlo / wl2 * n1 + wlo / wl * n2 - n_out)).
Proof.
  intros Hk Hp H1 H2 Ho Hw Lb Lo Hty mode Hlook Hacc Hi theta wl wl2 wlo.
  apply acceptance_wavelength_inv in Hacc as (deg' & dn & Hl & Hax & Hm & He).
  assert (deg' = deg) by congruence. subst deg'.
  apply mapM_inv in Hm. rewrite <- Hax in Hm.
  pose proof (Forall2_nth _ _ _ i 0 0 Hm Hi) as Hn. cbv beta in Hn.
  unfold wavelength_sample in Hn. rewrite Hp in Hn.
  fold wl in Hn. fold wl2 in Hn. fold wlo in Hn. fold theta in Hn. fold mode in Hn.
  assert (Hidn : (i < List.length dn)%nat)
    by (rewrite <- (Forall2_length_eq _ _ _ Hm); exact Hi).
  assert (Heff : forall v, nth i dn 0 = v ->
            nth i (scan_efficiency sc) 0 = efficiency_of s v).
  { intros v <-. rewrite He. apply nth_map_inside. exact Hidn. }
  destruct (delta_n_beam_order s p1 (wavelength1_nm (cfg s)) p2 lb po lo ty theta
              wl wl2 wlo None Hk Hp H1 H2 Ho Hw Lb Lo Hty)
    as (i1 & i2 & io & n_out & E1 & E2 & Eo & En & Hnear & Hfar).
  cbn [in_effect] in E1, E2, Eo.
  exists i1, i2, io, n_out. repeat (split; [assumption|]).
  split.
  - intros Hc. destruct (Hnear Hc) as (n1 & n2 & N1 & N2 & Hd).
    exists n1, n2. repeat (split; [assumption|]).
    apply Heff. fold mode in Hd. congruence.
  - intros Hc. destruct (Hfar Hc) as (n1 & n2 & N1 & N2 & Hd).
    exists n1, n2. repeat (split; [assumption|]).
    apply Heff. fold mode in Hd. congruence.
Qed.

Lemma wavelength_scan_beam_order_witness :
  exists sc i1 i2 io n1 n2 n_out,
    acceptance_wavelength lbo_sfg_solver
      [(mode_name ch_O (format_0f 1064) ch_E (lit "532") ch_E (lit "355") "Type II",
        30)]
      (mode_name ch_O (format_0f 1064) ch_E (lit "532") ch_E (lit "355") "Type II")
      100 0.1 = Ok sc
    /\ get_indices lbo_sfg_cfg (Some (nth 0 (scan_axis_of sc) 0)) (Some 20) = Ok i1
    /\ get_indices lbo_sfg_cfg (Some (532 / 1064 * nth 0 (scan_axis_of sc) 0))
         (Some 20) = Ok i2
    /\ get_indices lbo_sfg_cfg
         (Some (1 / (1 / nth 0 (scan_axis_of sc) 0
                     + 1 / (532 / 1064 * nth 0 (scan_axis_of sc) 0))))
         (Some 20) = Ok io
    /\ beam_index lbo_sfg_solver ch_O i2 (Some (deg2rad 30)) = Ok n1
    /\ beam_index lbo_sfg_solver ch_E i1 (Some (deg2rad 30)) = Ok n2
    /\ beam_index lbo_sfg_solver ch_E io (Some (deg2rad 30)) = Ok n_out
    /\ nth 0 (scan_efficiency sc) 0
       = efficiency_of lbo_sfg_solver
           (1 / (1 / nth 0 (scan_axis_of sc) 0
                 + 1 / (532 / 1064 * nth 0 (scan_axis_of sc) 0))
            / (532 / 1064 * nth 0 (scan_axis_of sc) 0) * n1
            + 1 / (1 / nth 0 (scan_axis_of sc) 0
                   + 1 / (532 / 1064 * nth 0 (scan_axis_of sc) 0))
              / nth 0 (scan_axis_of sc) 0 * n2
            - n_out).
Proof.
  set (mode := mode_name ch_O (format_0f 1064) ch_E (lit "532") ch_E (lit "355")
                 "Type II").
  assert (L532 : label_shape (lit "532"))
    by (apply label_shape_digits; [discriminate | reflexivity]).
  assert (L355 : label_shape (lit "355"))
    by (apply label_shape_digits; [discriminate | reflexivity]).
  assert (Hlook : lookup mode [(mode, 30)] = Some 30).
  { unfold lookup. rewrite pystr_eqb_refl. reflexivity. }
  assert (Hret : returns (delta_n lbo_sfg_solver mode (Some 0)
                            (Some 1064) (Some 532) (Some 355) None)).
  { destruct (delta_n_beam_order lbo_sfg_solver ch_O 1064 ch_E (lit "532") ch_E
                (lit "355") "Type II" 0 1064 532 355 None eq_refl eq_refl
                (or_introl eq_refl) (or_intror eq_refl) (or_intror eq_refl)
                ltac:(lra) L532 L355 (or_intror eq_refl))
      as (j1 & j2 & jo & m_out & _ & _ & _ & _ & Hnear & _).
    destruct Hnear as (n1 & n2 & _ & _ & H).
    { replace (1064 - 1064) with 0 by lra. rewrite Rabs_R0. lra. }
    eexists. exact H. }
  assert (Hin : In (acceptance_wavelength, wavelength1_nm (cfg lbo_sfg_solver), 0.1)
                   (acceptance_variants lbo_sfg_solver 30 0.1))
    by (right; left; reflexivity).
  destruct (acceptance_returns lbo_sfg_solver [(mode, 30)] mode 100 0.1 30 _ _ _
              0 (Some 1064) (Some 532) (Some 355) None Hin Hlook Hret) as [sc Hsc].
  destruct (acceptance_axis _ _ _ _ _ _ _ _ _ _ Hin Hlook Hsc) as (Hax & _).
  pose proof (scan_axis_samples (wavelength1_nm (cfg lbo_sfg_solver)) 100 0.1)
    as [Hlen Hnth].
  assert (Hi : (0 < List.length (scan_axis_of sc))%nat)
    by (rewrite Hax, Hlen; lia).
  assert (Hwl : nth 0 (scan_axis_of sc) 0 = 1054).
  { rewrite Hax, Hnth by lia.
    change (wavelength1_nm (cfg lbo_sfg_solver)) with 1064. simpl. lra. }
  destruct (wavelength_scan_beam_order lbo_sfg_solver [(mode, 30)] 30 100 0.1 sc
              ch_O ch_E ch_E (lit "532") (lit "355") "Type II" 0%nat
              eq_refl eq_refl (or_introl eq_refl) (or_intror eq_refl)
              (or_intror eq_refl) ltac:(change (0 < 1064); lra) L532 L355
              (or_intror eq_refl) Hlook Hsc Hi)
    as (i1 & i2 & io & n_out & E1 & E2 & Eo & En & _ & Hfar).
  destruct Hfar as (n1 & n2 & N1 & N2 & H).
  { rewrite Hwl. change (wavelength1_nm (cfg lbo_sfg_solver)) with 1064.
    replace (1054 - 1064) with (- (10)) by lra.
    rewrite Rabs_Ropp, Rabs_right by lra. lra. }
  exists sc, i1, i2, io, n1, n2, n_out.
  repeat split; assumption.
Defined.

(** ** Walk-off *)

Lemma input_pol_pair_error (ip : pystr) (e : error) :
  input_pol_pair ip = Raise e -> e = IndexError.
Proof.
  unfold input_pol_pair. destruct (input_pols ip) as [|a [|b l]]; congruence.
Qed.

(** X16.  What [walkoff_angle] stores for one mode.  A NaN angle gives NaN
    whatever the identifier.  With a defined angle, an identifier that does
    not split into two parts at the arrow gives the text for a format error
    and no exception; an identifier whose input part carries no polarisation
    label raises [IndexError]; any other identifier gives the three-beam
    text, provided the crystal has dispersion formulas. *)
Theorem walkoff_mode_outcome s mode deg :
  walkoff_mode s mode None = Ok WalkoffNaN
  /\ (List.length (arrow_parts mode) <> 2%nat ->
      walkoff_mode s mode (Some deg) = Ok WalkoffFormatError)
  /\ (List.length (arrow_parts mode) = 2%nat ->
      input_label_missing mode = true ->
      walkoff_mode s mode (Some deg) = Raise IndexError)
  /\ (List.length (arrow_parts mode) = 2%nat ->
      input_label_missing mode = false ->
      known_crystal (crystal_name (cfg s)) = true ->
      exists b1 b2 b_out,
        walkoff_mode s mode (Some deg) = Ok (WalkoffText b1 b2 b_out)).
Proof.
  split; [reflexivity|].
  unfold arrow_parts, input_label_missing, input_part_of, arrow_parts.
  unfold walkoff_mode at 1 2.
  destruct (split_on ch_arrow mode) as [|p0 [|p1 [|p2 ps]]] eqn:Es; cbn [List.length nth].
  1,2,4: split; [reflexivity|]; split; intros H; exfalso; lia.
  split; [intros H; exfalso; apply H; reflexivity|].
  split.
  - intros _ Hm. apply negb_true_iff in Hm.
    apply input_pol_pair_raises in Hm as [e He].
    rewrite He. rewrite (input_pol_pair_error _ _ He). reflexivity.
  - intros _ Hm Hk. apply negb_false_iff in Hm.
    destruct (input_pol_pair (strip p0)) as [[pol1 pol2]|e] eqn:Epp.
    + destruct (walkoff_mode_reports s mode deg p0 p1 pol1 pol2 Hk Es Epp)
        as (i1 & i2 & io & _ & _ & _ & H).
      do 3 eexists. exact H.
    + assert (Hr : exists e', input_pol_pair (strip p0) = Raise e') by eauto.
      apply input_pol_pair_raises in Hr. congruence.
Qed.

Lemma walkoff_mode_outcome_witness :
  walkoff_mode kdp_solver mode_xxy (Some 45) = Raise IndexError.
Proof.
  destruct (walkoff_mode_outcome kdp_solver mode_xxy 45) as (_ & _ & H & _).
  apply H; reflexivity.
Defined.

Lemma rad2deg_pos x : 0 < x -> 0 < rad2deg x.
Proof.
  intros H. unfold rad2deg. pose proof PI_RGT_0.
  apply Rmult_lt_0_compat; [assumption|]. apply Rdiv_lt_0_compat; lra.
Qed.

Lemma rad2deg_minus x y : rad2deg (x - y) = rad2deg x - rad2deg y.
Proof. unfold rad2deg. ring. Qed.

Lemma deg2rad_rad2deg x : rad2deg (deg2rad x) = x.
Proof. unfold deg2rad, rad2deg. pose proof PI_RGT_0. field. lra. Qed.

(** X17.  The walk-off of a beam that is not labelled ordinary, at an angle
    strictly between 0 and 90 degrees and for positive indices [a], [b] of
    the plane: it is positive when [a < b], zero when [a = b] and negative
    when [b < a]; it lies strictly between the angle minus 90 degrees and the
    angle; and the value in milliradians is the value in degrees converted. *)
Theorem calc_walkoff_sign s deg pol w i a b r :
  N.eqb pol ch_O = false ->
  get_indices (cfg s) (Some w) None = Ok i ->
  plane_pair (plane (cfg s)) i = (a, b) ->
  0 < a -> 0 < b -> 0 < deg < 90 ->
  calc_walkoff s (deg2rad deg) pol w = Ok r ->
  (a < b -> 0 < fst r) /\ (a = b -> fst r = 0) /\ (b < a -> fst r < 0)
  /\ deg - 90 < fst r < deg
  /\ snd r = deg2rad (fst r) * 1000.
Proof.
  intros Hp Hi Hab Ha Hb Hdeg Hr.
  rewrite (calc_walkoff_extraordinary s _ pol w i Hp Hi), Hab in Hr.
  cbn [fst snd] in Hr. injection Hr as <-. cbn [fst snd].
  unfold walkoff_formula.
  destruct (deg2rad_range deg Hdeg) as [Ht0 Ht1].
  set (t := deg2rad deg) in *.
  pose proof (tan_gt_0 _ Ht0 Ht1) as Htan.
  assert (Hq : 0 < a ^ 2 / b ^ 2).
  { apply Rdiv_lt_0_compat; apply pow_lt; assumption. }
  assert (Hat : atan (tan t) = t) by (apply atan_tan; lra).
  assert (Hpos : 0 < atan (a ^ 2 / b ^ 2 * tan t)).
  { rewrite <- atan_0. apply atan_increasing. apply Rmult_lt_0_compat; assumption. }
  pose proof (atan_bound (a ^ 2 / b ^ 2 * tan t)) as [_ Hup].
  assert (Hdegt : deg = rad2deg t) by (unfold t; rewrite deg2rad_rad2deg; reflexivity).
  assert (H90 : rad2deg (PI / 2) = 90).
  { unfold rad2deg. pose proof PI_RGT_0. field. lra. }
  split; [|split; [|split; [|split]]].
  - intros Hlt. apply rad2deg_pos.
    assert (a ^ 2 / b ^ 2 < 1).
    { apply Rmult_lt_reg_r with (b ^ 2); [apply pow_lt; assumption|].
      unfold Rdiv. rewrite Rmult_assoc, Rinv_l by (apply pow_nonzero; lra). nra. }
    assert (Hl : a ^ 2 / b ^ 2 * tan t < tan t) by nra.
    apply atan_increasing in Hl. lra.
  - intros ->.
    replace (b ^ 2 / b ^ 2) with 1 by (field; lra).
    rewrite Rmult_1_l, Hat. unfold rad2deg. ring.
  - intros Hlt.
    assert (1 < a ^ 2 / b ^ 2).
    { apply Rmult_lt_reg_r with (b ^ 2); [apply pow_lt; assumption|].
      unfold Rdiv. rewrite Rmult_assoc, Rinv_l by (apply pow_nonzero; lra). nra. }
    assert (Hl : tan t < a ^ 2 / b ^ 2 * tan t) by nra.
    apply atan_increasing in Hl.
    assert (Hn : 0 < rad2deg (atan (a ^ 2 / b ^ 2 * tan t) - t))
      by (apply rad2deg_pos; lra).
    rewrite rad2deg_minus in *. lra.
  - rewrite rad2deg_minus, Hdegt.
    pose proof (rad2deg_pos _ Hpos) as H1.
    assert (H2 : 0 < rad2deg (PI / 2 - atan (a ^ 2 / b ^ 2 * tan t)))
      by (apply rad2deg_pos; lra).
    rewrite rad2deg_minus, H90 in H2. lra.
  - rewrite rad2deg_deg2rad. lra.
Qed.

Lemma bbo_indices_532 i :
  get_indices bbo_sfg_cfg (Some 532) None = Ok i ->
  1.5 < n_z i < 1.6 /\ 1.6 < n_x i < 1.7.
Proof.
  unfold get_indices, _get_indices_default. cbn -[pow]. intros [= <-]. cbn [n_z n_x].
  replace (20 - 20.0) with 0 by lra. rewrite !Rmult_0_r, !Rminus_0_r.
  split; apply sqrt_between; lra.
Qed.

Lemma calc_walkoff_sign_witness :
  exists r, calc_walkoff bbo_sfg_solver (deg2rad 45) ch_E 532 = Ok r
            /\ 0 < fst r < 45.
Proof.
  destruct (get_indices_known bbo_sfg_cfg (Some 532) None eq_refl) as [i E].
  destruct (bbo_indices_532 i E) as [Hz Hx].
  eexists. split.
  - apply (calc_walkoff_extraordinary bbo_sfg_solver (deg2rad 45) ch_E 532 i eq_refl E).
  - destruct (calc_walkoff_sign bbo_sfg_solver 45 ch_E 532 i (n_z i) (n_x i) _
                eq_refl E eq_refl ltac:(lra) ltac:(lra) ltac:(lra)
                (calc_walkoff_extraordinary bbo_sfg_solver (deg2rad 45) ch_E 532 i
                   eq_refl E)) as (Hpos & _ & _ & Hb & _).
    split; [apply Hpos; lra | apply Hb].
Defined.

(** ** Effective nonlinearity *)

(** X18.  [d_eff] raises [KeyError] exactly when the crystal is not a key of
    the table of crystals.  For a solver built by the constructor from a
    configuration built by its constructor this does not happen: every
    crystal that has dispersion formulas is in the table, and [d_eff] returns
    one entry per entry of the dictionary it is given, with the same keys in
    the same order. *)
Theorem d_eff_outcome s theta_critical_dict selected_phi :
  (d_eff s theta_critical_dict selected_phi = Raise KeyError
   <-> assoc (crystal_name (cfg s)) (crystal_db (cfg s)) = None)
  /\ (forall name w T pl proc w2 src,
        Solver_init (SimulationConfig_init name w T pl proc w2 src) = Ok s ->
        exists result,
          d_eff s theta_critical_dict selected_phi = Ok result
          /\ map fst result = map fst theta_critical_dict).
Proof.
  split.
  - unfold d_eff. destruct (assoc _ _); split; congruence.
  - intros name w T pl proc w2 src Hs.
    destruct (Solver_init_inv _ _ Hs) as (Hk & Hc & _).
    unfold d_eff. rewrite Hc.
    cbn [crystal_name crystal_db SimulationConfig_init] in *.
    assert (Hin : exists info, assoc name default_crystal_db = Some info).
    { apply known_crystal_names in Hk. simpl in Hk.
      decompose [or] Hk; subst; try contradiction; eexists; reflexivity. }
    destruct Hin as [info ->].
    eexists. split; [reflexivity|].
    rewrite map_map. reflexivity.
Qed.

Lemma d_eff_outcome_witness :
  exists result,
    d_eff kdp_solver [(mode_ooe_1064, Some 41)] None = Ok result
    /\ map fst result = [mode_ooe_1064].
Proof.
  destruct (d_eff_outcome kdp_solver [(mode_ooe_1064, Some 41)] None) as [_ H].
  apply (H "KDP"%string 1064 20 "XZ"%string SHG None default_source).
  exact kdp_solver_init.
Defined.

Lemma d_eff_4bar2m_value s info phi mode deg ty :
  group info = "4bar2m"%string ->
  get_mode_type mode = Some ty ->
  (ty = "OOE" \/ ty = "OEO")%string ->
  plane (cfg s) = "XZ"%string \/ plane (cfg s) = "YZ"%string ->
  d_eff_mode s info phi mode (Some deg)
  = Some (Rabs (dict_get (d info) "d36" * sin (deg2rad deg)
                * sin (2 * deg2rad (in_effect phi
                                      (if String.eqb (plane (cfg s)) "XZ"
                                       then 0 else 90))))).
Proof.
  intros Hg Hty Ht Hpl. unfold d_eff_mode. rewrite Hty.
  destruct Hpl as [-> | ->]; cbn [String.eqb Ascii.eqb Bool.eqb];
    unfold d_eff_value; rewrite Hg; cbn [String.eqb Ascii.eqb Bool.eqb];
    destruct Ht as [-> | ->]; cbn [String.eqb Ascii.eqb Bool.eqb nan1 nan2];
    destruct phi; cbn [in_effect]; repeat f_equal; lra.
Qed.

(** X19.  For a crystal of class 4bar2m and a mode of type OOE or OEO.  In
    the XZ plane without [selected_phi] the coefficient is zero at every
    angle: the azimuth defaults to 0, where the factor sin(2 phi) vanishes.
    In the XZ and the YZ plane with [selected_phi] equal to 45 degrees it is
    |d36 sin(theta)|. *)
Theorem d_eff_4bar2m_azimuth s info mode deg ty :
  group info = "4bar2m"%string ->
  get_mode_type mode = Some ty ->
  (ty = "OOE" \/ ty = "OEO")%string ->
  (plane (cfg s) = "XZ"%string ->
   d_eff_mode s info None mode (Some deg) = Some 0)
  /\ (plane (cfg s) = "XZ"%string \/ plane (cfg s) = "YZ"%string ->
      d_eff_mode s info (Some 45) mode (Some deg)
      = Some (Rabs (dict_get (d info) "d36" * sin (deg2rad deg)))).
Proof.
  intros Hg Hty Ht. split.
  - intros Hpl.
    rewrite (d_eff_4bar2m_value s info _ mode deg ty Hg Hty Ht (or_introl Hpl)).
    rewrite Hpl. cbn [in_effect String.eqb Ascii.eqb Bool.eqb]. f_equal.
    unfold deg2rad at 2. replace (2 * (0 * (PI / 180))) with 0 by field.
    rewrite sin_0, Rmult_0_r. apply Rabs_R0.
  - intros Hpl.
    rewrite (d_eff_4bar2m_value s info _ mode deg ty Hg Hty Ht Hpl).
    cbn [in_effect]. f_equal.
    unfold deg2rad at 2. replace (2 * (45 * (PI / 180))) with (PI / 2) by field.
    rewrite sin_PI2, Rmult_1_r. reflexivity.
Qed.

Lemma d_eff_4bar2m_azimuth_witness :
  d_eff_mode kdp_solver
    (mk_crystal_info "4bar2m" [("d36"%string, 0.39); ("d14"%string, 0.39)])
    None mode_ooe_1064 (Some 41) = Some 0.
Proof.
  apply (d_eff_4bar2m_azimuth kdp_solver
           (mk_crystal_info "4bar2m" [("d36"%string, 0.39); ("d14"%string, 0.39)])
           mode_ooe_1064 41 "OOE").
  - reflexivity.
  - reflexivity.
  - left; reflexivity.
  - reflexivity.
Defined.

(** X20.  [selected_phi] is not read in the XY plane, where the azimuth is
    the critical angle itself, nor for a crystal of class mm2, whose formulas
    have no azimuth: in both cases [d_eff] gives the same dictionary for
    every [selected_phi]. *)
Theorem d_eff_ignores_azimuth s theta_critical_dict phi phi' :
  plane (cfg s) = "XY"%string
  \/ (exists info, assoc (crystal_name (cfg s)) (crystal_db (cfg s)) = Some info
                   /\ group info = "mm2"%string) ->
  d_eff s theta_critical_dict phi = d_eff s theta_critical_dict phi'.
Proof.
  intros H. unfold d_eff.
  destruct (assoc (crystal_name (cfg s)) (crystal_db (cfg s))) as [info|];
    [|reflexivity].
  f_equal. apply map_ext. intros [mode angle]. cbn [fst snd]. f_equal.
  unfold d_eff_mode. destruct (get_mode_type mode) as [ty|]; [|reflexivity].
  destruct H as [-> | (info' & [= <-] & Hg)]; [reflexivity|].
  unfold d_eff_value. rewrite Hg. cbn [String.eqb Ascii.eqb Bool.eqb].
  destruct (String.eqb (plane (cfg s)) "XY"); [reflexivity|].
  destruct (String.eqb (plane (cfg s)) "XZ");
    [|destruct (String.eqb (plane (cfg s)) "YZ"); [|reflexivity]];
    destruct (String.eqb ty "OOE"); try reflexivity;
    destruct (String.eqb ty "OEE" || String.eqb ty "OEO")%bool; reflexivity.
Qed.

Lemma d_eff_ignores_azimuth_witness :
  d_eff lbo_sfg_solver [(mode_xxy, Some 30)] None
  = d_eff lbo_sfg_solver [(mode_xxy, Some 30)] (Some 45).
Proof.
  apply (d_eff_ignores_azimuth lbo_sfg_solver [(mode_xxy, Some 30)] None (Some 45)).
  left. reflexivity.
Defined.

Lemma Rabs_scaled_le d x y :
  -1 <= x <= 1 -> -1 <= y <= 1 -> Rabs (d * x * y) <= Rabs d.
Proof.
  intros Hx Hy. rewrite !Rabs_mult.
  assert (Rabs x <= 1) by (apply Rabs_le; lra).
  assert (Rabs y <= 1) by (apply Rabs_le; lra).
  pose proof (Rabs_pos d). pose proof (Rabs_pos x). pose proof (Rabs_pos y).
  assert (Rabs d * Rabs x <= Rabs d) by nra.
  assert (0 <= Rabs d * Rabs x) by nra.
  nra.
Qed.

(** X21.  For a crystal of class 4bar2m the coefficient stored for a mode,
    when it is not NaN, lies between zero and |d36|, in every plane, for
    every identifier, angle and azimuth. *)
Theorem d_eff_4bar2m_bound s info phi mode angle v :
  group info = "4bar2m"%string ->
  d_eff_mode s info phi mode angle = Some v ->
  0 <= v <= Rabs (dict_get (d info) "d36").
Proof.
  intros Hg. unfold d_eff_mode.
  assert (Z0 : forall x, Some 0.0 = Some x -> 0 <= x <= Rabs (dict_get (d info) "d36")).
  { intros x [= <-]. split; [lra|]. replace 0.0 with 0 by lra. apply Rabs_pos. }
  assert (V : forall t p x,
             nan1 Rabs (d_eff_value info (plane (cfg s))
                          match get_mode_type mode with Some ty => ty | None => "" end
                          t p) = Some x ->
             0 <= x <= Rabs (dict_get (d info) "d36")).
  { intros t p x. unfold d_eff_value. rewrite Hg. cbn [String.eqb Ascii.eqb Bool.eqb].
    repeat match goal with
           | |- context [if String.eqb ?a ?b then _ else _] => destruct (String.eqb a b)
           end;
      destruct t as [t|], p as [p|]; cbn [nan1 nan2]; try discriminate;
      intros [= <-]; (split; [apply Rabs_pos|]);
      try (apply Rabs_scaled_le; first [apply SIN_bound | apply COS_bound]);
      replace 0.0 with 0 by lra; rewrite Rabs_R0; apply Rabs_pos. }
  destruct (get_mode_type mode) as [ty|]; [|apply Z0].
  destruct (String.eqb (plane (cfg s)) "XY"); [apply V|].
  destruct (String.eqb (plane (cfg s)) "XZ"); [apply V|].
  destruct (String.eqb (plane (cfg s)) "YZ"); [apply V | apply Z0].
Qed.

Lemma d_eff_4bar2m_bound_witness :
  exists v,
    d_eff_mode kdp_solver
      (mk_crystal_info "4bar2m" [("d36"%string, 0.39); ("d14"%string, 0.39)])
      (Some 45) mode_ooe_1064 (Some 41) = Some v
    /\ 0 <= v <= Rabs 0.39.
Proof.
  destruct (d_eff_mode_defined kdp_solver
      (mk_crystal_info "4bar2m" [("d36"%string, 0.39); ("d14"%string, 0.39)])
      (Some 45) mode_ooe_1064 41) as (v & Hv & _).
  exists v. split; [exact Hv|].
  apply (d_eff_4bar2m_bound kdp_solver
      (mk_crystal_info "4bar2m" [("d36"%string, 0.39); ("d14"%string, 0.39)])
      (Some 45) mode_ooe_1064 (Some 41) v eq_refl Hv).
Defined.

(** ** The acceptance scans *)

Lemma scan_axis_empty nominal step unit :
  (step <= 0)%Z -> scan_axis nominal step unit = [].
Proof.
  intros H. unfold scan_axis, arange_int.
  replace (Z.to_nat (step - - step)) with 0%nat by lia. reflexivity.
Qed.

(** X22.  Two edge cases of the three acceptance methods.  A target mode
    that is not a key of the dictionary of angles is a [KeyError].  With a
    number of steps that is zero or negative the scan is empty: the method
    returns an empty axis, an empty curve and NaN widths, and [delta_n] is
    never called, so that even an identifier that [delta_n] would refuse is
    accepted. *)
Theorem acceptance_edge_cases s d m step res :
  (lookup m d = None ->
   acceptance_angle s d m step res = Raise KeyError
   /\ acceptance_wavelength s d m step res = Raise KeyError
   /\ acceptance_temperature s d m step res = Raise KeyError)
  /\ (forall deg, lookup m d = Some deg -> (step <= 0)%Z ->
      acceptance_angle s d m step res = Ok (mk_scan [] [] None None)
      /\ acceptance_wavelength s d m step res = Ok (mk_scan [] [] None None)
      /\ acceptance_temperature s d m step res = Ok (mk_scan [] [] None None)).
Proof.
  unfold acceptance_angle, acceptance_wavelength, acceptance_temperature,
    getitem_angle.
  split.
  - intros ->. repeat split; reflexivity.
  - intros deg -> Hs. cbn [bind]. rewrite !scan_axis_empty by exact Hs.
    repeat split; try reflexivity.
    destruct (process_type (cfg s)); reflexivity.
Qed.

Lemma acceptance_edge_cases_witness :
  acceptance_angle kdp_solver [(mode_ooe_1064, 41)] mode_xxy 1000 0.1
  = Raise KeyError
  /\ acceptance_temperature kdp_solver [(mode_xxy, 41)] mode_xxy 0 0.1
     = Ok (mk_scan [] [] None None).
Proof.
  destruct (acceptance_edge_cases kdp_solver [(mode_ooe_1064, 41)] mode_xxy 1000 0.1)
    as [H _].
  destruct (H eq_refl) as (A & _ & _).
  destruct (acceptance_edge_cases kdp_solver [(mode_xxy, 41)] mode_xxy 0 0.1)
    as [_ H'].
  destruct (H' 41 eq_refl ltac:(lia)) as (_ & _ & B).
  exact (conj A B).
Defined.

(** *** The width *)

Lemma indices_above_half_In eff : forall i k,
  In k (indices_above_half i eff)
  <-> (i <= k < i + List.length eff)%nat /\ 0.5 <= nth (k - i) eff 0.
Proof.
  induction eff as [|e eff IH]; intros i k; simpl.
  - split; [tauto | intros [H _]; lia].
  - destruct (Rle_dec 0.5 e) as [He|He]; simpl; rewrite IH.
    + split.
      * intros [<- | [Hk Hn]].
        -- split; [lia|]. replace (i - i)%nat with 0%nat by lia. exact He.
        -- split; [lia|]. destruct (k - i)%nat as [|n] eqn:E; [lia|].
           replace (k - S i)%nat with n in Hn by lia. exact Hn.
      * intros [Hk Hn]. destruct (Nat.eq_dec i k) as [->|Hne]; [left; reflexivity|].
        right. split; [lia|]. destruct (k - i)%nat as [|n] eqn:E; [lia|].
        replace (k - S i)%nat with n by lia. exact Hn.
    + split.
      * intros [Hk Hn]. split; [lia|]. destruct (k - i)%nat as [|n] eqn:E; [lia|].
        replace (k - S i)%nat with n in Hn by lia. exact Hn.
      * intros [Hk Hn]. destruct (k - i)%nat as [|n] eqn:E.
        -- exfalso. apply He. exact Hn.
        -- split; [lia|]. replace (k - S i)%nat with n by lia. exact Hn.
Qed.

Lemma indices_above_half_sorted eff : forall i,
  StronglySorted lt (indices_above_half i eff).
Proof.
  induction eff as [|e eff IH]; intros i; simpl; [constructor|].
  destruct (Rle_dec 0.5 e); [|apply IH].
  constructor; [apply IH|].
  apply Forall_forall. intros k Hk. apply indices_above_half_In in Hk. lia.
Qed.

Lemma last_cons {A : Type} (a : A) (l : list A) (d : A) :
  last (a :: l) d = last l a.
Proof.
  revert a d. induction l as [|b l IH]; intros a d; [reflexivity|].
  change (last (a :: b :: l) d) with (last (b :: l) d).
  rewrite (IH b d), (IH b a). reflexivity.
Qed.

Lemma last_sorted (rest : list nat) : forall j,
  StronglySorted lt (j :: rest) ->
  In (last rest j) (j :: rest)
  /\ forall k, In k (j :: rest) -> (j <= k <= last rest j)%nat.
Proof.
  induction rest as [|a rest IH]; intros j Hs.
  - simpl. split; [auto|]. intros k [<-|[]]. lia.
  - apply StronglySorted_inv in Hs as [Hs Hj].
    rewrite last_cons. destruct (IH a Hs) as [Hin Hall].
    split; [right; exact Hin|].
    assert (Ha : (j < a)%nat) by (inversion Hj; assumption).
    intros k [<-|Hk].
    + specialize (Hall a (or_introl eq_refl)). lia.
    + specialize (Hall k Hk). lia.
Qed.

Lemma fwhm_None axis eff :
  fwhm axis eff = None <-> Forall (fun e => e < 0.5) eff.
Proof.
  unfold fwhm. split.
  - destruct (indices_above_half 0 eff) as [|l rest] eqn:E; [|discriminate].
    intros _. apply Forall_forall. intros e He.
    apply (In_nth _ _ 0) in He as (k & Hk & <-).
    destruct (Rlt_dec (nth k eff 0) 0.5) as [|Hn]; [assumption|exfalso].
    assert (Hin : In k (indices_above_half 0 eff)).
    { apply indices_above_half_In. rewrite Nat.sub_0_r. split; [lia|lra]. }
    rewrite E in Hin. exact Hin.
  - intros H. destruct (indices_above_half 0 eff) as [|l rest] eqn:E; [reflexivity|].
    exfalso.
    assert (Hin : In l (indices_above_half 0 eff)) by (rewrite E; left; reflexivity).
    apply indices_above_half_In in Hin as [Hl Hv]. rewrite Nat.sub_0_r in Hv.
    rewrite Forall_forall in H.
    assert (nth l eff 0 < 0.5) by (apply H, nth_In; lia). lra.
Qed.

Lemma fwhm_Some axis eff w :
  fwhm axis eff = Some w ->
  exists l u,
    (l <= u < List.length eff)%nat
    /\ 0.5 <= nth l eff 0 /\ 0.5 <= nth u eff 0
    /\ (forall i, (i < l \/ u < i)%nat -> (i < List.length eff)%nat ->
                  nth i eff 0 < 0.5)
    /\ w = nth u axis 0 - nth l axis 0.
Proof.
  unfold fwhm.
  destruct (indices_above_half 0 eff) as [|l rest] eqn:E; [discriminate|].
  intros [= <-].
  pose proof (indices_above_half_sorted eff 0) as Hs. rewrite E in Hs.
  destruct (last_sorted rest l Hs) as [Hin Hall].
  exists l, (last rest l).
  assert (Hl : In l (indices_above_half 0 eff)) by (rewrite E; left; reflexivity).
  rewrite <- E in Hin.
  apply indices_above_half_In in Hl as [Hl1 Hl2].
  apply indices_above_half_In in Hin as [Hu1 Hu2].
  rewrite Nat.sub_0_r in *.
  specialize (Hall l (or_introl eq_refl)) as Hlu.
  split; [lia|]. split; [exact Hl2|]. split; [exact Hu2|]. split; [|reflexivity].
  intros i Hi Hlen.
  destruct (Rlt_dec (nth i eff 0) 0.5) as [|Hn]; [assumption|exfalso].
  assert (Hi' : In i (indices_above_half 0 eff)).
  { apply indices_above_half_In. rewrite Nat.sub_0_r. split; [lia|lra]. }
  rewrite E in Hi'. specialize (Hall i Hi'). lia.
Qed.

Lemma acceptance_width s d m step res deg acc nominal unit sc :
  In (acc, nominal, unit) (acceptance_variants s deg res) ->
  lookup m d = Some deg ->
  acc s d m step res = Ok sc ->
  exists scale,
    scale * unit = res
    /\ scan_width sc
       = nan1 (fun w => w * scale) (fwhm (scan_axis_of sc) (scan_efficiency sc)).
Proof.
  intros Hin Hdeg Hacc.
  simpl in Hin. destruct Hin as [H|[H|[H|[]]]]; injection H as <- <- <-.
  - exists 1000. split; [lra|].
    unfold acceptance_angle, getitem_angle in Hacc. rewrite Hdeg in Hacc.
    cbn [bind] in Hacc. apply bind_Ok_inv in Hacc as (dn & _ & H).
    injection H as <-. reflexivity.
  - exists 1. split; [lra|].
    unfold acceptance_wavelength, getitem_angle in Hacc. rewrite Hdeg in Hacc.
    cbn [bind] in Hacc. apply bind_Ok_inv in Hacc as (dn & _ & H).
    injection H as <-. cbn [scan_width scan_axis_of scan_efficiency].
    destruct (fwhm _ _); cbn [nan1]; [f_equal; lra | reflexivity].
  - exists 1. split; [lra|].
    unfold acceptance_temperature, getitem_angle in Hacc. rewrite Hdeg in Hacc.
    cbn [bind] in Hacc. apply bind_Ok_inv in Hacc as (dn & _ & H).
    injection H as <-. cbn [scan_width scan_axis_of scan_efficiency].
    destruct (fwhm _ _); cbn [nan1]; [f_equal; lra | reflexivity].
Qed.

(** X23.  The width that an acceptance method reports (in mrad for the
    angle, in nm for the wavelength, in degrees C for the temperature).  It
    is NaN exactly when every sample of the efficiency curve is below one
    half.  Otherwise it is the distance between the first and the last
    sample that reach one half, all samples outside them being below one
    half; since the samples are [res] apart, the width is a whole number of
    steps of [res], at most [2 * step - 1] of them. *)
Theorem acceptance_width_steps s d m step res deg acc nominal unit sc :
  In (acc, nominal, unit) (acceptance_variants s deg res) ->
  lookup m d = Some deg ->
  acc s d m step res = Ok sc ->
  let eff := scan_efficiency sc in
  (scan_width sc = None <-> Forall (fun e => e < 0.5) eff)
  /\ (forall w, scan_width sc = Some w ->
      exists l u : nat,
        (l <= u < Z.to_nat (2 * step))%nat
        /\ 0.5 <= nth l eff 0 /\ 0.5 <= nth u eff 0
        /\ (forall i, (i < l \/ u < i)%nat -> (i < Z.to_nat (2 * step))%nat ->
                      nth i eff 0 < 0.5)
        /\ w = INR (u - l) * res).
Proof.
  intros Hin Hdeg Hacc eff.
  destruct (acceptance_width _ _ _ _ _ _ _ _ _ _ Hin Hdeg Hacc) as (scale & Hsc & Hw).
  destruct (acceptance_axis _ _ _ _ _ _ _ _ _ _ Hin Hdeg Hacc)
    as (Hax & dn & He & Hlen & _).
  pose proof (scan_axis_samples nominal step unit) as [Hlen' Hnth].
  assert (Hleff : List.length eff = Z.to_nat (2 * step)).
  { unfold eff. rewrite He, length_map, Hlen, Hlen'. reflexivity. }
  rewrite Hw. fold eff. split.
  - rewrite <- (fwhm_None (scan_axis_of sc) eff).
    destruct (fwhm (scan_axis_of sc) eff); cbn [nan1]; split; congruence.
  - intros w Hws.
    destruct (fwhm (scan_axis_of sc) eff) as [w0|] eqn:Ef; [|discriminate].
    cbn [nan1] in Hws. injection Hws as <-.
    apply fwhm_Some in Ef as (l & u & Hlu & Hl & Hu & Hout & ->).
    rewrite Hleff in *.
    exists l, u. repeat (split; [assumption|]).
    rewrite Hax, !Hnth by lia.
    rewrite minus_INR by lia. rewrite !INR_IZR_INZ. rewrite <- Hsc. ring.
Qed.

Lemma acceptance_width_steps_witness :
  exists sc,
    acceptance_temperature kdp_solver [(mode_ooe_1064, 41)] mode_ooe_1064
      1000 0.1 = Ok sc
    /\ (scan_width sc = None
        <-> Forall (fun e => e < 0.5) (scan_efficiency sc)).
Proof.
  assert (Hin : In (acceptance_temperature, temperature (cfg kdp_solver), 0.1)
                   (acceptance_variants kdp_solver 41 0.1))
    by (right; right; left; reflexivity).
  destruct (kdp_acceptance_returns _ _ _ Hin) as (sc & Hsc & _).
  exists sc. split; [exact Hsc|].
  destruct (acceptance_width_steps kdp_solver [(mode_ooe_1064, 41)] mode_ooe_1064
              1000 0.1 41 _ _ _ sc Hin eq_refl Hsc) as [H _].
  exact H.
Defined.

(** *** The efficiency of one sample *)

Lemma efficiency_of_sinc s dn :
  wavelength_out_um (cfg s) <> 0 ->
  efficiency_of s dn = np_sinc (dn * (1e4 / wavelength_out_um (cfg s))) ^ 2.
Proof.
  intros Hw. unfold efficiency_of. pose proof PI_RGT_0.
  do 2 f_equal. field. split; lra.
Qed.

Lemma np_sinc_even x : np_sinc (- x) = np_sinc x.
Proof.
  unfold np_sinc.
  destruct (Req_dec_T (- x) 0) as [E|E], (Req_dec_T x 0) as [E'|E']; try lra.
  replace (PI * - x) with (- (PI * x)) by ring.
  rewrite sin_neg. pose proof PI_RGT_0. field. split; lra.
Qed.

(** X24.  The efficiency computed from a mismatch, for a non-zero output
    wavelength: it lies between 0 and 1; it is 1 exactly at a zero mismatch;
    it is the same for a mismatch and for its opposite; and it is 0 exactly
    when the mismatch times 10^4 is a non-zero whole multiple of the output
    wavelength in micrometres. *)
Theorem efficiency_of_values s dn :
  wavelength_out_um (cfg s) <> 0 ->
  0 <= efficiency_of s dn <= 1
  /\ (efficiency_of s dn = 1 <-> dn = 0)
  /\ efficiency_of s (- dn) = efficiency_of s dn
  /\ (efficiency_of s dn = 0
      <-> exists k : Z, k <> 0%Z
                        /\ dn * 1e4 = IZR k * wavelength_out_um (cfg s)).
Proof.
  intros Hw. pose proof PI_RGT_0 as HP.
  split; [split; [unfold efficiency_of; apply pow2_ge_0 | apply efficiency_of_le_1]|].
  split; [apply efficiency_of_one_iff; exact Hw|].
  split.
  { rewrite !efficiency_of_sinc by exact Hw.
    replace (- dn * (1e4 / wavelength_out_um (cfg s)))
      with (- (dn * (1e4 / wavelength_out_um (cfg s)))) by ring.
    rewrite np_sinc_even. reflexivity. }
  rewrite efficiency_of_sinc by exact Hw.
  set (x := dn * (1e4 / wavelength_out_um (cfg s))).
  assert (Ex : forall k : Z, dn * 1e4 = IZR k * wavelength_out_um (cfg s) <-> x = IZR k).
  { intros k. unfold x. split; intros H.
    - unfold Rdiv. rewrite <- Rmult_assoc, H. field. exact Hw.
    - rewrite <- H. field. exact Hw. }
  unfold np_sinc. destruct (Req_dec_T x 0) as [E|E].
  - split; [intros H; exfalso; lra|].
    intros (k & Hk & H). exfalso. apply Ex in H. rewrite E in H.
    apply Hk. apply eq_IZR. symmetry. exact H.
  - assert (Hy : PI * x <> 0)
      by (apply Rmult_integral_contrapositive; split; lra).
    split.
    + intros H.
      assert (Hq : sin (PI * x) / (PI * x) = 0).
      { destruct (Req_dec (sin (PI * x) / (PI * x)) 0) as [|Hn]; [assumption|].
        exfalso. apply Rsqr_pos_lt in Hn. rewrite Rsqr_pow2 in Hn. lra. }
      assert (Hs : sin (PI * x) = 0).
      { replace (sin (PI * x)) with (sin (PI * x) / (PI * x) * (PI * x))
          by (field; split; lra).
        rewrite Hq. ring. }
      apply sin_eq_0_0 in Hs as [k Hk].
      exists k.
      assert (Hxk : x = IZR k).
      { apply Rmult_eq_reg_l with PI; [|lra]. rewrite Hk. ring. }
      split; [intros ->; apply E; exact Hxk | apply Ex; exact Hxk].
    + intros (k & Hk & H). apply Ex in H.
      assert (Hs : sin (PI * x) = 0).
      { apply sin_eq_0_1. exists k. rewrite H. ring. }
      rewrite Hs. unfold Rdiv. rewrite Rmult_0_l. ring.
Qed.

Lemma efficiency_of_values_witness :
  0 <= efficiency_of kdp_solver 0.001 <= 1
  /\ efficiency_of kdp_solver (Ropp 0.001) = efficiency_of kdp_solver 0.001.
Proof.
  assert (Hw : wavelength_out_um (cfg kdp_solver) <> 0).
  { change (wavelength_out_um (cfg kdp_solver)) with (1064 / 2 / 1000.0). lra. }
  destruct (efficiency_of_values kdp_solver 0.001 Hw) as (A & _ & B & _).
  exact (conj A B).
Defined.

(** ** The temperature scan *)


Lemma arange_empty start stop step :
  0 < step -> stop <= start -> arange start stop step = Ok [].
Proof.
  intros Hs Hle. unfold arange. destruct (Req_dec_T step 0); [lra|].
  assert (Hq : (stop - start) / step <= 0).
  { unfold Rdiv. assert (0 < / step) by (apply Rinv_0_lt_compat; exact Hs). nra. }
  pose proof (Zceil_bound ((stop - start) / step)) as [Hc _].
  assert (Hz : (Zceil ((stop - start) / step) < 1)%Z) by (apply lt_IZR; lra).
  replace (Z.to_nat (Zceil ((stop - start) / step))) with 0%nat by lia.
  reflexivity.
Qed.

Lemma arange_first start stop step :
  0 < step -> start < stop ->
  exists rest, arange start stop step = Ok (start :: rest).
Proof.
  intros Hs Hlt. unfold arange. destruct (Req_dec_T step 0); [lra|].
  assert (Hq : 0 < (stop - start) / step) by (apply Rdiv_lt_0_compat; lra).
  pose proof (Zceil_bound ((stop - start) / step)) as [_ Hc].
  assert (Hz : (0 < Zceil ((stop - start) / step))%Z) by (apply lt_IZR; lra).
  destruct (Z.to_nat (Zceil ((stop - start) / step))) as [|k] eqn:E; [lia|].
  eexists. cbn [seq map]. do 2 f_equal. simpl. ring.
Qed.

Lemma delta_n_returns_any_temperature s mode th w1 w2 wo T T' :
  returns (delta_n s mode th w1 w2 wo T) ->
  returns (delta_n s mode th w1 w2 wo T').
Proof.
  intros Hr.
  destruct (known_crystal (crystal_name (cfg s))) eqn:Hk.
  - apply not_raises_returns. apply returns_not_raises in Hr.
    rewrite delta_n_raises_characterised in * by exact Hk. exact Hr.
  - exfalso. destruct Hr as [v Hv].
    unfold delta_n, delta_n_terms in Hv.
    rewrite (get_indices_unknown _ _ _ Hk) in Hv. discriminate.
Qed.

Lemma temperature_scan_outcome_returns s mode tmin tmax step :
  0 < step -> tmin < tmax + step ->
  returns (delta_n s mode None None None None (Some tmin)) ->
  returns (temperature_phase_matching s mode tmin tmax step).
Proof.
  intros Hs Hlt Hr. unfold temperature_phase_matching.
  destruct (arange_first _ _ _ Hs Hlt) as [rest ->]. cbn [bind mapM].
  destruct (mapM_returns
              (fun temp => delta_n s mode None None None None (Some temp))
              rest) as [pm Hpm].
  { intros T. eapply delta_n_returns_any_temperature. exact Hr. }
  destruct Hr as [p ->]. rewrite Hpm. cbn [bind array_min array_max].
  eexists. reflexivity.
Qed.

(** X25.  The outcome of the temperature scan for a positive step.  When the
    upper end of the range plus one step does not exceed the lower end, the
    grid is empty and the scan raises [ValueError] (the minimum of an empty
    array), whatever the identifier.  Otherwise the first sample is the
    lower end of the range: an exception of [delta_n] there is the exception
    of the scan, and when [delta_n] returns there the scan returns. *)
Theorem temperature_scan_outcome s mode tmin tmax step :
  0 < step ->
  (tmax + step <= tmin ->
   temperature_phase_matching s mode tmin tmax step = Raise ValueError)
  /\ (tmin < tmax + step ->
      (forall e, delta_n s mode None None None None (Some tmin) = Raise e ->
                 temperature_phase_matching s mode tmin tmax step = Raise e)
      /\ (returns (delta_n s mode None None None None (Some tmin)) ->
          returns (temperature_phase_matching s mode tmin tmax step))).
Proof.
  intros Hs. unfold temperature_phase_matching. split.
  - intros Hle. rewrite (arange_empty _ _ _ Hs Hle). reflexivity.
  - intros Hlt. destruct (arange_first _ _ _ Hs Hlt) as [rest Ha]. rewrite Ha.
    cbn [bind mapM]. split.
    + intros e ->. reflexivity.
    + intros Hr.
      pose proof (temperature_scan_outcome_returns s mode tmin tmax step Hs Hlt Hr)
        as H.
      unfold temperature_phase_matching in H. rewrite Ha in H. exact H.
Qed.

Lemma temperature_scan_outcome_witness :
  temperature_phase_matching kdp_solver mode_ooe_1064 200 20 0.1
  = Raise ValueError.
Proof.
  destruct (temperature_scan_outcome kdp_solver mode_ooe_1064 200 20 0.1
              ltac:(lra)) as [H _].
  apply H. lra.
Defined.




(** *** The extreme values and the closest sample *)

Lemma fold_left_Rmin_spec (l : list R) : forall x,
  fold_left Rmin l x <= x
  /\ Forall (fun y => fold_left Rmin l x <= y) l
  /\ In (fold_left Rmin l x) (x :: l).
Proof.
  induction l as [|a l IH]; intros x; simpl.
  - split; [lra|]. split; [constructor | auto].
  - destruct (IH (Rmin x a)) as (H1 & H2 & H3).
    pose proof (Rmin_l x a). pose proof (Rmin_r x a).
    split; [lra|]. split; [constructor; [lra | exact H2]|].
    destruct H3 as [H3|H3]; [|auto].
    rewrite <- H3. unfold Rmin. destruct (Rle_dec x a); auto.
Qed.

Lemma fold_left_Rmax_spec (l : list R) : forall x,
  x <= fold_left Rmax l x
  /\ Forall (fun y => y <= fold_left Rmax l x) l
  /\ In (fold_left Rmax l x) (x :: l).
Proof.
  induction l as [|a l IH]; intros x; simpl.
  - split; [lra|]. split; [constructor | auto].
  - destruct (IH (Rmax x a)) as (H1 & H2 & H3).
    pose proof (Rmax_l x a). pose proof (Rmax_r x a).
    split; [lra|]. split; [constructor; [lra | exact H2]|].
    destruct H3 as [H3|H3]; [|auto].
    rewrite <- H3. unfold Rmax. destruct (Rle_dec x a); auto.
Qed.

Lemma argmin_from_spec (a : list R) : forall bi b i,
  (bi < i)%nat ->
  let r := argmin_from bi b i a in
  (r = bi /\ Forall (fun x => b <= x) a)
  \/ ((i <= r < i + List.length a)%nat
      /\ nth (r - i) a 0 < b
      /\ (forall j, (j < List.length a)%nat -> nth (r - i) a 0 <= nth j a 0)
      /\ (forall j, (j < r - i)%nat -> nth (r - i) a 0 < nth j a 0)).
Proof.
  induction a as [|x a IH]; intros bi b i Hbi; cbn zeta; simpl.
  - left. split; [reflexivity | constructor].
  - destruct (Rlt_dec x b) as [Hx|Hx].
    + right. destruct (IH i x (S i) ltac:(lia)) as [[Hr Hall]|(Hr & Hv & Hmin & Hfirst)].
      * rewrite Hr. replace (i - i)%nat with 0%nat by lia.
        split; [lia|]. split; [exact Hx|]. split; [|intros j Hj; lia].
        intros [|j] Hj; [lra|]. rewrite Forall_forall in Hall.
        apply Hall, nth_In. lia.
      * set (r := argmin_from i x (S i) a) in *.
        replace (r - i)%nat with (S (r - S i)) by lia.
        split; [lia|]. split; [lra|]. split.
        -- intros [|j] Hj; [lra | apply Hmin; lia].
        -- intros [|j] Hj; [exact Hv | apply Hfirst; lia].
    + destruct (IH bi b (S i) ltac:(lia)) as [[Hr Hall]|(Hr & Hv & Hmin & Hfirst)].
      * left. split; [exact Hr|]. constructor; [lra | exact Hall].
      * right. set (r := argmin_from bi b (S i) a) in *.
        replace (r - i)%nat with (S (r - S i)) by lia.
        split; [lia|]. split; [exact Hv|]. split.
        -- intros [|j] Hj; [lra | apply Hmin; lia].
        -- intros [|j] Hj; [lra | apply Hfirst; lia].
Qed.

Lemma argmin_spec (a : list R) :
  a <> [] ->
  (argmin a < List.length a)%nat
  /\ (forall j, (j < List.length a)%nat -> nth (argmin a) a 0 <= nth j a 0)
  /\ (forall j, (j < argmin a)%nat -> nth (argmin a) a 0 < nth j a 0).
Proof.
  destruct a as [|x a]; [contradiction|]. intros _. unfold argmin.
  destruct (argmin_from_spec a 0%nat x 1%nat ltac:(lia))
    as [[Hr Hall]|(Hr & Hv & Hmin & Hfirst)].
  - rewrite Hr. split; [simpl; lia|]. split; [|intros j Hj; lia].
    intros [|j] Hj; [simpl; lra|]. simpl. rewrite Forall_forall in Hall.
    apply Hall, nth_In. simpl in Hj. lia.
  - set (r := argmin_from 0 x 1 a) in *.
    assert (Er : r = S (r - 1)) by lia.
    split; [simpl; lia|]. rewrite Er. simpl nth at 1 3. split.
    + intros [|j] Hj; [simpl; lra|]. simpl. apply Hmin. simpl in Hj. lia.
    + intros [|j] Hj; [simpl; lra|]. simpl. apply Hfirst. lia.
Qed.

Lemma temperature_result_fields s mode tmin tmax step res :
  temperature_phase_matching s mode tmin tmax step = Ok res ->
  let pm := phase_mismatch_of res in
  array_min pm = Ok (min_phase_mismatch res)
  /\ array_max pm = Ok (max_phase_mismatch res)
  /\ closest_temp res = nth (argmin (map Rabs pm)) (temperature_axis_of res) 0
  /\ closest_pm res = nth (argmin (map Rabs pm)) pm 0.
Proof.
  unfold temperature_phase_matching. intros H.
  apply bind_Ok_inv in H as (axis & _ & H).
  apply bind_Ok_inv in H as (pm & _ & H).
  apply bind_Ok_inv in H as (lo & Hlo & H).
  apply bind_Ok_inv in H as (hi & Hhi & H).
  injection H as <-. cbn. auto.
Qed.

(** X27.  The summary entries of the result of the temperature scan.  The
    minimum and the maximum are values of the scan and bound every value.
    The closest sample is the first sample whose mismatch has the least
    absolute value: [closest_pm] is its mismatch and [closest_temp] its
    temperature. *)
Theorem temperature_scan_summary s mode tmin tmax step res :
  temperature_phase_matching s mode tmin tmax step = Ok res ->
  let axis := temperature_axis_of res in
  let pm := phase_mismatch_of res in
  In (min_phase_mismatch res) pm /\ In (max_phase_mismatch res) pm
  /\ (forall p, In p pm -> min_phase_mismatch res <= p <= max_phase_mismatch res)
  /\ exists i,
       (i < List.length pm)%nat
       /\ closest_pm res = nth i pm 0 /\ closest_temp res = nth i axis 0
       /\ (forall j, (j < List.length pm)%nat ->
             Rabs (closest_pm res) <= Rabs (nth j pm 0))
       /\ (forall j, (j < i)%nat -> Rabs (closest_pm res) < Rabs (nth j pm 0)).
Proof.
  intros Hres axis pm.
  destruct (temperature_result_fields _ _ _ _ _ _ Hres) as (Hmin & Hmax & Hct & Hcp).
  fold pm in Hmin, Hmax, Hct, Hcp. fold axis in Hct.
  destruct pm as [|x pm'] eqn:Epm; [discriminate|].
  cbn [array_min array_max] in Hmin, Hmax.
  injection Hmin as Hmin. injection Hmax as Hmax.
  destruct (fold_left_Rmin_spec pm' x) as (A1 & A2 & A3).
  destruct (fold_left_Rmax_spec pm' x) as (B1 & B2 & B3).
  rewrite Hmin in A1, A2, A3. rewrite Hmax in B1, B2, B3.
  split; [exact A3|]. split; [exact B3|]. split.
  { rewrite Forall_forall in A2, B2.
    intros p [<-|Hp]; [lra|]. split; [apply A2 | apply B2]; exact Hp. }
  assert (Hne : map Rabs (x :: pm') <> []) by discriminate.
  destruct (argmin_spec _ Hne) as (Hi & Hle & Hlt).
  rewrite length_map in Hi, Hle.
  exists (argmin (map Rabs (x :: pm'))).
  split; [exact Hi|]. split; [exact Hcp|]. split; [exact Hct|].
  rewrite Hcp.
  split.
  - intros j Hj. specialize (Hle j Hj).
    rewrite !(nth_map_inside Rabs _ _ 0 0) in Hle by assumption. exact Hle.
  - intros j Hj. specialize (Hlt j Hj).
    rewrite !(nth_map_inside Rabs _ _ 0 0) in Hlt by lia. exact Hlt.
Qed.

Lemma temperature_scan_summary_witness :
  exists res,
    temperature_phase_matching (lbo_ncpm_solver 20) mode_zzy
      (lbo_matching_temperature - 0.5) (lbo_matching_temperature + 0.5) 1
    = Ok res
    /\ In (min_phase_mismatch res) (phase_mismatch_of res)
    /\ In (max_phase_mismatch res) (phase_mismatch_of res).
Proof.
  destruct lbo_unit_scan as (res & Hres & _).
  exists res. split; [exact Hres|].
  destruct (temperature_scan_summary _ _ _ _ _ _ Hres) as (A & B & _).
  exact (conj A B).
Defined.

(** *** A sample with a mismatch of exactly zero *)

Lemma seq_split3 (i n : nat) :
  (S (S i) < n)%nat ->
  seq 0 (n - 1) = seq 0 i ++ [i; S i] ++ seq (S (S i)) (n - 1 - S (S i)).
Proof.
  intros H.
  replace (n - 1)%nat with (i + (2 + (n - 1 - S (S i))))%nat at 1 by lia.
  rewrite seq_app. f_equal.
Qed.

(** X28.  A sample whose mismatch is exactly zero, strictly inside the
    grid, between two samples whose mismatch exceeds 1e-10 in absolute
    value, is reported twice in a row: once as the root of the pair it ends
    and once as the root of the pair it starts. *)
Theorem zero_sample_reported_twice s mode tmin tmax step res i :
  temperature_phase_matching s mode tmin tmax step = Ok res ->
  let axis := temperature_axis_of res in
  let pm := phase_mismatch_of res in
  (S (S i) < List.length pm)%nat ->
  nth (S i) pm 0 = 0 ->
  Rabs (nth i pm 0) > 1e-10 -> Rabs (nth (S (S i)) pm 0) > 1e-10 ->
  exists before after,
    matching_temperatures res
    = before ++ [nth (S i) axis 0; nth (S i) axis 0] ++ after.
Proof.
  intros Hres axis pm Hi Hz H0 H2.
  destruct (temperature_phase_matching_inv _ _ _ _ _ _ Hres) as (_ & Hpm & Hm).
  fold axis in Hpm, Hm. fold pm in Hpm, Hm.
  assert (Hlen : List.length axis = List.length pm)
    by (eapply Forall2_length_eq; apply mapM_inv; exact Hpm).
  rewrite Hm, (find_matching_bracket_roots _ _ Hlen).
  unfold bracket_roots. rewrite (seq_split3 i _ Hi), !flat_map_app.
  eexists. eexists. f_equal. f_equal.
  cbn [flat_map app].
  rewrite (pair_root_reported axis pm i), (pair_root_reported axis pm (S i)).
  - rewrite Hz. unfold interpolate. cbn [app]. f_equal; [|f_equal].
    + assert (Hp : nth i pm 0 <> 0).
      { intros E. rewrite E, Rabs_R0 in H0. lra. }
      field. lra.
    + field.
      intros E. rewrite E, Rabs_R0 in H2. lra.
  - unfold sign_change. rewrite Hz. lra.
  - rewrite Hz. replace (nth (S (S i)) pm 0 - 0) with (nth (S (S i)) pm 0) by ring.
    exact H2.
  - unfold sign_change. rewrite Hz. lra.
  - rewrite Hz. replace (0 - nth i pm 0) with (- nth i pm 0) by ring.
    rewrite Rabs_Ropp. exact H0.
Qed.

Lemma arange_three_samples start stop step :
  0 < step -> start + 2 * step < stop <= start + 3 * step ->
  arange start stop step
  = Ok [start + INR 0 * step; start + INR 1 * step; start + INR 2 * step].
Proof.
  intros Hs Hr. unfold arange.
  destruct (Req_dec_T step 0) as [E|_]; [lra|].
  rewrite (Zceil_eq 3); [reflexivity|].
  split.
  - apply (Rmult_lt_reg_r step); [assumption|].
    unfold Rdiv. rewrite Rmult_assoc, Rinv_l by lra. lra.
  - apply (Rmult_le_reg_r step); [assumption|].
    unfold Rdiv. rewrite Rmult_assoc, Rinv_l by lra. lra.
Qed.

Lemma zero_sample_reported_twice_witness :
  exists res before after,
    temperature_phase_matching (lbo_ncpm_solver 20) mode_zzy
      (lbo_matching_temperature - 1) (lbo_matching_temperature + 1) 1
    = Ok res
    /\ matching_temperatures res
       = before ++ [nth 1 (temperature_axis_of res) 0;
                    nth 1 (temperature_axis_of res) 0] ++ after.
Proof.
  set (T := lbo_matching_temperature).
  pose proof (arange_three_samples (T - 1) (T + 1 + 1) 1 ltac:(lra) ltac:(lra)) as Ha.
  destruct (lbo_scan 20 (T - 1) (T + 1) 1 _ Ha ltac:(discriminate))
    as (res & Hres & Hax & Hpm & Hm).
  assert (E0 : nth 0 (phase_mismatch_of res) 0 = - 5.0656e-6).
  { rewrite Hpm. cbn [map nth]. unfold lbo_mismatch_at, T, lbo_matching_temperature.
    simpl INR. lra. }
  assert (E1 : nth 1 (phase_mismatch_of res) 0 = 0).
  { rewrite Hpm. cbn [map nth]. unfold lbo_mismatch_at, T, lbo_matching_temperature.
    simpl INR. lra. }
  assert (E2 : nth 2 (phase_mismatch_of res) 0 = 5.0656e-6).
  { rewrite Hpm. cbn [map nth]. unfold lbo_mismatch_at, T, lbo_matching_temperature.
    simpl INR. lra. }
  destruct (zero_sample_reported_twice _ _ _ _ _ res 0%nat Hres) as (b & a & H).
  - rewrite Hpm. simpl. lia.
  - exact E1.
  - rewrite E0, Rabs_left by lra. lra.
  - rewrite E2, Rabs_right by lra. lra.
  - exists res, b, a. split; [exact Hres | exact H].
Defined.

(** *** Crystals without thermal terms *)

Lemma find_matching_constant (T pm : list R) (v : R) :
  Forall (fun p => p = v) pm -> find_matching T pm = [].
Proof.
  intros H. destruct (find_matching T pm) as [|t l] eqn:E; [reflexivity|exfalso].
  assert (Hin : In t (find_matching T pm)) by (rewrite E; left; reflexivity).
  apply find_matching_pairs in Hin as (i & _ & Hi & _ & Hd & _).
  rewrite Forall_forall in H.
  rewrite (H (nth i pm 0)), (H (nth (S i) pm 0)) in Hd by (apply nth_In; lia).
  replace (v - v) with 0 in Hd by ring. rewrite Rabs_R0 in Hd. lra.
Qed.

(** X29.  For KDP and DKDP, whose indices do not depend on the temperature,
    the temperature scan is flat: all mismatch values are equal, the minimum
    equals the maximum, and no matching temperature is reported, for every
    identifier and every range. *)
Theorem kdp_scan_reports_nothing s mode tmin tmax step res :
  In (crystal_name (cfg s)) ["KDP"; "DKDP"]%string ->
  temperature_phase_matching s mode tmin tmax step = Ok res ->
  (forall p p', In p (phase_mismatch_of res) -> In p' (phase_mismatch_of res) ->
                p = p')
  /\ min_phase_mismatch res = max_phase_mismatch res
  /\ matching_temperatures res = [].
Proof.
  intros Hk Hres.
  destruct (temperature_phase_matching_inv _ _ _ _ _ _ Hres) as (_ & Hpm & Hm).
  destruct (temperature_result_fields _ _ _ _ _ _ Hres) as (Hmin & Hmax & _).
  apply mapM_inv in Hpm.
  assert (Hall : forall p, In p (phase_mismatch_of res) ->
            delta_n s mode None None None None (Some 0) = Ok p).
  { intros p Hp.
    apply (In_nth _ _ 0) in Hp as (i & Hi & <-).
    assert (Hi' : (i < List.length (temperature_axis_of res))%nat)
      by (rewrite (Forall2_length_eq _ _ _ Hpm); exact Hi).
    pose proof (Forall2_nth _ _ _ i 0 0 Hpm Hi') as H. cbv beta in H.
    rewrite <- H. apply get_indices_kdp_delta_n. exact Hk. }
  assert (Heq : forall p p', In p (phase_mismatch_of res) ->
            In p' (phase_mismatch_of res) -> p = p').
  { intros p p' Hp Hp'. apply Hall in Hp, Hp'. congruence. }
  split; [exact Heq|].
  destruct (phase_mismatch_of res) as [|x pm'] eqn:Epm; [discriminate|].
  split.
  - cbn [array_min array_max] in Hmin, Hmax.
    injection Hmin as Hmin. injection Hmax as Hmax.
    destruct (fold_left_Rmin_spec pm' x) as (_ & _ & A).
    destruct (fold_left_Rmax_spec pm' x) as (_ & _ & B).
    rewrite Hmin in A. rewrite Hmax in B. apply Heq; assumption.
  - rewrite Hm. apply (find_matching_constant _ _ x).
    apply Forall_forall. intros p Hp. apply Heq; [exact Hp | left; reflexivity].
Qed.

Lemma kdp_scan_reports_nothing_witness :
  exists res,
    temperature_phase_matching kdp_solver mode_xxy 20 21 1 = Ok res
    /\ matching_temperatures res = [].
Proof.
  destruct (temperature_scan_outcome_returns kdp_solver mode_xxy 20 21 1)
    as [res Hres]; [lra | lra | |].
  - apply delta_n_returns_terms. eexists. unfold mode_xxy.
    apply (delta_n_terms_axis_notation kdp_solver ch_X (lit "1064") ch_X (lit "532")
             ch_Y (lit "355") "Type I" None None None None (Some 20));
      try reflexivity; try (simpl; auto; fail);
      try (apply label_shape_digits; [discriminate | reflexivity]).
    left; reflexivity.
  - exists res. split; [exact Hres|].
    destruct (kdp_scan_reports_nothing kdp_solver mode_xxy 20 21 1 res) as (_ & _ & H);
      [simpl; auto | exact Hres | exact H].
Defined.

(** ** The identifiers of the temperature-matching page *)

Lemma all_modes_for_axis_shape proc axis w w2 mode :
  In mode (all_modes_for_axis proc axis w w2) ->
  exists a l1 b l2 c lo ty,
    mode = mode_name a l1 b l2 c lo ty
    /\ In a [ch_X; ch_Y; ch_Z] /\ In b [ch_X; ch_Y; ch_Z] /\ In c [ch_X; ch_Y; ch_Z]
    /\ a <> axis_label axis /\ b <> axis_label axis /\ c <> axis_label axis
    /\ label_shape l1 /\ label_shape l2 /\ label_shape lo /\ is_type_tag ty.
Proof.
  unfold all_modes_for_axis, axis_label, is_type_tag.
  destruct proc; destruct (String.eqb axis "X"); try destruct (String.eqb axis "Y");
    simpl; intros H; decompose [or] H; subst; try contradiction;
    do 7 eexists; (split; [reflexivity|]);
    repeat split; auto using format_0f_shape; discriminate.
Qed.

Lemma mode_name_without p a l1 b l2 c lo ty :
  In p [ch_X; ch_Y; ch_Z] ->
  In a [ch_X; ch_Y; ch_Z] -> In b [ch_X; ch_Y; ch_Z] -> In c [ch_X; ch_Y; ch_Z] ->
  a <> p -> b <> p -> c <> p ->
  label_shape l1 -> label_shape l2 -> label_shape lo -> is_type_tag ty ->
  contains p (mode_name a l1 b l2 c lo ty) = false.
Proof.
  intros Hp Ha Hb Hc Na Nb Nc L1 L2 Lo Hty. unfold mode_name.
  simpl in Hp, Ha, Hb, Hc.
  destruct Hty as [-> | ->];
    decompose [or] Hp; subst; try contradiction;
    decompose [or] Ha; subst; try contradiction;
    decompose [or] Hb; subst; try contradiction;
    decompose [or] Hc; subst; try contradiction;
    no_char.
Qed.

Lemma axis_label_axis axis : In (axis_label axis) [ch_X; ch_Y; ch_Z].
Proof.
  unfold axis_label.
  destruct (String.eqb axis "X"); [simpl; auto|].
  destruct (String.eqb axis "Y"); simpl; auto.
Qed.

(** X30.  The identifiers that the dashboard builds for temperature
    matching along a principal axis: four for SHG and six for SFG, all in the
    axis notation and none naming the propagation axis.  For a crystal with
    dispersion formulas [delta_n] returns on each of them without [theta], at
    every temperature, and the temperature scan of each of them returns
    whenever its grid is not empty. *)
Theorem launcher_modes_accepted proc axis w w2 s :
  known_crystal (crystal_name (cfg s)) = true ->
  List.length (all_modes_for_axis proc axis w w2)
  = match proc with SHG => 4%nat | SFG => 6%nat end
  /\ forall mode, In mode (all_modes_for_axis proc axis w w2) ->
       is_xyz_notation mode = true
       /\ contains (axis_label axis) mode = false
       /\ (forall T, returns (delta_n s mode None None None None T))
       /\ (forall tmin tmax step, 0 < step -> tmin < tmax + step ->
             returns (temperature_phase_matching s mode tmin tmax step)).
Proof.
  intros Hk. split.
  { unfold all_modes_for_axis.
    destruct proc; destruct (String.eqb axis "X"); try destruct (String.eqb axis "Y");
      reflexivity. }
  intros mode Hin.
  destruct (all_modes_for_axis_shape _ _ _ _ _ Hin)
    as (a & l1 & b & l2 & c & lo & ty & -> & Ha & Hb & Hc & Na & Nb & Nc
        & L1 & L2 & Lo & Hty).
  assert (Hret : forall T, returns (delta_n s (mode_name a l1 b l2 c lo ty)
                                      None None None None T)).
  { intros T.
    destruct (delta_n_axis_notation_value s a l1 b l2 c lo ty None None None None T
                Hk Ha Hb Hc L1 L2 Lo Hty)
      as (i1 & i2 & io & k1 & k2 & kout & _ & _ & _ & _ & _ & _ & H).
    eexists. exact H. }
  split.
  { unfold is_xyz_notation, mode_name. rewrite !contains_app.
    simpl in Ha. decompose [or] Ha; subst; try contradiction;
      cbn [contains existsb N.eqb Pos.eqb ch_X ch_Y ch_Z orb];
      rewrite ?orb_true_r; reflexivity. }
  split.
  { apply mode_name_without; auto using axis_label_axis. }
  split; [exact Hret|].
  intros tmin tmax step Hs Hlt.
  apply temperature_scan_outcome_returns; auto.
Qed.

Lemma launcher_modes_accepted_witness :
  returns (delta_n (lbo_ncpm_solver 20)
             (nth 0 (all_modes_for_axis SHG "Z" 1064 0) [])
             None None None None (Some 150))
  /\ contains ch_Z (nth 0 (all_modes_for_axis SHG "Z" 1064 0) []) = false.
Proof.
  destruct (launcher_modes_accepted SHG "Z" 1064 0 (lbo_ncpm_solver 20) eq_refl)
    as [_ H].
  destruct (H (nth 0 (all_modes_for_axis SHG "Z" 1064 0) []))
    as (_ & Hc & Hr & _).
  - left. reflexivity.
  - split; [apply Hr | exact Hc].
Defined.
